(** * Fact-Online-eXamination-AI: persistence model, summarizer and graph manager

    A shallow embedding of

    - [Database/data_entities.py]  (the titled [Claim] and [Answer]),
    - [data_entities.py]           (the plain [Claim] and [Source]),
    - [Preprocessor/summarizer.py] ([Summarizer]),
    - [GraphRAG/graph_manager.py]  ([GraphManager.__init__], [load_data], and
      of [extract_and_save_graph] the graph, the colours and the labels of a
      picture, [split_label] and [avoid_overlap]),

    followed by the properties of these functions.

    Conventions.  A Python [str] is a [string] holding one code point below
    256 per character.  A method that may raise is a function from the world
    to a [result] and the world it leaves; what was written before an
    exception stays written.  Only exceptions of class [Exception] are
    modelled, which is what the [except Exception] clauses of the source
    catch. *)

From Stdlib Require Import String Ascii List ZArith QArith Qround Qabs Lia Lqa.
From Stdlib Require Import Permutation PrimFloat.
From stdpp Require Import gmap strings list pretty.
Local Close Scope Q_scope.
Local Open Scope string_scope.
Local Open Scope list_scope.

(** ** Python values, strings and exceptions *)

Module Py.

(** The values that reach the code: [None], a [str], a [list], and a [dict]
    with string keys, in insertion order. *)
#[warnings="-register-all"]
Inductive value : Type :=
| VNone
| VStr (s : string)
| VList (items : list value)
| VDict (entries : list (string * value)).

Record Exn : Type := mkExn { exn_class : string; exn_msg : string }.

Inductive result (A : Type) : Type :=
| Ok (a : A)
| Raise (e : Exn).
Arguments Ok {A} a.
Arguments Raise {A} e.

Definition is_ok {A} (r : result A) : bool :=
  match r with Ok _ => true | Raise _ => false end.

(** [bool(s)] of a string. *)
Definition truthy (s : string) : bool :=
  match s with EmptyString => false | String _ _ => true end.

(** [s[n:]] and [s[:n]] for a literal [n >= 0]. *)
Fixpoint drop_chars (n : nat) (s : string) : string :=
  match n, s with
  | O, _ => s
  | S _, EmptyString => EmptyString
  | S n', String _ s' => drop_chars n' s'
  end.

Fixpoint take_chars (n : nat) (s : string) : string :=
  match n, s with
  | O, _ => EmptyString
  | S _, EmptyString => EmptyString
  | S n', String c s' => String c (take_chars n' s')
  end.

(** [s[:k]] for an [int] [k]: a negative bound counts from the end. *)
Definition slice_to (k : Z) (s : string) : string :=
  if (0 <=? k)%Z then take_chars (Z.to_nat k) s
  else take_chars (Z.to_nat (Z.of_nat (String.length s) + k)) s.

(** [str.isspace] on one code point below 256. *)
Definition is_space (c : ascii) : bool :=
  let n := nat_of_ascii c in
  (((9 <=? n) && (n <=? 13)) || ((28 <=? n) && (n <=? 32))
   || (n =? 133) || (n =? 160))%nat.

Fixpoint lstrip (s : string) : string :=
  match s with
  | EmptyString => EmptyString
  | String c s' => if is_space c then lstrip s' else s
  end.

(** Drops trailing white space: a character stays when it is not white
    space or something after it stays. *)
Fixpoint rstrip (s : string) : string :=
  match s with
  | EmptyString => EmptyString
  | String c s' =>
      match rstrip s' with
      | EmptyString => if is_space c then EmptyString else String c EmptyString
      | kept => String c kept
      end
  end.

(** [s.strip()] *)
Definition strip (s : string) : string := rstrip (lstrip s).

Definition dquote : ascii := ascii_of_nat 34.
Definition squote : ascii := ascii_of_nat 39.
Definition backslash : ascii := ascii_of_nat 92.

Fixpoint mem_char (c : ascii) (s : string) : bool :=
  match s with
  | EmptyString => false
  | String d s' => Ascii.eqb c d || mem_char c s'
  end.

Definition hex_digit (n : nat) : ascii :=
  if (n <? 10)%nat then ascii_of_nat (48 + n) else ascii_of_nat (87 + n).

(** [\xhh] *)
Definition hex_escape (c : ascii) : string :=
  let n := nat_of_ascii c in
  String backslash (String "x" (String (hex_digit (n / 16))
    (String (hex_digit (n mod 16)) EmptyString))).

(** One character of [repr(s)], inside the quote [q]. *)
Definition repr_char (q c : ascii) : string :=
  let n := nat_of_ascii c in
  if Ascii.eqb c q || Ascii.eqb c backslash then String backslash (String c EmptyString)
  else if (n =? 9)%nat then String backslash "t"
  else if (n =? 10)%nat then String backslash "n"
  else if (n =? 13)%nat then String backslash "r"
  else if ((n <? 32) || (n =? 127))%nat then hex_escape c
  else if (n <? 127)%nat then String c EmptyString
  else if ((n <=? 160) || (n =? 173))%nat then hex_escape c
  else String c EmptyString.

Fixpoint repr_chars (q : ascii) (s : string) : string :=
  match s with
  | EmptyString => EmptyString
  | String c s' => repr_char q c +:+ repr_chars q s'
  end.

(** [repr(s)] of a string: single quotes, unless the string holds a single
    quote and no double quote. *)
Definition repr_str (s : string) : string :=
  let q := if mem_char squote s && negb (mem_char dquote s) then dquote else squote in
  String q (repr_chars q s +:+ String q EmptyString).

Fixpoint join (sep : string) (parts : list string) : string :=
  match parts with
  | [] => EmptyString
  | [p] => p
  | p :: rest => p +:+ sep +:+ join sep rest
  end.

(** [repr(v)] *)
Fixpoint repr (v : value) : string :=
  match v with
  | VNone => "None"
  | VStr s => repr_str s
  | VList items => "[" +:+ join ", " (map repr items) +:+ "]"
  | VDict entries =>
      "{" +:+ join ", " (map (fun kv => repr_str (fst kv) +:+ ": " +:+ repr (snd kv)) entries)
          +:+ "}"
  end.

(** [str(v)]: a string is itself, anything else is its [repr]. *)
Definition str (v : value) : string :=
  match v with
  | VStr s => s
  | _ => repr v
  end.

End Py.

(** ** Worlds, and the monad of methods that may raise *)

Module Eff.
Import Py.

(** A method over a world [S]: the result, and the world it leaves. *)
Definition M (S A : Type) : Type := S -> result A * S.

Definition ret {S A} (a : A) : M S A := fun w => (Ok a, w).
Definition raise {S A} (e : Exn) : M S A := fun w => (Raise e, w).
Definition bind {S A B} (m : M S A) (k : A -> M S B) : M S B :=
  fun w => match m w with
           | (Ok a, w') => k a w'
           | (Raise e, w') => (Raise e, w')
           end.

(** [try: m  except Exception as e: h e] *)
Definition try_except {S A} (m : M S A) (h : Exn -> M S A) : M S A :=
  fun w => match m w with
           | (Ok a, w') => (Ok a, w')
           | (Raise e, w') => h e w'
           end.

(** [for x in xs: body x] *)
Fixpoint for_each {S A} (xs : list A) (body : A -> M S unit) : M S unit :=
  match xs with
  | [] => ret tt
  | x :: rest => bind (body x) (fun _ => for_each rest body)
  end.

(** A list comprehension whose element expression may raise. *)
Fixpoint comprehension {A B} (f : A -> result B) (xs : list A) : result (list B) :=
  match xs with
  | [] => Ok []
  | x :: rest =>
      match f x with
      | Raise e => Raise e
      | Ok b => match comprehension f rest with
                | Raise e => Raise e
                | Ok bs => Ok (b :: bs)
                end
      end
  end.

Definition lift {S A} (r : result A) : M S A := fun w => (r, w).

End Eff.

Declare Scope py_scope.
Delimit Scope py_scope with py.
Notation "'let*' x ':=' m 'in' k" := (Eff.bind m (fun x => k))
  (at level 10, x name, m at level 100, k at level 200) : py_scope.
Notation "m ';;' k" := (Eff.bind m (fun _ => k))
  (at level 100, k at level 200, right associativity) : py_scope.

(** ** The logger *)

(** Modelled from the spec: the logger ([log.py], [Logger(name).get_logger()])
    is not among the sources; the spec lists it as a collaborator.  A call
    of [logger.<level>] is kept as a record, and a log is the list of the
    records written, the last one last. *)

Module Log.

Inductive level : Type := DEBUG | INFO | WARNING | ERROR.

(** What a format string is filled with. [AClock] stands for a number of
    seconds read off the wall clock. *)
Inductive arg : Type :=
| AStr (s : string)
| AInt (n : Z)
| AReal (q : Q)
| AExn (e : Py.Exn)
| AClock.

(** One call of [logger.<level>(fmt, *args)] on the logger called [name]. *)
Record record : Type := mk { lvl : level; name : string; fmt : string; args : list arg }.

End Log.

(** ** The relational store *)

(** Modelled from the spec: the [Database] driver ([sqldb.py]) is not among
    the sources.  The spec gives it table creation, parameterized execute
    and parameterized fetch over three tables of text columns with a
    primary key, a create statement that does nothing when the table
    exists, and store-access failures (a missing table, a constraint
    violation) that are logged and re-raised.  The statements below are the
    SQL texts the sources pass to it, as syntax trees; a declared foreign key
    is recorded and not enforced. *)

Module Sqldb.
Import Py.

Inductive sqlval : Type := SNull | SText (s : string).

(** A row, as [sqlite3.Row]: its values in column order, under their names. *)
Definition Row : Type := list (string * sqlval).

Record Table : Type := mkTable {
  columns : list string;
  pkey : string;
  fkey : option (string * (string * string));
  rows : list Row
}.

(** [CREATE TABLE IF NOT EXISTS name (columns..., PRIMARY KEY, FOREIGN KEY)] *)
Record create_stmt : Type := mkCreate {
  ct_name : string;
  ct_columns : list string;
  ct_pkey : string;
  ct_fkey : option (string * (string * string))
}.

Inductive statement : Type :=
| Insert (table : string) (cols : list string)   (* INSERT INTO t (cols) VALUES (?, ...) *)
| Delete (table : string) (where_col : string).  (* DELETE FROM t WHERE c = ? *)

Inductive query : Type :=
| Select (table : string) (where_col : option string). (* SELECT * FROM t [WHERE c = ?] *)

Abbreviation Tables := (gmap string Table).

Definition operational_error (msg : string) : Exn := mkExn "OperationalError" msg.
Definition no_such_table (t : string) : Exn := operational_error ("no such table: " +:+ t).
Definition no_such_column (c : string) : Exn := operational_error ("no such column: " +:+ c).
Definition no_column_named (t c : string) : Exn :=
  operational_error ("table " +:+ t +:+ " has no column named " +:+ c).
Definition wrong_bindings : Exn :=
  mkExn "ProgrammingError" "Incorrect number of bindings supplied.".
Definition unsupported_type (index : nat) (type_name : string) : Exn :=
  mkExn "ProgrammingError"
        ("Error binding parameter " +:+ pretty index +:+ ": type '" +:+ type_name
         +:+ "' is not supported").
Definition unique_failed (t c : string) : Exn :=
  mkExn "IntegrityError" ("UNIQUE constraint failed: " +:+ t +:+ "." +:+ c).
Definition no_item : Exn := mkExn "IndexError" "No item with that key".

Definition has_column (c : string) (cols : list string) : bool :=
  existsb (String.eqb c) cols.

Fixpoint assoc {A} (c : string) (l : list (string * A)) : option A :=
  match l with
  | [] => None
  | (k, v) :: rest => if String.eqb c k then Some v else assoc c rest
  end.

(** The parameter bound to the [index]-th [?], counting from one: a [str]
    or [None]; a list or a dict is refused. *)
Definition bind_param (index : nat) (v : value) : result sqlval :=
  match v with
  | VNone => Ok SNull
  | VStr s => Ok (SText s)
  | VList _ => Raise (unsupported_type index "list")
  | VDict _ => Raise (unsupported_type index "dict")
  end.

(** The parameters of a statement, bound from the [index]-th [?] on. *)
Fixpoint bind_params (index : nat) (params : list value) : result (list sqlval) :=
  match params with
  | [] => Ok []
  | p :: rest =>
      match bind_param index p with
      | Raise e => Raise e
      | Ok v => match bind_params (S index) rest with
                | Raise e => Raise e
                | Ok vs => Ok (v :: vs)
                end
      end
  end.

(** [row[c] = v] in SQL: [NULL] equals nothing. *)
Definition sql_eqb (a b : sqlval) : bool :=
  match a, b with
  | SText x, SText y => String.eqb x y
  | _, _ => false
  end.

Definition cell (c : string) (r : Row) : sqlval :=
  match assoc c r with Some v => v | None => SNull end.

Definition matches (c : string) (v : sqlval) (r : Row) : bool := sql_eqb (cell c r) v.

(** The row an [INSERT] builds: the table's columns in order, each with the
    value bound to it, [NULL] where the statement names no such column. *)
Definition new_row (table_cols stmt_cols : list string) (vals : list sqlval) : Row :=
  map (fun c => (c, match assoc c (combine stmt_cols vals) with
                    | Some v => v
                    | None => SNull
                    end)) table_cols.

Definition pkey_taken (tb : Table) (r : Row) : bool :=
  existsb (matches (pkey tb) (cell (pkey tb) r)) (rows tb).

Definition with_rows (tb : Table) (rs : list Row) : Table :=
  mkTable (columns tb) (pkey tb) (fkey tb) rs.

(** Modelled from the spec: [CREATE TABLE IF NOT EXISTS], which leaves a
    table that exists as it is. *)
Definition db_create (c : create_stmt) (ts : Tables) : Tables :=
  match ts !! ct_name c with
  | Some _ => ts
  | None => <[ct_name c := mkTable (ct_columns c) (ct_pkey c) (ct_fkey c) []]> ts
  end.

(** Modelled from the spec: an [INSERT] fails on a missing table, an unknown
    column, a wrong number of parameters, a parameter that is no text, or a
    primary key already there, and appends its row otherwise; a [DELETE]
    fails on a missing table or column and removes the matching rows
    otherwise, none being no error. *)
Definition db_execute (q : statement) (params : list value) (ts : Tables)
  : result unit * Tables :=
  match q with
  | Insert t cols =>
      match ts !! t with
      | None => (Raise (no_such_table t), ts)
      | Some tb =>
          match find (fun c => negb (has_column c (columns tb))) cols with
          | Some c => (Raise (no_column_named t c), ts)
          | None =>
              if negb (length params =? length cols)%nat then (Raise wrong_bindings, ts)
              else match bind_params 1 params with
                   | Raise e => (Raise e, ts)
                   | Ok vals =>
                       let r := new_row (columns tb) cols vals in
                       if pkey_taken tb r then (Raise (unique_failed t (pkey tb)), ts)
                       else (Ok tt, <[t := with_rows tb (rows tb ++ [r])]> ts)
                   end
          end
      end
  | Delete t c =>
      match ts !! t with
      | None => (Raise (no_such_table t), ts)
      | Some tb =>
          if negb (has_column c (columns tb)) then (Raise (no_such_column c), ts)
          else match params with
               | [p] =>
                   match bind_param 1 p with
                   | Raise e => (Raise e, ts)
                   | Ok v =>
                       (Ok tt, <[t := with_rows tb
                                        (List.filter (fun r => negb (matches c v r)) (rows tb))]> ts)
                   end
               | _ => (Raise wrong_bindings, ts)
               end
      end
  end.

(** Modelled from the spec: a [SELECT *] fails on a missing table or column
    and gives the matching rows in the order they were written. *)
Definition db_fetch (q : query) (params : list value) (ts : Tables) : result (list Row) :=
  match q with
  | Select t None =>
      match ts !! t with
      | None => Raise (no_such_table t)
      | Some tb => match params with
                   | [] => Ok (rows tb)
                   | _ => Raise wrong_bindings
                   end
      end
  | Select t (Some c) =>
      match ts !! t with
      | None => Raise (no_such_table t)
      | Some tb =>
          if negb (has_column c (columns tb)) then Raise (no_such_column c)
          else match params with
               | [p] =>
                   match bind_param 1 p with
                   | Raise e => Raise e
                   | Ok v => Ok (List.filter (matches c v) (rows tb))
                   end
               | _ => Raise wrong_bindings
               end
      end
  end.

(** [row[c]] *)
Definition row_get (c : string) (r : Row) : result value :=
  match assoc c r with
  | None => Raise no_item
  | Some SNull => Ok VNone
  | Some (SText s) => Ok (VStr s)
  end.

End Sqldb.

(** ** The world of the persistence model *)

Module Store.
Import Py Eff.

(** The database file, the log, the CSV files written, and the source of
    UUIDs: [uuid_seed n] is the text of the [n]-th UUID drawn. *)
Record World : Type := mkWorld {
  tables : Sqldb.Tables;
  log : list Log.record;
  exported : list string;
  uuid_seed : nat -> string;
  uuid_next : nat
}.

Definition set_tables (ts : Sqldb.Tables) (w : World) : World :=
  mkWorld ts (log w) (exported w) (uuid_seed w) (uuid_next w).

(** [logger.<level>(fmt, *args)] *)
Definition emit (l : Log.level) (name fmt : string) (args : list Log.arg) : M World unit :=
  fun w => (Ok tt, mkWorld (tables w) (log w ++ [Log.mk l name fmt args])
                           (exported w) (uuid_seed w) (uuid_next w)).

(** [str(uuid.uuid4())] *)
Definition uuid4_str : M World string :=
  fun w => (Ok (uuid_seed w (uuid_next w)),
            mkWorld (tables w) (log w) (exported w) (uuid_seed w) (S (uuid_next w))).

(** Modelled from the spec: [CSVExporter] ([csv_exporter.py]) is not among
    the sources; the spec lists CSV export as glue.  An export is recorded by
    the name of the table it writes out. *)
Definition export_csv (table : string) : M World unit :=
  fun w => (Ok tt, mkWorld (tables w) (log w) (exported w ++ [table])
                           (uuid_seed w) (uuid_next w)).

(** Modelled from the spec: a store-access failure is logged, then
    re-raised to the caller. *)
Definition reraise_logged {A} (e : Exn) : M World A :=
  (emit Log.ERROR "Database" "Database error: %s" [Log.AExn e] ;; raise e)%py.

(** Modelled from the spec: the four methods of the [Database] driver the
    sources call.  A handle, whether passed as [db] or made by [Database()],
    denotes the one store of the world. *)
Definition create_table (sql : Sqldb.create_stmt) : M World unit :=
  fun w => (Ok tt, set_tables (Sqldb.db_create sql (tables w)) w).

Definition execute_query (q : Sqldb.statement) (params : list value) : M World unit :=
  fun w => match Sqldb.db_execute q params (tables w) with
           | (Ok u, ts) => (Ok u, set_tables ts w)
           | (Raise e, ts) => reraise_logged e (set_tables ts w)
           end.

Definition fetch_all (q : Sqldb.query) (params : list value) : M World (list Sqldb.Row) :=
  fun w => match Sqldb.db_fetch q params (tables w) with
           | Ok rs => (Ok rs, w)
           | Raise e => reraise_logged e w
           end.

Definition fetch_one (q : Sqldb.query) (params : list value) : M World (option Sqldb.Row) :=
  fun w => match Sqldb.db_fetch q params (tables w) with
           | Ok rs => (Ok (List.head rs), w)
           | Raise e => reraise_logged e w
           end.

End Store.

(** ** [Database/data_entities.py]: the titled claim, and answers *)

Module Titled.
Import Py Eff Store.
Local Open Scope py_scope.

Record Claim : Type := mkClaim {
  id : string;
  text : string;
  title : string;
  summary : string
}.

(** The dictionaries [get_dict_sources] returns. *)
Record SourceDict : Type := mkSourceDict {
  sd_source_id : value;
  sd_claim_id : value;
  sd_title : value;
  sd_url : value;
  sd_site : value;
  sd_body : value;
  sd_topic : value;
  sd_entities : value
}.

(** One element of [sources_data]. *)
Record SourceData : Type := mkSourceData {
  data_title : string;
  data_url : string;
  data_site : string;
  data_body : string;
  data_topic : string;
  data_entities : value
}.

Definition claims_table_sql : Sqldb.create_stmt :=
  Sqldb.mkCreate "claims" ["id"; "text"; "title"; "summary"] "id" None.

Definition sources_table_sql : Sqldb.create_stmt :=
  Sqldb.mkCreate "sources"
    ["id"; "claim_id"; "title"; "url"; "site"; "body"; "topic"; "entities"]
    "id" (Some ("claim_id", ("claims", "id"))).

Definition answers_table_sql : Sqldb.create_stmt :=
  Sqldb.mkCreate "answers" ["id"; "claim_id"; "answer"; "graphs_folder"]
    "id" (Some ("claim_id", ("claims", "id"))).

(** [Claim.save_to_db] *)
Definition save_to_db (self : Claim) : M World unit :=
  emit Log.INFO "Claim" "Saving claim to the database." [] ;;
  create_table claims_table_sql ;;
  execute_query (Sqldb.Insert "claims" ["id"; "text"; "title"; "summary"])
                [VStr (id self); VStr (text self); VStr (title self); VStr (summary self)] ;;
  emit Log.INFO "Claim" "Claim with ID %s saved to the database." [Log.AStr (id self)].

(** [claim_id if claim_id else str(uuid.uuid4())]: [None] and the empty
    string are both false. *)
Definition choose_id (given : option string) : M World string :=
  match given with
  | Some s => if truthy s then ret s else uuid4_str
  | None => uuid4_str
  end.

(** [Claim.__init__] *)
Definition Claim_init (text title summary : string) (claim_id : option string)
  : M World Claim :=
  let* i := choose_id claim_id in
  let self := mkClaim i text (drop_chars 2 title) summary in
  emit Log.INFO "Claim" "Creating claim with ID: %s" [Log.AStr i] ;;
  save_to_db self ;;
  ret self.

Definition source_dict_of_row (row : Sqldb.Row) : result SourceDict :=
  match Sqldb.row_get "id" row with Raise e => Raise e | Ok a =>
  match Sqldb.row_get "claim_id" row with Raise e => Raise e | Ok b =>
  match Sqldb.row_get "title" row with Raise e => Raise e | Ok c =>
  match Sqldb.row_get "url" row with Raise e => Raise e | Ok d =>
  match Sqldb.row_get "site" row with Raise e => Raise e | Ok f =>
  match Sqldb.row_get "body" row with Raise e => Raise e | Ok g =>
  match Sqldb.row_get "topic" row with Raise e => Raise e | Ok h =>
  match Sqldb.row_get "entities" row with Raise e => Raise e | Ok i =>
  Ok (mkSourceDict a b c d f g h i)
  end end end end end end end end.

(** [Claim.get_dict_sources] *)
Definition get_dict_sources (self : Claim) : M World (list SourceDict) :=
  emit Log.INFO "Claim" "Fetching sources for claim ID %s." [Log.AStr (id self)] ;;
  let* rows := fetch_all (Sqldb.Select "sources" (Some "claim_id")) [VStr (id self)] in
  let* sources := lift (comprehension source_dict_of_row rows) in
  emit Log.INFO "Claim" "Found %d sources for claim ID %s."
       [Log.AInt (Z.of_nat (length sources)); Log.AStr (id self)] ;;
  ret sources.

Definition insert_source_sql : Sqldb.statement :=
  Sqldb.Insert "sources"
    ["id"; "claim_id"; "title"; "url"; "site"; "body"; "topic"; "entities"].

(** [Claim.add_sources] *)
Definition add_sources (self : Claim) (sources_data : list SourceData) : M World unit :=
  emit Log.INFO "Claim" "Adding sources for claim ID %s." [Log.AStr (id self)] ;;
  create_table sources_table_sql ;;
  for_each sources_data (fun data =>
    let* u := uuid4_str in
    execute_query insert_source_sql
      [VStr u; VStr (id self); VStr (data_title data); VStr (data_url data);
       VStr (data_site data); VStr (data_body data); VStr (data_topic data);
       VStr (str (data_entities data))]) ;;
  emit Log.INFO "Claim" "Added %d sources for claim ID %s."
       [Log.AInt (Z.of_nat (length sources_data)); Log.AStr (id self)].

(** [Claim.clear_database] *)
Definition clear_database (self : Claim) : M World unit :=
  emit Log.INFO "Claim" "Clearing claim data for claim ID %s." [Log.AStr (id self)] ;;
  execute_query (Sqldb.Delete "claims" "id") [VStr (id self)] ;;
  execute_query (Sqldb.Delete "sources" "claim_id") [VStr (id self)] ;;
  execute_query (Sqldb.Delete "answers" "claim_id") [VStr (id self)] ;;
  emit Log.INFO "Claim" "Claim data for claim ID %s cleared." [Log.AStr (id self)].

(** [Claim.has_answer] *)
Definition has_answer (self : Claim) : M World bool :=
  emit Log.INFO "Claim" "Checking if claim ID %s has an answer." [Log.AStr (id self)] ;;
  let* row := fetch_one (Sqldb.Select "answers" (Some "claim_id")) [VStr (id self)] in
  ret (match row with Some _ => true | None => false end).

Record Answer : Type := mkAnswer {
  answer_id : string;
  answer_claim_id : string;
  answer : string;
  graphs_folder : string
}.

(** [Answer.save_to_db] *)
Definition Answer_save_to_db (self : Answer) : M World unit :=
  create_table answers_table_sql ;;
  execute_query (Sqldb.Insert "answers" ["id"; "claim_id"; "answer"; "graphs_folder"])
                [VStr (answer_id self); VStr (answer_claim_id self);
                 VStr (answer self); VStr (graphs_folder self)].

(** [Answer.__init__] *)
Definition Answer_init (claim_id answer graphs_folder : string) (answer_id : option string)
  : M World Answer :=
  let* i := choose_id answer_id in
  let self := mkAnswer i claim_id answer graphs_folder in
  Answer_save_to_db self ;;
  ret self.

End Titled.

(** ** [data_entities.py]: the plain claim, and sources *)

Module Plain.
Import Py Eff Store.
Local Open Scope py_scope.

Record Claim : Type := mkClaim { id : string; text : string }.

(** A [Source] object; its attributes hold what the row held. *)
Record Source : Type := mkSource {
  source_id : value;
  source_claim_id : value;
  source_title : value;
  source_url : value;
  source_site : value;
  source_body : value;
  source_entities : value;
  source_topic : value
}.

(** One element of [sources_data]. *)
Record SourceData : Type := mkSourceData {
  data_title : string;
  data_url : string;
  data_site : string;
  data_body : string;
  data_entities : value;
  data_topic : string
}.

Definition claims_table_sql : Sqldb.create_stmt :=
  Sqldb.mkCreate "claims" ["id"; "text"] "id" None.

Definition sources_table_sql : Sqldb.create_stmt :=
  Sqldb.mkCreate "sources"
    ["id"; "claim_id"; "title"; "url"; "site"; "body"; "entities"; "topic"]
    "id" (Some ("claim_id", ("claims", "id"))).

(** [Claim.save_to_db] *)
Definition save_to_db (self : Claim) : M World unit :=
  emit Log.INFO "Claim" "Saving claim to the database." [] ;;
  create_table claims_table_sql ;;
  execute_query (Sqldb.Insert "claims" ["id"; "text"]) [VStr (id self); VStr (text self)] ;;
  emit Log.INFO "Claim" "Claim with ID %s saved to the database." [Log.AStr (id self)] ;;
  export_csv "claims" ;;
  emit Log.INFO "Claim" "Claims exported to CSV after insertion." [].

(** [Claim.__init__] *)
Definition Claim_init (text : string) (claim_id : option string) : M World Claim :=
  let* i := match claim_id with
            | Some s => if truthy s then ret s else uuid4_str
            | None => uuid4_str
            end in
  let self := mkClaim i text in
  emit Log.INFO "Claim" "Creating claim with ID: %s" [Log.AStr i] ;;
  save_to_db self ;;
  ret self.

(** [bool(v)] *)
Definition value_truthy (v : value) : bool :=
  match v with
  | VNone => false
  | VStr s => truthy s
  | VList [] => false
  | VList (_ :: _) => true
  | VDict [] => false
  | VDict (_ :: _) => true
  end.

(** [Source.__init__]: [source_id if source_id else str(uuid.uuid4())] *)
Definition Source_init (claim_id title url site body entities topic source_id : value)
  : M World Source :=
  let* i := if value_truthy source_id then ret source_id
            else (let* u := uuid4_str in ret (VStr u)) in
  ret (mkSource i claim_id title url site body entities topic).

(** The element expression of the comprehensions of [get_sources] and
    [load_all]: the keyword arguments are read off the row in the order
    written, then the object is built. *)
Definition source_of_row (row : Sqldb.Row) : M World Source :=
  let* c := lift (Sqldb.row_get "claim_id" row) in
  let* t := lift (Sqldb.row_get "title" row) in
  let* u := lift (Sqldb.row_get "url" row) in
  let* s := lift (Sqldb.row_get "site" row) in
  let* b := lift (Sqldb.row_get "body" row) in
  let* e := lift (Sqldb.row_get "entities" row) in
  let* p := lift (Sqldb.row_get "topic" row) in
  let* i := lift (Sqldb.row_get "id" row) in
  Source_init c t u s b e p i.

Fixpoint sources_of_rows (rows : list Sqldb.Row) : M World (list Source) :=
  match rows with
  | [] => ret []
  | row :: rest =>
      let* s := source_of_row row in
      let* ss := sources_of_rows rest in
      ret (s :: ss)
  end.

(** [Claim.get_sources] *)
Definition get_sources (self : Claim) : M World (list Source) :=
  emit Log.INFO "Claim" "Fetching sources for claim ID %s." [Log.AStr (id self)] ;;
  let* rows := fetch_all (Sqldb.Select "sources" (Some "claim_id")) [VStr (id self)] in
  let* sources := sources_of_rows rows in
  emit Log.INFO "Claim" "Found %d sources for claim ID %s."
       [Log.AInt (Z.of_nat (length sources)); Log.AStr (id self)] ;;
  ret sources.

Definition insert_source_sql : Sqldb.statement :=
  Sqldb.Insert "sources"
    ["id"; "claim_id"; "title"; "url"; "site"; "body"; "entities"; "topic"].

(** [Claim.add_sources]: the entities are bound as they are. *)
Definition add_sources (self : Claim) (sources_data : list SourceData) : M World unit :=
  emit Log.INFO "Claim" "Adding sources for claim ID %s." [Log.AStr (id self)] ;;
  create_table sources_table_sql ;;
  for_each sources_data (fun data =>
    let* u := uuid4_str in
    execute_query insert_source_sql
      [VStr u; VStr (id self); VStr (data_title data); VStr (data_url data);
       VStr (data_site data); VStr (data_body data); data_entities data;
       VStr (data_topic data)]) ;;
  export_csv "sources" ;;
  emit Log.INFO "Claim" "Sources for claim ID %s exported to CSV." [Log.AStr (id self)].

(** [Source.load_all] *)
Definition load_all : M World (list Source) :=
  let* rows := fetch_all (Sqldb.Select "sources" None) [] in
  sources_of_rows rows.

End Plain.

(** ** [Preprocessor/summarizer.py] *)

Module Summarizer.
Import Py Eff.
Local Open Scope py_scope.

(** [client.chat.completions.create(messages=[system, user], model=...,
    temperature=..., max_completion_tokens=..., stop=...)] *)
Record Request : Type := mkRequest {
  req_system : string;
  req_user : string;
  req_model : option string;
  req_temperature : Q;
  req_max_completion_tokens : Z;
  req_stop : option string
}.

(** A completion: [response.choices[k].message.content], which may be
    [None]. *)
Record Response : Type := mkResponse { choices : list (option string) }.

(** The remote service answers, or the call raises, as a function of the
    requests sent so far, the last one being the current one. *)
Record World : Type := mkWorld {
  api : list Request -> result Response;
  sent : list Request;
  log : list Log.record;
  slept : list Q
}.

(** The attributes [__init__] reads from the environment. *)
Record Summarizer : Type := mkSummarizer {
  model : option string;
  low_model : option string
}.

Definition emit (l : Log.level) (fmt : string) (args : list Log.arg) : M World unit :=
  fun w => (Ok tt, mkWorld (api w) (sent w)
                           (log w ++ [Log.mk l "Summarizer" fmt args]) (slept w)).

Definition create (req : Request) : M World Response :=
  fun w => (api w (sent w ++ [req]), mkWorld (api w) (sent w ++ [req]) (log w) (slept w)).

(** The clock of [time.sleep] counts nanoseconds in 64 bits, signed. *)
Definition nanoseconds : Q := 1000000000%Q.
Definition clock_limit : Q := 9223372036854775808%Q.

Definition fits_clock (t : Q) : bool :=
  Qle_bool (- clock_limit) (t * nanoseconds) && negb (Qle_bool clock_limit (t * nanoseconds)).

(** [time.sleep(t)]: a duration that does not fit the clock is an
    [OverflowError]; one that does and is negative is a [ValueError]. *)
Definition sleep (t : Q) : M World unit :=
  fun w => if negb (fits_clock t)
           then (Raise (mkExn "OverflowError" "timestamp too large to convert to C _PyTime_t"),
                 w)
           else if Qle_bool 0 t
           then (Ok tt, mkWorld (api w) (sent w) (log w) (slept w ++ [t]))
           else (Raise (mkExn "ValueError" "sleep length must be non-negative"), w).

(** [response.choices[0].message.content.strip()] *)
Definition first_content_stripped (r : Response) : result string :=
  match choices r with
  | [] => Raise (mkExn "IndexError" "list index out of range")
  | None :: _ => Raise (mkExn "AttributeError" "'NoneType' object has no attribute 'strip'")
  | Some c :: _ => Ok (strip c)
  end.

(** The two system instructions, their runs of white space shortened to one
    space. *)
Definition rephrase_instruction : string :=
  "You are an AI designed to rephrase a claim into a concise, specific, and highly searchable query. Focus on preserving all critical details such as names, dates, locations, or key terms, but avoid unnecessary words. Provide only the text without any additional formatting only add at the beginning !g".

Definition summary_instruction : string :=
  "You are a summarizer, be specific. Don't use lists or bullet points. Provide only the string without specifying that it is a summary. Translate in English.".

(** [Summarizer.claim_title_summarize] *)
Definition claim_title_summarize (self : Summarizer) (text : string)
    (max_tokens : Z) (temperature : Q) (stop : option string) : M World (option string) :=
  emit Log.INFO "Starting summarization process." [] ;;
  emit Log.INFO "Input text: %s..." [Log.AStr (take_chars 200 text)] ;;
  try_except
    (let* response := create (mkRequest rephrase_instruction text (model self)
                                         temperature max_tokens stop) in
     let* summary := lift (first_content_stripped response) in
     emit Log.INFO "Summarization completed successfully." [] ;;
     emit Log.INFO "Generated summary: %s..." [Log.AStr (take_chars 1000 summary)] ;;
     ret (Some summary))
    (fun e =>
     emit Log.ERROR "Error generating summary: %s" [Log.AExn e] ;;
     ret None).

(** [Summarizer.generate_summary] *)
Definition generate_summary (self : Summarizer) (text : string)
    (max_tokens : Z) (temperature : Q) (stop : option string) : M World string :=
  let* response := create (mkRequest summary_instruction text (low_model self)
                                      temperature max_tokens stop) in
  lift (first_content_stripped response).

(** The body of the loop of [summarize_texts], for the text at [index]. *)
Definition summarize_one (self : Summarizer) (total : nat) (max_tokens : Z)
    (temperature : Q) (stop : option string) (token_cut : Z) (sleep_temperature : Q)
    (index : nat) (text : string) (summaries : list (option string))
  : M World (list (option string)) :=
  let number := (Z.of_nat index + 1)%Z in
  emit Log.INFO "Summarizing text %d/%d..." [Log.AInt number; Log.AInt (Z.of_nat total)] ;;
  emit Log.DEBUG "Text %d content: %s" [Log.AInt number; Log.AStr (take_chars 200 text)] ;;
  let cutted_text := slice_to token_cut text in
  fun w =>
    match generate_summary self cutted_text max_tokens temperature stop w with
    | (Raise e, w1) =>
        (emit Log.ERROR "Error summarizing text %d: %s" [Log.AInt number; Log.AStr (exn_msg e)] ;;
         ret (summaries ++ [None])%list) w1
    | (Ok summary, w1) =>
        if truthy summary then
          let summaries1 := (summaries ++ [Some summary])%list in
          let sleep_time := Qmult (inject_Z (Z.of_nat (String.length cutted_text)))
                                  sleep_temperature in
          match (emit Log.INFO "Text %d summarized successfully." [Log.AInt number] ;;
                 emit Log.INFO "Sleep of %f seconds" [Log.AReal sleep_time] ;;
                 sleep sleep_time) w1 with
          | (Ok _, w2) => (Ok summaries1, w2)
          | (Raise e, w2) =>
              (emit Log.ERROR "Error summarizing text %d: %s"
                    [Log.AInt number; Log.AStr (exn_msg e)] ;;
               ret (summaries1 ++ [None])%list) w2
          end
        else
          (emit Log.WARNING "No summary returned for text %d." [Log.AInt number] ;;
           ret summaries) w1
    end.

Fixpoint summarize_loop (self : Summarizer) (total : nat) (max_tokens : Z)
    (temperature : Q) (stop : option string) (token_cut : Z) (sleep_temperature : Q)
    (index : nat) (texts : list string) (summaries : list (option string))
  : M World (list (option string)) :=
  match texts with
  | [] => ret summaries
  | text :: rest =>
      let* summaries1 := summarize_one self total max_tokens temperature stop token_cut
                                       sleep_temperature index text summaries in
      summarize_loop self total max_tokens temperature stop token_cut sleep_temperature
                     (S index) rest summaries1
  end.

(** [Summarizer.summarize_texts] *)
Definition summarize_texts (self : Summarizer) (texts : list string)
    (max_tokens : Z) (temperature : Q) (stop : option string)
    (token_cut : Z) (sleep_temperature : Q) : M World (list (option string)) :=
  emit Log.INFO "Starting batch summarization process for %d texts."
       [Log.AInt (Z.of_nat (length texts))] ;;
  let* summaries := summarize_loop self (length texts) max_tokens temperature stop
                                   token_cut sleep_temperature 0 texts [] in
  emit Log.INFO "Batch summarization process completed." [] ;;
  ret summaries.

(** The defaults of the keyword arguments. *)
Definition default_max_tokens : Z := 1024.
Definition default_temperature : Q := 5 # 10.
Definition default_token_cut : Z := 20000.
Definition default_sleep_temperature : Q := 3 # 10000.

End Summarizer.

(** ** [GraphRAG/graph_manager.py]: loading the graph *)

Module GraphManager.
Import Py Eff.
Local Open Scope py_scope.

(** What the manager asks of the graph engine. *)
Inductive Call : Type :=
| Query (cypher : string) (data : list value)   (* graph.query(q, params={"data": data}) *)
| RefreshSchema.                                (* graph.refresh_schema() *)

(** The engine completes a call, or the call raises, as a function of the
    calls made so far, the last one being the current one. *)
Record World : Type := mkWorld {
  engine : list Call -> result unit;
  calls : list Call;
  log : list Log.record
}.

Definition emit (l : Log.level) (fmt : string) (args : list Log.arg) : M World unit :=
  fun w => (Ok tt, mkWorld (engine w) (calls w) (log w ++ [Log.mk l "GraphManager" fmt args])).

Definition call (c : Call) : M World unit :=
  fun w => (engine w (calls w ++ [c]), mkWorld (engine w) (calls w ++ [c]) (log w)).

(** The Cypher text of [q_load_articles], without its two comment lines. *)
Definition q_load_articles : string :=
  "UNWIND $data AS article
   MERGE (a:Article {title: article.TITLE})
   SET a.url = article.URL,
       a.body = article.BODY
   MERGE (s:Site {name: article.SITE})
   MERGE (a)-[:PUBLISHED_ON]->(s)
   WITH a, article
   UNWIND article.ENTITY AS entity
   MERGE (e:Entity {name: entity})
   MERGE (a)-[:MENTIONS]->(e)
   WITH a, article, e
   UNWIND article.TOPIC AS topic
   MERGE (t:Topic {name: topic})
   MERGE (a)-[:HAS_TOPIC]->(t)".

(** [GraphManager.load_data]: the query is inside [try], the schema refresh
    after it. *)
Definition load_data (data : list value) : M World unit :=
  emit Log.INFO ("Avvio caricamento dati da " +:+ str (VList data) +:+ "...") [] ;;
  try_except
    (call (Query q_load_articles data) ;;
     emit Log.INFO "Caricamento completato in {elapsed_time:.2f} secondi." [Log.AClock])
    (fun e => emit Log.ERROR ("Errore durante il caricamento dati: " +:+ exn_msg e) []) ;;
  call RefreshSchema.

End GraphManager.

(** ** [GraphRAG/graph_manager.py]: the repulsion pass [avoid_overlap] *)

Module Layout.

(** The arithmetic of coordinates: [norm_lt dx dy t] is
    [np.linalg.norm([dx, dy]) < t], and [tenth] is the literal [0.1]. *)
Record Arith : Type := mkArith {
  num : Type;
  add : num -> num -> num;
  sub : num -> num -> num;
  norm_lt : num -> num -> num -> bool;
  tenth : num
}.

(** Python floats. *)
Definition binary64 : Arith :=
  mkArith float PrimFloat.add PrimFloat.sub
    (fun dx dy t => PrimFloat.ltb (PrimFloat.sqrt (dx * dx + dy * dy)) t)
    0x1.999999999999ap-4%float.

Section Pass.
Context (A : Arith).

Definition point : Type := (num A * num A)%type.

(** [[p[0] + 0.1, p[1] + 0.1]] and [[p[0] - 0.1, p[1] - 0.1]] *)
Definition nudge_up (p : point) : point := (add A (fst p) (tenth A), add A (snd p) (tenth A)).
Definition nudge_down (p : point) : point := (sub A (fst p) (tenth A), sub A (snd p) (tenth A)).

(** [np.linalg.norm(np.array(p) - np.array(q)) < threshold] *)
Definition too_close (threshold : num A) (p q : point) : bool :=
  norm_lt A (sub A (fst p) (fst q)) (sub A (snd p) (snd q)) threshold.

(** The layout: the [k]-th node of [list(G.nodes())] is known by its index
    [k], and [pos] is the list of the points of the nodes in that order.

    The inner [for j, node_j in enumerate(nodes)] for a fixed [i]: the
    layout after the first nudge, at which the loop breaks, or [None] when
    it runs to its end.  Both lookups succeed, [i] and [j] being indices of
    [pos]. *)
Fixpoint scan (threshold : num A) (i : nat) (js : list nat) (pos : list point)
  : option (list point) :=
  match js with
  | [] => None
  | j :: rest =>
      if (j <=? i)%nat then scan threshold i rest pos
      else match pos !! i, pos !! j with
           | Some p, Some q =>
               if too_close threshold p q
               then Some (<[j := nudge_down q]> (<[i := nudge_up p]> pos))
               else scan threshold i rest pos
           | _, _ => scan threshold i rest pos
           end
  end.

(** The outer [for i, node_i in enumerate(nodes)], with the flag [overlap]. *)
Fixpoint sweep_from (threshold : num A) (n : nat) (indices : list nat)
    (pos : list point) (overlap : bool) : list point * bool :=
  match indices with
  | [] => (pos, overlap)
  | i :: rest =>
      match scan threshold i (seq 0 n) pos with
      | Some pos' => sweep_from threshold n rest pos' true
      | None => sweep_from threshold n rest pos overlap
      end
  end.

(** One round of [while overlap]. *)
Definition sweep (threshold : num A) (pos : list point) : list point * bool :=
  sweep_from threshold (length pos) (seq 0 (length pos)) pos false.

(** [avoid_overlap], run for at most [fuel] rounds of the [while]: [None]
    when the loop has not ended by then. *)
Fixpoint avoid_overlap (fuel : nat) (threshold : num A) (pos : list point)
  : option (list point) :=
  match fuel with
  | O => None
  | S fuel' =>
      let (pos', overlap) := sweep threshold pos in
      if overlap then avoid_overlap fuel' threshold pos' else Some pos'
  end.

End Pass.

End Layout.

(** ** [GraphRAG/graph_manager.py]: the labels, the graph and the colours of
    a picture *)

Module Visualizer.
Import Py.

Definition newline : ascii := ascii_of_nat 10.
Definition space : ascii := ascii_of_nat 32.

(** [len(s)] *)
Definition len (s : string) : Z := Z.of_nat (String.length s).

(** The index of the last [c] in [s], when there is one. *)
Fixpoint rfind_char (c : ascii) (s : string) : option nat :=
  match s with
  | EmptyString => None
  | String d s' =>
      match rfind_char c s' with
      | Some k => Some (S k)
      | None => if Ascii.eqb c d then Some O else None
      end
  end.

(** [s.rfind(c)]: [-1] when [c] does not occur. *)
Definition rfind (c : ascii) (s : string) : Z :=
  match rfind_char c s with
  | Some k => Z.of_nat k
  | None => (-1)%Z
  end.

(** [split_label(label, max_len)].  Both branches of the inner [if] take the
    second line as [label[len(first_line):]]. *)
Definition split_label (label : string) (max_len : Z) : string :=
  if (len label <=? max_len)%Z then label
  else
    let first_line := slice_to max_len label in
    let first_line :=
      if (len first_line =? max_len)%Z
      then slice_to (rfind space first_line) first_line
      else first_line in
    let second_line := drop_chars (String.length first_line) label in
    let second_line :=
      if (max_len <? len second_line)%Z
      then slice_to max_len second_line +:+ "..."
      else second_line in
    first_line +:+ String newline second_line.

(** The width of a line of a label, [max_len = 15]. *)
Definition max_len : Z := 15.

(** A directed graph as [nx.DiGraph] keeps it: the nodes in the order they
    were added, each with its successors in the order they were added and
    the label of the edge to each. *)
Definition DiGraph : Type := list (string * list (string * string)).

Definition has_node (u : string) (g : DiGraph) : bool :=
  existsb (fun entry => String.eqb u (fst entry)) g.

Definition add_node (u : string) (g : DiGraph) : DiGraph :=
  if has_node u g then g else g ++ [(u, [])].

(** [d[k] = v] on a [dict] in insertion order: a key that is there keeps
    its place. *)
Fixpoint dict_set (k v : string) (d : list (string * string)) : list (string * string) :=
  match d with
  | [] => [(k, v)]
  | (k', v') :: rest =>
      if String.eqb k k' then (k', v) :: rest else (k', v') :: dict_set k v rest
  end.

Fixpoint put_edge (u v label : string) (g : DiGraph) : DiGraph :=
  match g with
  | [] => []
  | (n, succs) :: rest =>
      if String.eqb u n then (n, dict_set v label succs) :: rest
      else (n, succs) :: put_edge u v label rest
  end.

(** [G.add_edge(u, v, label=label)]: [u], then [v], is added when new. *)
Definition add_edge (u v label : string) (g : DiGraph) : DiGraph :=
  put_edge u v label (add_node v (add_node u g)).

(** [G.nodes()] *)
Definition nodes (g : DiGraph) : list string := map fst g.

(** [G.edges(data=True)]: by source in node order, then by successor. *)
Definition edges (g : DiGraph) : list (string * string * string) :=
  flat_map (fun entry => map (fun s => (fst entry, fst s, snd s)) (snd entry)) g.

(** The loop over [results.iterrows()], a row being the pair of its two
    columns. *)
Fixpoint build_graph (edge_label : string) (rows : list (string * string)) (g : DiGraph)
  : DiGraph :=
  match rows with
  | [] => g
  | (a, b) :: rest => build_graph edge_label rest (add_edge a b edge_label g)
  end.

(** [series.unique()]: the values in the order they first appear. *)
Fixpoint unique (l : list string) : list string :=
  match l with
  | [] => []
  | x :: rest => x :: List.filter (fun y => negb (String.eqb x y)) (unique rest)
  end.

(** [list(mcolors.TABLEAU_COLORS.values())] *)
Definition tableau_colors : list string :=
  ["#1f77b4"; "#ff7f0e"; "#2ca02c"; "#d62728"; "#9467bd";
   "#8c564b"; "#e377c2"; "#7f7f7f"; "#bcbd22"; "#17becf"].

Definition blue_light : string := "#add8e6".

(** [colors[i % len(colors)]] *)
Definition cycle_color (colors : list string) (i : nat) : result string :=
  match colors with
  | [] => Raise (mkExn "ZeroDivisionError" "integer modulo by zero")
  | _ :: _ =>
      match nth_error colors (i mod length colors) with
      | Some c => Ok c
      | None => Raise (mkExn "IndexError" "list index out of range")
      end
  end.

(** The loop that fills [color_map], from the index [i] on. *)
Fixpoint fill_color_map (colors : list string) (i : nat) (unique_nodes : list string)
    (color_map : list (string * string)) : result (list (string * string)) :=
  match unique_nodes with
  | [] => Ok color_map
  | node :: rest =>
      match cycle_color colors i with
      | Raise e => Raise e
      | Ok c => fill_color_map colors (S i) rest (dict_set node c color_map)
      end
  end.

(** The colours of the nodes: that of [color_map], the neutral one for a
    node that has none. *)
Definition node_colors (color_map : list (string * string)) (g : DiGraph) : list string :=
  map (fun node => match Sqldb.assoc node color_map with
                   | Some c => c
                   | None => blue_light
                   end) (nodes g).

(** The colour of an edge is [color_map[v]], that of its target. *)
Definition edge_color (color_map : list (string * string))
    (e : string * string * string) : result string :=
  match Sqldb.assoc (snd (fst e)) color_map with
  | Some c => Ok c
  | None => Raise (mkExn "KeyError" (repr_str (snd (fst e))))
  end.

(** What [create_and_save_graph] hands to the drawing calls. *)
Record Picture : Type := mkPicture {
  pic_graph : DiGraph;
  pic_node_colors : list string;
  pic_edge_colors : list string;
  pic_edge_labels : list (string * string * string);
  pic_labels : list (string * string)
}.

(** [create_and_save_graph], from the frame of the query to the layout
    call: the graph, the colours and the labels the drawing calls are given.
    The frame has the two columns of [node_relation], both of strings;
    [rows] are its rows, each as the pair of its values in them, and
    [colors] is the palette. *)
Definition create_and_save_graph (colors : list string) (edge_label : string)
    (rows : list (string * string)) : result Picture :=
  let g := build_graph edge_label rows [] in
  match fill_color_map colors 0 (unique (map snd rows)) [] with
  | Raise e => Raise e
  | Ok color_map =>
      match Eff.comprehension (edge_color color_map) (edges g) with
      | Raise e => Raise e
      | Ok edge_colors =>
          Ok (mkPicture g (node_colors color_map g) edge_colors (edges g)
                        (map (fun node => (node, split_label node max_len)) (nodes g)))
      end
  end.

End Visualizer.

(** ** [GraphRAG/graph_manager.py]: opening the connection *)

Module Connect.
Import Py Eff.
Local Open Scope py_scope.

(** [s.startswith(p)] *)
Fixpoint starts_with (p s : string) : bool :=
  match p, s with
  | EmptyString, _ => true
  | String _ _, EmptyString => false
  | String a p', String b s' => Ascii.eqb a b && starts_with p' s'
  end.

(** [s.replace(old, new)] for an [old] that is not empty: the occurrences of
    [old] are found from the left and do not overlap.  [skip] characters of
    an occurrence already replaced are still to be passed. *)
Fixpoint replace_from (skip : nat) (old new s : string) : string :=
  match s with
  | EmptyString => EmptyString
  | String c s' =>
      match skip with
      | S k => replace_from k old new s'
      | O => if starts_with old s
             then new +:+ replace_from (String.length old - 1) old new s'
             else String c (replace_from 0 old new s')
      end
  end.

Definition replace (old new s : string) : string := replace_from 0 old new s.

(** What [__init__] asks of the graph engine. *)
Inductive Call : Type :=
| Open (url username password : string)  (* Neo4jGraph(url=..., username=..., password=...) *)
| Probe (cypher : string).                (* graph.query(cypher) *)

(** [environ] is [os.environ] as [dotenv.load_dotenv(env_file, override=True)]
    leaves it.  The engine completes a call, or the call raises, as a
    function of the calls made so far, the last one being the current one. *)
Record World : Type := mkWorld {
  environ : gmap string string;
  engine : list Call -> result unit;
  calls : list Call;
  log : list Log.record
}.

(** The attributes [__init__] sets. *)
Record GraphManager : Type := mkGraphManager {
  neo4j_url : string;
  neo4j_username : string;
  neo4j_password : string
}.

Definition emit (l : Log.level) (fmt : string) (args : list Log.arg) : M World unit :=
  fun w => (Ok tt, mkWorld (environ w) (engine w) (calls w)
                           (log w ++ [Log.mk l "GraphManager" fmt args])).

Definition call (c : Call) : M World unit :=
  fun w => (engine w (calls w ++ [c]), mkWorld (environ w) (engine w) (calls w ++ [c]) (log w)).

(** [os.environ[name]] *)
Definition getenv (name : string) : M World string :=
  fun w => match environ w !! name with
           | Some v => (Ok v, w)
           | None => (Raise (mkExn "KeyError" (repr_str name)), w)
           end.

Definition connection_failed (e : Exn) : string :=
  "Errore durante la connessione a Neo4j: " +:+ exn_msg e.

(** [GraphManager.__init__]: the three variables are read and the graph is
    opened before the [try] statement, the probe is inside it. *)
Definition GraphManager_init : M World GraphManager :=
  let* uri := getenv "NEO4J_URI" in
  let url := replace "http" "bolt" uri in
  let* username := getenv "NEO4J_USERNAME" in
  let* password := getenv "NEO4J_PASSWORD" in
  call (Open url username password) ;;
  try_except
    (call (Probe "RETURN 1") ;;
     emit Log.INFO "Connessione a Neo4j stabilita con successo." [])
    (fun e =>
     emit Log.ERROR (connection_failed e) [] ;;
     raise (mkExn "ConnectionError" (connection_failed e))) ;;
  ret (mkGraphManager url username password).

End Connect.

(** * The vocabulary of the statements *)

Module StoreSpec.
Import Py Eff Sqldb Store Titled.

(** The table of [c] is absent, or has the columns and the key of [c]. *)
Definition has_schema (c : create_stmt) (ts : Tables) : Prop :=
  match ts !! ct_name c with
  | None => True
  | Some tb => columns tb = ct_columns c /\ pkey tb = ct_pkey c
  end.

(** The rows of a table, none when the table is absent. *)
Definition old_rows (t : string) (ts : Tables) : list Row :=
  match ts !! t with Some tb => rows tb | None => [] end.

(** No row of the table [t] holds [k] in its column [c]. *)
Definition key_free (t c k : string) (ts : Tables) : Prop :=
  existsb (matches c (SText k)) (old_rows t ts) = false.

(** The UUIDs the next [n] draws give. *)
Definition drawn_ids (w : World) (n : nat) : list string :=
  map (fun k => uuid_seed w (uuid_next w + k)) (seq 0 n).

(** The identifiers are distinct, and new to the column [c] of [t]. *)
Definition fresh_for (t c : string) (ids : list string) (ts : Tables) : Prop :=
  NoDup ids /\ Forall (fun u => key_free t c u ts) ids.

(** The row [Claim.save_to_db] writes. *)
Definition claim_row (c : Claim) : Row :=
  [("id", SText (id c)); ("text", SText (text c));
   ("title", SText (title c)); ("summary", SText (summary c))].

(** The row [add_sources] writes for [data] under the identifier [u]. *)
Definition source_row (self : Claim) (u : string) (data : SourceData) : Row :=
  [("id", SText u); ("claim_id", SText (id self)); ("title", SText (data_title data));
   ("url", SText (data_url data)); ("site", SText (data_site data));
   ("body", SText (data_body data)); ("topic", SText (data_topic data));
   ("entities", SText (str (data_entities data)))].

(** The dictionary [get_dict_sources] gives back for that row. *)
Definition stored (self : Claim) (u : string) (data : SourceData) : SourceDict :=
  mkSourceDict (VStr u) (VStr (id self)) (VStr (data_title data)) (VStr (data_url data))
               (VStr (data_site data)) (VStr (data_body data)) (VStr (data_topic data))
               (VStr (str (data_entities data))).

(** The body of the loop of [add_sources]. *)
Definition add_one (self : Claim) (data : SourceData) : M World unit :=
  (let* u := uuid4_str in
   execute_query insert_source_sql
      [VStr u; VStr (id self); VStr (data_title data); VStr (data_url data);
       VStr (data_site data); VStr (data_body data); VStr (data_topic data);
       VStr (str (data_entities data))])%py.

(** The sources a claim has in a store, as [get_dict_sources] reads them. *)
Definition sources_held (self : Claim) (ts : Tables) : result (list SourceDict) :=
  comprehension source_dict_of_row
    (List.filter (matches "claim_id" (SText (id self))) (old_rows "sources" ts)).

(** What the caller supplies of a record, and the same fields of a
    dictionary read back. *)
Definition data_fields (d : SourceData) : list value :=
  [VStr (data_title d); VStr (data_url d); VStr (data_site d); VStr (data_body d);
   VStr (data_topic d); data_entities d].

Definition dict_fields (r : SourceDict) : list value :=
  [sd_title r; sd_url r; sd_site r; sd_body r; sd_topic r; sd_entities r].

(** The supplied fields with the entities rendered by [str]. *)
Definition rendered_fields (d : SourceData) : list value :=
  [VStr (data_title d); VStr (data_url d); VStr (data_site d); VStr (data_body d);
   VStr (data_topic d); VStr (str (data_entities d))].

(** A table without the rows whose column [c] holds [k]. *)
Definition purge (c k : string) (tb : Table) : Table :=
  with_rows tb (List.filter (fun r => negb (matches c (SText k) r)) (rows tb)).

(** The store without what belongs to the claim [k]. *)
Definition cleared (k : string) (ts : Tables) : Tables :=
  alter (purge "claim_id" k) "answers"
    (alter (purge "claim_id" k) "sources" (alter (purge "id" k) "claims" ts)).

(** The table [t] is there and has the column [c]. *)
Definition has_table (t c : string) (ts : Tables) : Prop :=
  exists tb, ts !! t = Some tb /\ has_column c (columns tb) = true.

(** The three tables [clear_database] deletes from are there. *)
Definition clearable (ts : Tables) : Prop :=
  has_table "claims" "id" ts /\ has_table "sources" "claim_id" ts
  /\ has_table "answers" "claim_id" ts.

End StoreSpec.

Module PlainSpec.
Import Py Eff Sqldb Store Plain StoreSpec.

(** What a bound parameter reads back as. *)
Definition read_back (v : sqlval) : value :=
  match v with SNull => VNone | SText s => VStr s end.

(** The row the plain [add_sources] writes for [data] under [u], its
    entities being bound as [e]. *)
Definition plain_row (self : Claim) (u : string) (data : SourceData) (e : sqlval) : Row :=
  [("id", SText u); ("claim_id", SText (id self)); ("title", SText (data_title data));
   ("url", SText (data_url data)); ("site", SText (data_site data));
   ("body", SText (data_body data)); ("entities", e);
   ("topic", SText (data_topic data))].

(** The [Source] the plain [get_sources] builds for the record [data] kept
    under [u]. *)
Definition plain_stored (self : Claim) (u : string) (data : SourceData) : Source :=
  mkSource (VStr u) (VStr (id self)) (VStr (data_title data)) (VStr (data_url data))
           (VStr (data_site data)) (VStr (data_body data)) (data_entities data)
           (VStr (data_topic data)).

(** The body of the loop of the plain [add_sources]. *)
Definition plain_add_one (self : Claim) (data : SourceData) : M World unit :=
  (let* u := uuid4_str in
   execute_query insert_source_sql
      [VStr u; VStr (id self); VStr (data_title data); VStr (data_url data);
       VStr (data_site data); VStr (data_body data); data_entities data;
       VStr (data_topic data)])%py.

(** The entities can be bound: they are [None] or a string. *)
Definition bindable (data : SourceData) : Prop :=
  data_entities data = VNone \/ exists e, data_entities data = VStr e.

End PlainSpec.

Module SummarizerSpec.
Import Py Summarizer.

(** What one remote call comes to: a call that raises is a failure with
    the exception raised; a response without a first completion, or whose
    first completion has no content, is a failure too, with the exception
    Python raises for the missing item or attribute; any other response
    comes to the content of its first completion, stripped. *)
Definition completion (r : result Response) : result string :=
  match r with
  | Raise e => Raise e
  | Ok response =>
      match choices response with
      | [] => Raise (mkExn "IndexError" "list index out of range")
      | None :: _ =>
          Raise (mkExn "AttributeError" "'NoneType' object has no attribute 'strip'")
      | Some content :: _ => Ok (strip content)
      end
  end.

(** The request [claim_title_summarize] sends. *)
Definition rephrase_request (self : Summarizer) (text : string)
    (max_tokens : Z) (temperature : Q) (stop : option string) : Request :=
  mkRequest rephrase_instruction text (model self) temperature max_tokens stop.

(** The request [generate_summary] sends. *)
Definition summary_request (self : Summarizer) (text : string)
    (max_tokens : Z) (temperature : Q) (stop : option string) : Request :=
  mkRequest summary_instruction text (low_model self) temperature max_tokens stop.

(** The entries one input adds to the list of [summarize_texts]. *)
Definition entries (o : result string) : list (option string) :=
  match o with
  | Ok s => if truthy s then [Some s] else []
  | Raise _ => [None]
  end.

(** The outcomes of sending [reqs] one after the other. *)
Fixpoint outcomes (api : list Request -> result Response) (sent reqs : list Request)
  : list (result string) :=
  match reqs with
  | [] => []
  | r :: rest => completion (api (sent ++ [r])) :: outcomes api (sent ++ [r]) rest
  end.

(** The call succeeded and its stripped completion is empty. *)
Definition blank (o : result string) : bool :=
  match o with Ok s => negb (truthy s) | Raise _ => false end.

End SummarizerSpec.

Module LayoutSpec.
Import Layout.

(** A nudge of the loop body: nodes [i < j] too close, [i] pushed up and [j]
    pushed down. *)
Definition nudged (A : Arith) (threshold : num A) (pos pos' : list (point A)) : Prop :=
  exists i j p q,
    (i < j)%nat /\ pos !! i = Some p /\ pos !! j = Some q
    /\ too_close A threshold p q = true
    /\ pos' = <[j := nudge_down A q]> (<[i := nudge_up A p]> pos).

(** No two nodes are too close. *)
Definition settled (A : Arith) (threshold : num A) (pos : list (point A)) : Prop :=
  forall i j p q,
    (i < j)%nat -> pos !! i = Some p -> pos !! j = Some q ->
    too_close A threshold p q = false.

End LayoutSpec.

(** Concrete worlds and inputs. *)
Module Samples.
Import Py.

(** An empty database, whose [n]-th UUID reads [uuid-n]. *)
Definition fresh_world : Store.World :=
  Store.mkWorld ∅ [] [] (fun n => "uuid-" +:+ pretty n) 0.

Definition round_earth : Titled.Claim :=
  Titled.mkClaim "c1" "The earth is round" "The Earth Is Round" "...".

(** The world after [Claim("The earth is round", "IDThe Earth Is Round",
    "...", claim_id="c1")] on the empty database. *)
Definition claimed_world : Store.World :=
  snd (Titled.Claim_init "The earth is round" "IDThe Earth Is Round" "..." (Some "c1")
                         fresh_world).

Definition one_source : Titled.SourceData :=
  Titled.mkSourceData "Globe" "http://a" "a" "body" "science" (VList [VStr "Earth"]).

(** The world after a source and an answer were added to that claim. *)
Definition answered_world : Store.World :=
  snd (Titled.Answer_init "c1" "True" "graphs/c1" None
         (snd (Titled.add_sources round_earth [one_source] claimed_world))).

Definition plain_claim : Plain.Claim := Plain.mkClaim "c1" "The earth is round".

Definition plain_source : Plain.SourceData :=
  Plain.mkSourceData "Globe" "http://a" "a" "body" (VStr "Earth") "science".

Definition summarizer : Summarizer.Summarizer :=
  Summarizer.mkSummarizer (Some "large") (Some "small").

(** A service that answers every request with white space only. *)
Definition blank_service : Summarizer.World :=
  Summarizer.mkWorld (fun _ => Ok (Summarizer.mkResponse [Some "   "])) [] [] [].

(** A service that is down. *)
Definition dead_service : Summarizer.World :=
  Summarizer.mkWorld (fun _ => Raise (mkExn "APIConnectionError" "Connection error."))
                     [] [] [].

Definition article : value :=
  VDict [("TITLE", VStr "Globe"); ("URL", VStr "http://a"); ("BODY", VStr "body");
         ("SITE", VStr "a"); ("ENTITY", VList [VStr "Earth"]);
         ("TOPIC", VList [VStr "science"])].

Definition unavailable : Exn :=
  mkExn "ServiceUnavailable" "Unable to retrieve routing information".

(** A graph engine that is down, and one that fails the first call only. *)
Definition engine_down : GraphManager.World :=
  GraphManager.mkWorld (fun _ => Raise unavailable) [] [].

Definition engine_hiccup : GraphManager.World :=
  GraphManager.mkWorld (fun cs => match cs with [_] => Raise unavailable | _ => Ok tt end)
                       [] [].

End Samples.

Module LabelSpec.
Import Py Visualizer.

(** Where a label longer than [max_len] is split: before the last space
    among its first [max_len] characters, or one character short of
    [max_len] when there is none. *)
Definition split_point (label : string) (max_len : Z) : nat :=
  match rfind_char space (take_chars (Z.to_nat max_len) label) with
  | Some k => k
  | None => Z.to_nat max_len - 1
  end.

(** What is shown of the rest of a label on the second line. *)
Definition shown (rest : string) (max_len : Z) : string :=
  if (max_len <? len rest)%Z then take_chars (Z.to_nat max_len) rest +:+ "..." else rest.

End LabelSpec.

Module PictureSpec.
Import Py Visualizer.

(** The colour [color_map] gives a node, the neutral one when it gives
    none. *)
Definition colour_of (color_map : list (string * string)) (node : string) : string :=
  match Sqldb.assoc node color_map with
  | Some c => c
  | None => blue_light
  end.

End PictureSpec.

Module GraphSpec.
Import Py Visualizer.

(** A graph as the loop keeps it: no node twice, no successor twice under
    one node, and every edge labelled [label]. *)
Definition tidy (label : string) (g : DiGraph) : Prop :=
  List.NoDup (nodes g)
  /\ (forall entry, In entry g -> List.NoDup (map fst (snd entry)))
  /\ (forall e, In e (edges g) -> snd e = label).

End GraphSpec.

Module PacingSpec.
Import Py Summarizer SummarizerSpec.

(** [len(cutted_text) * sleep_temperature] for one text. *)
Definition pause (token_cut : Z) (sleep_temperature : Q) (text : string) : Q :=
  Qmult (inject_Z (Z.of_nat (String.length (slice_to token_cut text)))) sleep_temperature.

(** The call gave a summary that is not empty. *)
Definition kept (o : result string) : bool :=
  match o with Ok s => truthy s | Raise _ => false end.

(** [time.sleep] takes the duration: it fits the clock and is not
    negative. *)
Definition accepted (t : Q) : bool := fits_clock t && Qle_bool 0 t.

(** A duration that fits the clock with room to spare, nine thousand
    million seconds: a pause up to it is taken also when the product that
    gives it is rounded. *)
Definition longest_sleep : Q := 9000000000%Q.

(** No text gives a pause above [longest_sleep]. *)
Definition short_pauses (token_cut : Z) (sleep_temperature : Q) (texts : list string)
  : Prop :=
  List.Forall (fun t => (pause token_cut sleep_temperature t <= longest_sleep)%Q) texts.

(** What one text adds to the list, its pause being accepted by
    [time.sleep] or not. *)
Definition paced_entries (token_cut : Z) (sleep_temperature : Q)
    (text : string) (o : result string) : list (option string) :=
  match o with
  | Ok s => if truthy s
            then if accepted (pause token_cut sleep_temperature text)
                 then [Some s] else [Some s; None]
            else []
  | Raise _ => [None]
  end.

(** The pause one text adds to the pauses made. *)
Definition paced_pause (token_cut : Z) (sleep_temperature : Q)
    (text : string) (o : result string) : list Q :=
  if kept o && accepted (pause token_cut sleep_temperature text)
  then [pause token_cut sleep_temperature text] else [].

Fixpoint zip_with_outcomes {A} (f : string -> result string -> list A)
    (texts : list string) (os : list (result string)) : list A :=
  match texts, os with
  | t :: ts, o :: os' => f t o ++ zip_with_outcomes f ts os'
  | _, _ => []
  end.

(** The entries of a list that are summaries. *)
Definition is_summary (entry : option string) : bool :=
  match entry with Some _ => true | None => false end.

(** What one text adds to the list when [time.sleep] refuses its pause. *)
Definition refused_entries (o : result string) : list (option string) :=
  match o with
  | Ok s => if truthy s then [Some s; None] else []
  | Raise _ => [None]
  end.

End PacingSpec.

Module AnswerSpec.
Import Py Eff Sqldb Store Titled StoreSpec.

(** The identifier [choose_id] settles on: the one given when it is not
    empty, the next UUID otherwise. *)
Definition chosen_id (given : option string) (w : World) : string :=
  match given with
  | Some s => if truthy s then s else uuid_seed w (uuid_next w)
  | None => uuid_seed w (uuid_next w)
  end.

(** The row [Answer.save_to_db] writes. *)
Definition answer_row (a : Answer) : Row :=
  [("id", SText (answer_id a)); ("claim_id", SText (answer_claim_id a));
   ("answer", SText (answer a)); ("graphs_folder", SText (graphs_folder a))].

(** The claim [k] has a row in the answers table. *)
Definition answered (k : string) (ts : Tables) : bool :=
  existsb (matches "claim_id" (SText k)) (old_rows "answers" ts).

(** The rows of [t] whose column [c] holds [k]. *)
Definition rows_of (t c k : string) (ts : Tables) : list Row :=
  List.filter (matches c (SText k)) (old_rows t ts).

End AnswerSpec.

Module BatchSpec.
Import Py Eff Sqldb Store Plain StoreSpec PlainSpec.

(** Entities the driver cannot bind: a list or a dict. *)
Definition refused (v : value) : bool :=
  match v with
  | VList _ | VDict _ => true
  | VNone | VStr _ => false
  end.

(** The row [Claim.save_to_db] writes in the plain variant. *)
Definition plain_claim_row (c : Claim) : Row :=
  [("id", SText (id c)); ("text", SText (text c))].

End BatchSpec.

Module ReadSpec.
Import Py Eff Sqldb Store Plain StoreSpec PlainSpec.

(** [row[c]] of a row that has the column. *)
Definition read (c : string) (r : Row) : value := read_back (cell c r).

(** The [Source] built from a row. *)
Definition source_of (r : Row) : Source :=
  mkSource (read "id" r) (read "claim_id" r) (read "title" r) (read "url" r)
           (read "site" r) (read "body" r) (read "entities" r) (read "topic" r).

(** The row has the eight columns of the sources table, and an identifier
    that is a string and not empty. *)
Definition complete (r : Row) : bool :=
  forallb (fun c => match assoc c r with Some _ => true | None => false end)
          (ct_columns sources_table_sql)
  && match cell "id" r with SText i => truthy i | SNull => false end.

(** [source.claim_id == k] *)
Definition belongs_to (k : string) (s : Source) : bool :=
  match source_claim_id s with
  | VStr c => String.eqb c k
  | _ => false
  end.

End ReadSpec.

Module ConnectSpec.
Import Py Connect.

(** The first of the three variables that the environment lacks. *)
Definition first_missing (env : gmap string string) : option string :=
  List.find (fun name => match env !! name with Some _ => false | None => true end)
            ["NEO4J_URI"; "NEO4J_USERNAME"; "NEO4J_PASSWORD"].

(** The call that opens the graph, when the three variables are set. *)
Definition opening (env : gmap string string) : option Call :=
  match env !! "NEO4J_URI", env !! "NEO4J_USERNAME", env !! "NEO4J_PASSWORD" with
  | Some uri, Some username, Some password =>
      Some (Open (replace "http" "bolt" uri) username password)
  | _, _, _ => None
  end.

End ConnectSpec.

(** More worlds and inputs. *)
Module MoreSamples.
Import Py Samples.

(** A service that answers every request with the same summary. *)
Definition steady_service : Summarizer.World :=
  Summarizer.mkWorld (fun _ => Ok (Summarizer.mkResponse [Some " A summary. "])) [] [] [].

(** A second claim, which shares the store of the first and has a source. *)
Definition flat_earth : Titled.Claim :=
  Titled.mkClaim "c2" "The earth is flat" "The Earth Is Flat" "...".

Definition shared_world : Store.World :=
  snd (Titled.add_sources flat_earth [one_source]
         (snd (Titled.Claim_init "The earth is flat" "IDThe Earth Is Flat" "..." (Some "c2")
                                 answered_world))).

Definition local_env : gmap string string :=
  <["NEO4J_URI" := "http://localhost:7687"]>
    (<["NEO4J_USERNAME" := "neo4j"]> (<["NEO4J_PASSWORD" := "secret"]> ∅)).

(** An engine that opens the graph and fails every query. *)
Definition mute_engine : Connect.World :=
  Connect.mkWorld local_env
    (fun cs => match last cs with
               | Some (Connect.Probe _) => Raise (mkExn "ServiceUnavailable" "no route")
               | _ => Ok tt
               end) [] [].

End MoreSamples.

(** * Properties *)

(** ** Running a method step by step *)

Module EffFacts.
Import Py Eff.

Lemma bind_ok {S A B} (m : M S A) (k : A -> M S B) w a w' :
  m w = (Ok a, w') -> bind m k w = k a w'.
Proof. intros H. unfold bind. rewrite H. reflexivity. Qed.

Lemma bind_raise {S A B} (m : M S A) (k : A -> M S B) w e w' :
  m w = (Raise e, w') -> bind m k w = (Raise e, w').
Proof. intros H. unfold bind. rewrite H. reflexivity. Qed.

Lemma try_except_ok {S A} (m : M S A) h w a w' :
  m w = (Ok a, w') -> try_except m h w = (Ok a, w').
Proof. intros H. unfold try_except. rewrite H. reflexivity. Qed.

Lemma try_except_raise {S A} (m : M S A) h w e w' :
  m w = (Raise e, w') -> try_except m h w = h e w'.
Proof. intros H. unfold try_except. rewrite H. reflexivity. Qed.

Lemma comprehension_app {A B} (f : A -> result B) l1 l2 r1 r2 :
  comprehension f l1 = Ok r1 -> comprehension f l2 = Ok r2 ->
  comprehension f (l1 ++ l2) = Ok (r1 ++ r2).
Proof.
  revert r1. induction l1 as [|x l1 IH]; intros r1 H1 H2; simpl in *.
  - injection H1 as <-. exact H2.
  - destruct (f x) as [b|e]; [|discriminate].
    destruct (comprehension f l1) as [bs|e]; [|discriminate].
    injection H1 as <-. rewrite (IH bs eq_refl H2). reflexivity.
Qed.

Lemma comprehension_Forall {A B} (f : A -> result B) (P : A -> Prop) (Q : B -> Prop) l r :
  (forall a b, P a -> f a = Ok b -> Q b) ->
  Forall P l -> comprehension f l = Ok r -> Forall Q r.
Proof.
  intros HPQ. revert r. induction l as [|x l IH]; intros r HP H; simpl in H.
  - injection H as <-. constructor.
  - apply Forall_cons in HP as [Hx HP].
    destruct (f x) as [b|] eqn:Hb; [|discriminate].
    destruct (comprehension f l) as [bs|]; [|discriminate].
    injection H as <-. constructor; eauto.
Qed.

End EffFacts.

(** ** The store *)

Module StoreFacts.
Import Py Eff Sqldb Store EffFacts StoreSpec.

Lemma filter_none {A} (f : A -> bool) l : existsb f l = false -> List.filter f l = [].
Proof.
  induction l as [|x l IH]; simpl; [reflexivity|].
  destruct (f x); simpl; [discriminate | exact IH].
Qed.

Lemma existsb_app_false {A} (f : A -> bool) l x :
  existsb f l = false -> f x = false -> existsb f (l ++ [x]) = false.
Proof. intros H1 H2. rewrite existsb_app, H1. simpl. rewrite H2. reflexivity. Qed.

(** [CREATE TABLE IF NOT EXISTS] leaves a table of the schema asked for,
    with the rows it had. *)
Lemma db_create_lookup c ts :
  has_schema c ts ->
  exists tb, db_create c ts !! ct_name c = Some tb
    /\ columns tb = ct_columns c /\ pkey tb = ct_pkey c
    /\ rows tb = old_rows (ct_name c) ts.
Proof.
  unfold has_schema, db_create, old_rows. destruct (ts !! ct_name c) as [tb|] eqn:E.
  - intros [Hc Hp]. exists tb. rewrite E. auto.
  - intros _. eexists. rewrite lookup_insert_eq. split; [reflexivity|]. simpl. auto.
Qed.

Lemma execute_query_ok q params w ts :
  db_execute q params (tables w) = (Ok tt, ts) ->
  execute_query q params w = (Ok tt, set_tables ts w).
Proof. intros H. unfold execute_query. rewrite H. reflexivity. Qed.

Lemma execute_query_raise q params w e ts :
  db_execute q params (tables w) = (Raise e, ts) ->
  exists w', execute_query q params w = (Raise e, w').
Proof. intros H. unfold execute_query. rewrite H. eexists. reflexivity. Qed.

Lemma insert_as_alter (f : Table -> Table) t tb (ts : Tables) :
  ts !! t = Some tb -> <[t := f tb]> ts = alter f t ts.
Proof.
  intros H. apply map_eq. intros j. destruct (decide (t = j)) as [->|Hne].
  - rewrite lookup_insert_eq, lookup_alter_eq, H. reflexivity.
  - rewrite lookup_insert_ne, lookup_alter_ne by exact Hne. reflexivity.
Qed.

Lemma db_delete_ok t c k (ts : Tables) :
  has_table t c ts ->
  db_execute (Delete t c) [VStr k] ts = (Ok tt, alter (purge c k) t ts).
Proof.
  intros (tb & Ht & Hc). unfold db_execute. rewrite Ht, Hc. simpl.
  rewrite <- (insert_as_alter (purge c k) t tb ts Ht). reflexivity.
Qed.

Lemma db_delete_missing t c params (ts : Tables) :
  ts !! t = None -> db_execute (Delete t c) params ts = (Raise (no_such_table t), ts).
Proof. intros H. unfold db_execute. rewrite H. reflexivity. Qed.

End StoreFacts.

(** ** Creating a claim *)

Module ClaimFacts.
Import Py Eff Sqldb Store Titled EffFacts StoreSpec StoreFacts Samples.

Lemma drop_chars_length n s : String.length (drop_chars n s) = String.length s - n.
Proof.
  revert s. induction n as [|n IH]; intros s; simpl.
  - lia.
  - destruct s; simpl; [reflexivity | apply IH].
Qed.

Lemma save_to_db_ok (self : Claim) w :
  has_schema claims_table_sql (tables w) ->
  key_free "claims" "id" (id self) (tables w) ->
  exists w' tb,
    save_to_db self w = (Ok tt, w')
    /\ tables w' !! "claims" = Some tb
    /\ columns tb = ct_columns claims_table_sql
    /\ rows tb = old_rows "claims" (tables w) ++ [claim_row self].
Proof.
  intros Hs Hk.
  destruct (db_create_lookup _ _ Hs) as (tb & Htb & Hc & Hp & Hr). simpl in Htb, Hc, Hp, Hr.
  assert (Hfree : pkey_taken tb (claim_row self) = false).
  { unfold pkey_taken. rewrite Hp, Hr. exact Hk. }
  unfold save_to_db, bind, emit, create_table, execute_query. simpl.
  rewrite Htb, Hc. simpl. unfold claim_row in Hfree. rewrite Hfree. simpl.
  eexists _, _. split; [reflexivity|]. simpl. rewrite lookup_insert_eq.
  split; [reflexivity|]. simpl. split; [exact Hc|]. rewrite Hr. reflexivity.
Qed.

Lemma choose_id_tables given w :
  tables (snd (choose_id given w)) = tables w /\ is_ok (fst (choose_id given w)) = true.
Proof.
  unfold choose_id, uuid4_str, ret. destruct given as [s|]; [destruct (truthy s)|]; auto.
Qed.

(** C1, as amended: for every text, title of length at least 2 and summary,
    on a store whose claims table is absent or has the schema of
    [save_to_db] and holds no claim under the identifier chosen,
    constructing a [Claim] succeeds; the identifier is the next UUID when no
    [claim_id] or an empty one is given and the supplied string when it is
    not empty; the title kept and written is the supplied title without its
    first two characters; and reading the claims table by that identifier
    gives exactly the row (id, text, truncated title, summary). *)
Theorem claim_init_persists_truncated_title
    (w : World) (text title summary : string) (claim_id : option string) :
  2 <= String.length title ->
  has_schema claims_table_sql (tables w) ->
  (forall i, fst (choose_id claim_id w) = Ok i -> key_free "claims" "id" i (tables w)) ->
  exists c w',
    Claim_init text title summary claim_id w = (Ok c, w')
    /\ (claim_id = None \/ claim_id = Some "" -> id c = uuid_seed w (uuid_next w))
    /\ (forall s, claim_id = Some s -> s <> "" -> id c = s)
    /\ Titled.text c = text /\ Titled.summary c = summary
    /\ Titled.title c = drop_chars 2 title
    /\ String.length (Titled.title c) = String.length title - 2
    /\ fst (fetch_all (Select "claims" (Some "id")) [VStr (id c)] w')
       = Ok [[("id", SText (id c)); ("text", SText text);
              ("title", SText (drop_chars 2 title)); ("summary", SText summary)]].
Proof.
  intros Hlen Hs Hfree.
  destruct (choose_id claim_id w) as [[i|e] w1] eqn:Hch.
  2:{ pose proof (choose_id_tables claim_id w) as [_ H]. rewrite Hch in H. discriminate. }
  pose proof (choose_id_tables claim_id w) as [Ht _]. rewrite Hch in Ht. simpl in Ht.
  specialize (Hfree i eq_refl).
  set (c := mkClaim i text (drop_chars 2 title) summary).
  set (w2 := snd (emit Log.INFO "Claim" "Creating claim with ID: %s" [Log.AStr i] w1)).
  destruct (save_to_db_ok c w2) as (w' & tb & Hsave & Htb & Hcols & Hrows).
  { simpl. rewrite Ht. exact Hs. }
  { unfold key_free, old_rows in *. simpl. rewrite Ht. exact Hfree. }
  exists c, w'. split.
  { unfold Claim_init. erewrite bind_ok by exact Hch.
    erewrite bind_ok by reflexivity. fold c. fold w2 in Hsave.
    erewrite bind_ok by exact Hsave. reflexivity. }
  split.
  { intros [-> | ->]; simpl in Hch; unfold uuid4_str in Hch; injection Hch as <- _;
      reflexivity. }
  split.
  { intros s -> Hne. simpl in Hch. destruct s; [congruence|]. simpl in Hch.
    unfold ret in Hch. injection Hch as <- _. reflexivity. }
  split; [reflexivity|]. split; [reflexivity|]. split; [reflexivity|].
  split; [exact (drop_chars_length 2 title)|].
  unfold fetch_all, db_fetch. rewrite Htb, Hcols. simpl. rewrite Hrows, List.filter_app.
  rewrite filter_none.
  2:{ unfold key_free, old_rows in *. simpl. rewrite Ht. exact Hfree. }
  simpl. unfold matches. simpl. rewrite String.eqb_refl. reflexivity.
Qed.

(** The example of the spec, on an empty database. *)
Lemma claim_init_persists_truncated_title_witness :
  exists c w',
    Claim_init "The earth is round" "IDThe Earth Is Round" "..." None fresh_world = (Ok c, w')
    /\ id c = "uuid-0"
    /\ Titled.title c = "The Earth Is Round"
    /\ fst (fetch_all (Select "claims" (Some "id")) [VStr (id c)] w')
       = Ok [[("id", SText (id c)); ("text", SText "The earth is round");
              ("title", SText "The Earth Is Round"); ("summary", SText "...")]].
Proof.
  destruct (claim_init_persists_truncated_title fresh_world "The earth is round"
              "IDThe Earth Is Round" "..." None)
    as (c & w' & Hrun & Hid & _ & _ & _ & Htitle & _ & Hread).
  - simpl. lia.
  - exact I.
  - intros i _. reflexivity.
  - exists c, w'. split; [exact Hrun|]. split; [exact (Hid (or_introl eq_refl))|].
    split; [exact Htitle | exact Hread].
Defined.

(** C1, as the spec states it, fails when the identifier supplied is the
    empty string: the claim is stored under a fresh UUID, not under the
    identifier supplied. *)
Lemma claim_init_replaces_empty_id :
  exists c,
    fst (Claim_init "The earth is round" "IDThe Earth Is Round" "..." (Some "") fresh_world)
    = Ok c
    /\ id c = "uuid-0" /\ id c <> "".
Proof. eexists. split; [reflexivity|]. split; [reflexivity | discriminate]. Qed.

End ClaimFacts.

(** ** Adding sources and reading them back *)

Module SourcesFacts.
Import Py Eff Sqldb Store Titled EffFacts StoreSpec StoreFacts Samples.

Lemma drawn_ids_S w n :
  drawn_ids w (S n)
  = uuid_seed w (uuid_next w)
    :: map (fun k => uuid_seed w (S (uuid_next w) + k)) (seq 0 n).
Proof.
  unfold drawn_ids. simpl. rewrite Nat.add_0_r. f_equal.
  rewrite <- seq_shift, map_map. apply map_ext. intros k. f_equal. lia.
Qed.

Lemma drawn_ids_length w n : length (drawn_ids w n) = n.
Proof. unfold drawn_ids. rewrite length_map, length_seq. reflexivity. Qed.

(** One round of the loop: a UUID is drawn and the row is appended. *)
Lemma add_one_ok self data w tb :
  tables w !! "sources" = Some tb ->
  columns tb = ct_columns sources_table_sql ->
  pkey tb = "id" ->
  existsb (matches "id" (SText (uuid_seed w (uuid_next w)))) (rows tb) = false ->
  exists w',
    add_one self data w = (Ok tt, w')
    /\ tables w' = <["sources" := with_rows tb (rows tb ++
                        [source_row self (uuid_seed w (uuid_next w)) data])]> (tables w)
    /\ uuid_seed w' = uuid_seed w /\ uuid_next w' = S (uuid_next w).
Proof.
  intros Ht Hc Hp Hfree.
  unfold add_one, bind, uuid4_str, execute_query, insert_source_sql. simpl.
  rewrite Ht, Hc. simpl.
  unfold pkey_taken. rewrite Hp. simpl.
  change (cell "id" _) with (SText (uuid_seed w (uuid_next w))).
  rewrite Hfree. simpl. eexists. split; [reflexivity|]. simpl. auto.
Qed.

(** The whole loop, by induction on the batch. *)
Lemma add_loop_ok self batch : forall w tb,
  tables w !! "sources" = Some tb ->
  columns tb = ct_columns sources_table_sql ->
  pkey tb = "id" ->
  NoDup (drawn_ids w (length batch)) ->
  Forall (fun u => existsb (matches "id" (SText u)) (rows tb) = false)
         (drawn_ids w (length batch)) ->
  exists w',
    for_each batch (add_one self) w = (Ok tt, w')
    /\ tables w' = <["sources" := with_rows tb (rows tb ++
                        zip_with (source_row self) (drawn_ids w (length batch)) batch)]>
                   (tables w)
    /\ uuid_seed w' = uuid_seed w.
Proof.
  induction batch as [|data batch IH]; intros w tb Ht Hc Hp Hnd Hfree.
  - exists w. split; [reflexivity|]. split; [|reflexivity]. simpl.
    rewrite app_nil_r. symmetry. apply insert_id. rewrite Ht. destruct tb; reflexivity.
  - simpl length in *. rewrite drawn_ids_S in *.
    apply NoDup_cons in Hnd as [Hnotin Hnd]. apply Forall_cons in Hfree as [Hf1 Hfree].
    destruct (add_one_ok self data w tb Ht Hc Hp Hf1) as (w1 & Hrun & Htab & Hseed & Hnext).
    set (u := uuid_seed w (uuid_next w)) in *.
    set (tb1 := with_rows tb (rows tb ++ [source_row self u data])) in *.
    assert (Hids : drawn_ids w1 (length batch)
                   = map (fun k => uuid_seed w (S (uuid_next w) + k)) (seq 0 (length batch))).
    { unfold drawn_ids. rewrite Hseed, Hnext. reflexivity. }
    destruct (IH w1 tb1) as (w' & Hrun' & Htab' & Hseed').
    + rewrite Htab. apply lookup_insert_eq.
    + exact Hc.
    + exact Hp.
    + rewrite Hids. exact Hnd.
    + rewrite Hids. apply Forall_forall. intros v Hv. simpl.
      apply existsb_app_false.
      * rewrite Forall_forall in Hfree. apply Hfree. exact Hv.
      * unfold matches. simpl. apply String.eqb_neq. intros ->. apply Hnotin. exact Hv.
    + exists w'. split.
      * simpl. erewrite bind_ok by exact Hrun. exact Hrun'.
      * split; [|congruence]. rewrite Htab', Htab, insert_insert_eq. f_equal.
        unfold tb1. unfold with_rows. simpl. f_equal. rewrite <- app_assoc. simpl.
        rewrite Hids. reflexivity.
Qed.

Lemma new_rows_match self ids batch :
  List.filter (matches "claim_id" (SText (id self))) (zip_with (source_row self) ids batch)
  = zip_with (source_row self) ids batch.
Proof.
  revert batch. induction ids as [|u ids IH]; intros [|d batch]; simpl; try reflexivity.
  unfold matches at 1. simpl. rewrite String.eqb_refl. f_equal. apply IH.
Qed.

Lemma new_rows_read self ids batch :
  comprehension source_dict_of_row (zip_with (source_row self) ids batch)
  = Ok (zip_with (stored self) ids batch).
Proof.
  revert batch. induction ids as [|u ids IH]; intros [|d batch]; simpl; try reflexivity.
  rewrite IH. reflexivity.
Qed.

(** [add_sources] appends one row per record, and [get_dict_sources] then
    reads the rows the claim had and the new ones, in that order. *)
Lemma add_sources_then_get self batch w prior :
  has_schema sources_table_sql (tables w) ->
  fresh_for "sources" "id" (drawn_ids w (length batch)) (tables w) ->
  sources_held self (tables w) = Ok prior ->
  exists w1 w2,
    add_sources self batch w = (Ok tt, w1)
    /\ old_rows "sources" (tables w1)
       = old_rows "sources" (tables w)
         ++ zip_with (source_row self) (drawn_ids w (length batch)) batch
    /\ get_dict_sources self w1
       = (Ok (prior ++ zip_with (stored self) (drawn_ids w (length batch)) batch), w2).
Proof.
  intros Hs [Hnd Hfree] Hprior.
  destruct (db_create_lookup _ _ Hs) as (tb & Htb & Hc & Hp & Hr). simpl in Htb, Hp, Hr.
  set (wa := set_tables (db_create sources_table_sql (tables w))
               (snd (emit Log.INFO "Claim" "Adding sources for claim ID %s."
                          [Log.AStr (id self)] w))).
  destruct (add_loop_ok self batch wa tb) as (wb & Hloop & Htab & _); try assumption.
  { rewrite Hr. exact Hfree. }
  set (ids := drawn_ids w (length batch)) in *.
  change (drawn_ids wa (length batch)) with ids in *.
  eexists _, _. split; [|split].
  - unfold add_sources. erewrite bind_ok by reflexivity.
    erewrite bind_ok by reflexivity. fold (add_one self).
    change (set_tables _ _) with wa.
    erewrite bind_ok by exact Hloop. reflexivity.
  - unfold old_rows at 1. simpl tables. rewrite Htab, lookup_insert_eq. simpl.
    rewrite Hr. reflexivity.
  - unfold get_dict_sources. erewrite bind_ok by reflexivity.
    unfold fetch_all at 1. unfold bind at 1. simpl tables. rewrite Htab.
    unfold db_fetch. rewrite lookup_insert_eq. simpl columns. rewrite Hc. simpl negb.
    cbv iota. simpl bind_param. cbv iota. simpl rows.
    rewrite List.filter_app, new_rows_match.
    unfold sources_held in Hprior. rewrite <- Hr in Hprior.
    erewrite bind_ok.
    2:{ unfold lift. rewrite (comprehension_app _ _ _ _ _ Hprior (new_rows_read _ _ _)).
        reflexivity. }
    erewrite bind_ok by reflexivity. reflexivity.
Qed.

Lemma row_get_cell c r v :
  row_get c r = Ok v -> cell c r = SNull \/ exists s, cell c r = SText s /\ v = VStr s.
Proof.
  unfold row_get, cell. destruct (assoc c r) as [[|s]|]; intros H; try discriminate.
  - left; reflexivity.
  - right. exists s. injection H as <-. auto.
Qed.

Lemma read_claim_id i row r :
  matches "claim_id" (SText i) row = true -> source_dict_of_row row = Ok r ->
  sd_claim_id r = VStr i.
Proof.
  unfold matches, source_dict_of_row. intros Hm H.
  destruct (row_get "id" row); [|discriminate].
  destruct (row_get "claim_id" row) as [b|] eqn:Hb; [|discriminate].
  repeat match type of H with
         | match ?x with _ => _ end = _ => destruct x; [|discriminate]
         end.
  injection H as <-. simpl.
  apply row_get_cell in Hb as [Hn | (s & Hs & ->)].
  - rewrite Hn in Hm. discriminate.
  - rewrite Hs in Hm. simpl in Hm. apply String.eqb_eq in Hm. congruence.
Qed.

Lemma stored_fields self ids batch :
  length ids = length batch ->
  map dict_fields (zip_with (stored self) ids batch) = map rendered_fields batch.
Proof.
  revert batch. induction ids as [|u ids IH]; intros [|d batch] H; simpl in *; try lia.
  - reflexivity.
  - f_equal. apply IH. lia.
Qed.

Lemma stored_claim_id self ids batch :
  Forall (fun r => sd_claim_id r = VStr (id self)) (zip_with (stored self) ids batch).
Proof.
  revert ids. induction batch as [|d batch IH]; intros [|u ids]; simpl; constructor; auto.
Qed.

End SourcesFacts.

Module SourcesTheorems.
Import Py Eff Sqldb Store Titled EffFacts StoreSpec StoreFacts SourcesFacts Samples.

(** C2, as amended: on a store whose sources table is absent or has the
    schema of [add_sources], with the UUIDs to be drawn distinct and new to
    the table, and the sources the claim already has readable as [prior]:
    [add_sources] succeeds, and [get_dict_sources] then returns as many
    records as the claim had plus the batch holds; their title, url, site,
    body and topic are those supplied and their entities are the text
    [str(entities)] of those supplied, whatever the order; and every record
    returned carries the identifier of the claim. *)
Theorem add_sources_then_get_dict_sources
    (w : World) (self : Claim) (batch : list SourceData) (prior : list SourceDict) :
  has_schema sources_table_sql (tables w) ->
  fresh_for "sources" "id" (drawn_ids w (length batch)) (tables w) ->
  sources_held self (tables w) = Ok prior ->
  exists w1 w2 got,
    add_sources self batch w = (Ok tt, w1)
    /\ get_dict_sources self w1 = (Ok got, w2)
    /\ length got = length prior + length batch
    /\ Permutation (map dict_fields got)
                   (map dict_fields prior ++ map rendered_fields batch)
    /\ Forall (fun r => sd_claim_id r = VStr (id self)) got.
Proof.
  intros Hs Hf Hp.
  destruct (add_sources_then_get self batch w prior Hs Hf Hp) as (w1 & w2 & Ha & _ & Hg).
  exists w1, w2, (prior ++ zip_with (stored self) (drawn_ids w (length batch)) batch).
  split; [exact Ha|]. split; [exact Hg|].
  assert (Hl : length (drawn_ids w (length batch)) = length batch) by apply drawn_ids_length.
  split.
  { rewrite length_app, length_zip_with, Hl. lia. }
  split.
  { rewrite map_app, stored_fields by exact Hl. apply Permutation_refl. }
  apply Forall_app. split.
  - unfold sources_held in Hp.
    eapply (comprehension_Forall _ (fun row => matches "claim_id" (SText (id self)) row = true)
              _ _ _ (read_claim_id (id self))); [|exact Hp].
    apply Forall_forall. intros row Hin. apply list_elem_of_In, filter_In in Hin. tauto.
  - apply stored_claim_id.
Qed.

(** One source added to a claim that has none, on a database without a
    sources table. *)
Lemma add_sources_then_get_dict_sources_witness :
  exists w1 w2 got,
    add_sources round_earth [one_source] claimed_world = (Ok tt, w1)
    /\ get_dict_sources round_earth w1 = (Ok got, w2)
    /\ length got = 1
    /\ Permutation (map dict_fields got) [rendered_fields one_source]
    /\ Forall (fun r => sd_claim_id r = VStr "c1") got.
Proof.
  apply (add_sources_then_get_dict_sources claimed_world round_earth [one_source] []).
  - exact I.
  - split; [apply NoDup_singleton | repeat constructor].
  - reflexivity.
Defined.

(** C2, as the spec states it, fails on a record whose entities are a list:
    the record read back holds their text, so its field values are not
    those added. *)
Lemma get_dict_sources_changes_entities :
  let w1 := snd (add_sources round_earth [one_source] claimed_world) in
  exists got,
    fst (get_dict_sources round_earth w1) = Ok got
    /\ map sd_entities got = [VStr "['Earth']"]
    /\ ~ Permutation (map dict_fields got) (map data_fields [one_source]).
Proof.
  eexists. split; [vm_compute; reflexivity|]. split; [reflexivity|].
  intros H. apply Permutation_length_1 in H. discriminate.
Qed.

(** C10: under the same conditions as for C2, the [k]-th record of the
    batch is written as a row whose entities cell is the text
    [str(entities)], the dictionary read back for it holds that text, and
    when the entities supplied are a list that value differs from them. *)
Theorem entities_stored_as_rendered_text
    (w : World) (self : Claim) (batch : list SourceData) (prior : list SourceDict) :
  has_schema sources_table_sql (tables w) ->
  fresh_for "sources" "id" (drawn_ids w (length batch)) (tables w) ->
  sources_held self (tables w) = Ok prior ->
  exists w1 w2 got,
    add_sources self batch w = (Ok tt, w1)
    /\ get_dict_sources self w1 = (Ok got, w2)
    /\ forall k d, batch !! k = Some d ->
         (exists row, old_rows "sources" (tables w1)
                        !! (length (old_rows "sources" (tables w)) + k) = Some row
                      /\ cell "entities" row = SText (str (data_entities d)))
         /\ (exists r, got !! (length prior + k) = Some r
                      /\ sd_entities r = VStr (str (data_entities d))
                      /\ forall items, data_entities d = VList items ->
                                       sd_entities r <> data_entities d).
Proof.
  intros Hs Hf Hp.
  destruct (add_sources_then_get self batch w prior Hs Hf Hp) as (w1 & w2 & Ha & Hr & Hg).
  exists w1, w2, (prior ++ zip_with (stored self) (drawn_ids w (length batch)) batch).
  split; [exact Ha|]. split; [exact Hg|].
  intros k d Hk.
  assert (Hu : exists u, drawn_ids w (length batch) !! k = Some u).
  { apply lookup_lt_is_Some. rewrite drawn_ids_length. eapply lookup_lt_Some, Hk. }
  destruct Hu as [u Hu]. split.
  - exists (source_row self u d). split; [|reflexivity].
    rewrite Hr, lookup_app_r by lia.
    replace (_ + k - _) with k by lia.
    rewrite lookup_zip_with, Hu. simpl. rewrite Hk. reflexivity.
  - exists (stored self u d). split; [|split].
    + rewrite lookup_app_r by lia. replace (_ + k - _) with k by lia.
      rewrite lookup_zip_with, Hu. simpl. rewrite Hk. reflexivity.
    + reflexivity.
    + intros items ->. simpl. discriminate.
Qed.

(** The list [["Earth"]] comes back as the text ['Earth']. *)
Lemma entities_stored_as_rendered_text_witness :
  exists w1 w2 got,
    add_sources round_earth [one_source] claimed_world = (Ok tt, w1)
    /\ get_dict_sources round_earth w1 = (Ok got, w2)
    /\ exists r, got !! 0 = Some r /\ sd_entities r = VStr "['Earth']"
                 /\ sd_entities r <> data_entities one_source.
Proof.
  destruct (entities_stored_as_rendered_text claimed_world round_earth [one_source] [])
    as (w1 & w2 & got & Ha & Hg & H).
  - exact I.
  - split; [apply NoDup_singleton | repeat constructor].
  - reflexivity.
  - exists w1, w2, got. split; [exact Ha|]. split; [exact Hg|].
    destruct (H 0 one_source eq_refl) as [_ (r & Hr & He & Hne)].
    exists r. split; [exact Hr|]. split; [exact He | exact (Hne _ eq_refl)].
Defined.

End SourcesTheorems.

(** ** Clearing a claim *)

Module ClearFacts.
Import Py Eff Sqldb Store Titled EffFacts StoreSpec StoreFacts Samples.

Ltac alter_lookups :=
  repeat first [ rewrite lookup_alter_eq
               | rewrite lookup_alter_ne by (assumption || discriminate) ].

Lemma purge_columns c k tb : columns (purge c k tb) = columns tb.
Proof. reflexivity. Qed.

Lemma has_table_alter f t c t' (ts : Tables) :
  (forall tb, columns (f tb) = columns tb) ->
  has_table t c ts -> has_table t c (alter f t' ts).
Proof.
  intros Hf (tb & Ht & Hc). destruct (decide (t' = t)) as [->|Hne].
  - exists (f tb). rewrite lookup_alter_eq, Ht. split; [reflexivity|]. rewrite Hf. exact Hc.
  - exists tb. rewrite lookup_alter_ne by exact Hne. auto.
Qed.

(** With its three tables there, [clear_database] succeeds and leaves the
    store without the rows of the claim. *)
Lemma clear_database_ok self w :
  clearable (tables w) ->
  exists w', clear_database self w = (Ok tt, w')
             /\ tables w' = cleared (id self) (tables w).
Proof.
  intros (Hc & Hs & Ha). unfold clear_database.
  erewrite bind_ok by reflexivity.
  erewrite bind_ok.
  2:{ apply execute_query_ok. apply db_delete_ok. exact Hc. }
  erewrite bind_ok.
  2:{ apply execute_query_ok. apply db_delete_ok. simpl.
      apply has_table_alter; [apply purge_columns | exact Hs]. }
  erewrite bind_ok.
  2:{ apply execute_query_ok. apply db_delete_ok. simpl.
      do 2 (apply has_table_alter; [apply purge_columns |]). exact Ha. }
  eexists. split; [reflexivity|]. reflexivity.
Qed.

Lemma clearable_cleared k ts : clearable ts -> clearable (cleared k ts).
Proof.
  intros (Hc & Hs & Ha). unfold cleared.
  repeat split; do 3 (apply has_table_alter; [apply purge_columns |]); assumption.
Qed.

Lemma purge_idem c k tb : purge c k (purge c k tb) = purge c k tb.
Proof.
  unfold purge, with_rows. simpl. f_equal.
  induction (rows tb) as [|r rs IH]; simpl; [reflexivity|].
  destruct (negb (matches c (SText k) r)) eqn:E; simpl; [rewrite E|]; congruence.
Qed.

Lemma cleared_idem k (ts : Tables) : cleared k (cleared k ts) = cleared k ts.
Proof.
  apply map_eq. intros j. unfold cleared.
  destruct (decide ("answers" = j)) as [<-|Ha];
    [|destruct (decide ("sources" = j)) as [<-|Hs];
      [|destruct (decide ("claims" = j)) as [<-|Hc]]];
    alter_lookups; try reflexivity;
    match goal with |- context [ts !! ?t] => destruct (ts !! t) end;
    simpl; rewrite ?purge_idem; reflexivity.
Qed.

Lemma purged_none c k tb :
  List.filter (matches c (SText k)) (rows (purge c k tb)) = [].
Proof.
  unfold purge. simpl. induction (rows tb) as [|r rs IH]; simpl; [reflexivity|].
  destruct (matches c (SText k) r) eqn:E; simpl; [|rewrite E]; exact IH.
Qed.

Lemma cleared_fetch t k (ts : Tables) :
  t = "sources" \/ t = "answers" ->
  has_table t "claim_id" ts ->
  db_fetch (Select t (Some "claim_id")) [VStr k] (cleared k ts) = Ok [].
Proof.
  intros Ht (tb & Hl & Hc). unfold db_fetch, cleared.
  assert (E : alter (purge "claim_id" k) "answers"
                (alter (purge "claim_id" k) "sources" (alter (purge "id" k) "claims" ts)) !! t
              = Some (purge "claim_id" k tb)).
  { destruct Ht as [-> | ->]; alter_lookups; rewrite Hl; reflexivity. }
  rewrite E, purge_columns, Hc. cbv [negb bind_param]. rewrite purged_none. reflexivity.
Qed.

(** The three [DELETE]s of [clear_database]: the first of them to meet an
    absent table raises. *)
Lemma deletes_raise_without_table (self : Claim) (w0 : World) :
  tables w0 !! "claims" = None \/ tables w0 !! "sources" = None
  \/ tables w0 !! "answers" = None ->
  exists e w',
    (execute_query (Sqldb.Delete "claims" "id") [VStr (id self)] ;;
     execute_query (Sqldb.Delete "sources" "claim_id") [VStr (id self)] ;;
     execute_query (Sqldb.Delete "answers" "claim_id") [VStr (id self)] ;;
     emit Log.INFO "Claim" "Claim data for claim ID %s cleared." [Log.AStr (id self)])%py w0
    = (Raise e, w')
    /\ exn_class e = "OperationalError".
Proof.
  intros H.
  destruct (db_execute (Delete "claims" "id") [VStr (id self)] (tables w0))
    as [[[]|e] ts1] eqn:E1.
  2:{ destruct (execute_query_raise _ _ _ _ _ E1) as [w' Hw'].
      exists e, w'. split; [erewrite bind_raise by exact Hw'; reflexivity|].
      unfold db_execute in E1. destruct (tables w0 !! "claims") as [tb|].
      - destruct (negb (has_column "id" (columns tb))); simpl in E1; by simplify_eq.
      - by simplify_eq. }
  erewrite bind_ok by (apply execute_query_ok; exact E1).
  assert (Hts1 : tables w0 !! "claims" <> None
                 /\ ts1 !! "sources" = tables w0 !! "sources"
                 /\ ts1 !! "answers" = tables w0 !! "answers").
  { unfold db_execute in E1. destruct (tables w0 !! "claims") as [tb|]; [|discriminate].
    destruct (negb (has_column "id" (columns tb))); simpl in E1; [discriminate|].
    simplify_eq. rewrite !lookup_insert_ne by discriminate. auto. }
  destruct Hts1 as (Hcl & Hso & Han).
  destruct H as [H | H]; [congruence|].
  set (w1 := set_tables ts1 w0).
  destruct (db_execute (Delete "sources" "claim_id") [VStr (id self)] (tables w1))
    as [[[]|e] ts2] eqn:E2.
  2:{ destruct (execute_query_raise _ _ _ _ _ E2) as [w' Hw'].
      exists e, w'. split; [erewrite bind_raise by exact Hw'; reflexivity|].
      unfold db_execute in E2. destruct (tables w1 !! "sources") as [tb|].
      - destruct (negb (has_column "claim_id" (columns tb))); simpl in E2; by simplify_eq.
      - by simplify_eq. }
  erewrite bind_ok by (apply execute_query_ok; exact E2).
  assert (Hts2 : tables w1 !! "sources" <> None
                 /\ ts2 !! "answers" = tables w1 !! "answers").
  { unfold db_execute in E2. destruct (tables w1 !! "sources") as [tb|]; [|discriminate].
    destruct (negb (has_column "claim_id" (columns tb))); simpl in E2; [discriminate|].
    simplify_eq. rewrite !lookup_insert_ne by discriminate. auto. }
  destruct Hts2 as (Hso2 & Han2). simpl in Hso2, Han2.
  destruct H as [H | H]; [congruence|].
  assert (E3 : ts2 !! "answers" = None) by congruence.
  destruct (execute_query_raise (Delete "answers" "claim_id") [VStr (id self)]
              (set_tables ts2 w1) _ _ (db_delete_missing _ _ _ _ E3)) as [w' Hw'].
  exists (no_such_table "answers"), w'. split; [|reflexivity].
  erewrite bind_raise by exact Hw'. reflexivity.
Qed.

End ClearFacts.

Module ClearTheorems.
Import Py Eff Sqldb Store Titled EffFacts StoreSpec StoreFacts ClaimFacts SourcesFacts.
Import ClearFacts Samples.

(** C3, where the code departs from it: on every store that lacks the
    claims, the sources or the answers table, [clear_database] does not
    complete; it raises the driver's error for the missing table.  The
    method issues its three [DELETE]s without creating any table first. *)
Theorem clear_database_raises_without_table (w : World) (self : Claim) :
  tables w !! "claims" = None \/ tables w !! "sources" = None
  \/ tables w !! "answers" = None ->
  exists e w', clear_database self w = (Raise e, w')
               /\ exn_class e = "OperationalError".
Proof.
  intros H. unfold clear_database. erewrite bind_ok by reflexivity.
  apply deletes_raise_without_table. exact H.
Qed.

(** A claim was created on an empty database and is cleared at once. *)
Lemma clear_database_raises_without_table_witness :
  exists e w', clear_database round_earth claimed_world = (Raise e, w')
               /\ exn_class e = "OperationalError".
Proof.
  apply clear_database_raises_without_table. right. left. reflexivity.
Defined.

(** C8, where the code departs from it: after a claim is created on an
    empty database there is a claims table and no sources table;
    [clear_database] then fails with the missing-table error for
    [sources], and [has_answer] with the one for [answers]. *)
Theorem clear_database_does_not_create_tables :
  tables claimed_world !! "sources" = None
  /\ is_Some (tables claimed_world !! "claims")
  /\ fst (clear_database round_earth claimed_world) = Raise (no_such_table "sources")
  /\ fst (has_answer round_earth claimed_world) = Raise (no_such_table "answers").
Proof.
  split; [reflexivity|]. split; [eexists; reflexivity|]. split; reflexivity.
Qed.

(** X1: on a store that has the three tables, [clear_database] succeeds;
    afterwards [get_dict_sources] returns the empty list, [has_answer]
    returns false and no claim row is left under the identifier; and a
    second [clear_database] succeeds and leaves the tables as they are. *)
Theorem clear_database_twice (w : World) (self : Claim) :
  clearable (tables w) ->
  exists w1 w2 w3 w4,
    clear_database self w = (Ok tt, w1)
    /\ get_dict_sources self w1 = (Ok [], w2)
    /\ has_answer self w1 = (Ok false, w3)
    /\ db_fetch (Select "claims" (Some "id")) [VStr (id self)] (tables w1) = Ok []
    /\ clear_database self w1 = (Ok tt, w4)
    /\ tables w4 = tables w1.
Proof.
  intros Hc.
  destruct (clear_database_ok self w Hc) as (w1 & H1 & T1).
  assert (Hc1 : clearable (tables w1)) by (rewrite T1; apply clearable_cleared, Hc).
  destruct (clear_database_ok self w1 Hc1) as (w4 & H4 & T4).
  destruct Hc as (Hcl & Hs & Ha).
  exists w1. eexists. eexists. exists w4.
  split; [exact H1|]. split; [|split; [|split; [|split; [exact H4|]]]].
  - unfold get_dict_sources. erewrite bind_ok by reflexivity.
    erewrite bind_ok.
    2:{ unfold fetch_all. simpl tables. rewrite T1, cleared_fetch by auto. reflexivity. }
    erewrite bind_ok by reflexivity. erewrite bind_ok by reflexivity. reflexivity.
  - unfold has_answer. erewrite bind_ok by reflexivity.
    erewrite bind_ok.
    2:{ unfold fetch_one. simpl tables. rewrite T1, cleared_fetch by auto. reflexivity. }
    reflexivity.
  - rewrite T1. destruct Hcl as (tb & Hl & Hcol). unfold db_fetch, cleared.
    alter_lookups. rewrite Hl. cbn [fmap option_fmap option_map].
    rewrite purge_columns, Hcol. cbv [negb bind_param]. rewrite purged_none. reflexivity.
  - rewrite T4, T1. apply cleared_idem.
Qed.

(** The claim of the example, with a source and an answer, cleared twice. *)
Lemma clear_database_twice_witness :
  exists w1 w2 w3 w4,
    clear_database round_earth answered_world = (Ok tt, w1)
    /\ get_dict_sources round_earth w1 = (Ok [], w2)
    /\ has_answer round_earth w1 = (Ok false, w3)
    /\ db_fetch (Select "claims" (Some "id")) [VStr "c1"] (tables w1) = Ok []
    /\ clear_database round_earth w1 = (Ok tt, w4)
    /\ tables w4 = tables w1.
Proof.
  apply (clear_database_twice answered_world round_earth).
  repeat split; eexists; split; reflexivity.
Defined.


End ClearTheorems.

(** ** The summarizer *)

Module SummarizerFacts.
Import Py Eff Summarizer EffFacts SummarizerSpec PacingSpec.
Local Open Scope py_scope.

Lemma create_run req w :
  create req w = (api w (sent w ++ [req]), mkWorld (api w) (sent w ++ [req]) (log w) (slept w)).
Proof. reflexivity. Qed.

(** Reading a response as the code does comes to what the call comes to. *)
Lemma reading_completion response :
  first_content_stripped response = completion (Ok response).
Proof.
  unfold first_content_stripped, completion.
  destruct (choices response) as [|[content|] rest]; reflexivity.
Qed.

Lemma generate_summary_run self text mt temp stop w :
  generate_summary self text mt temp stop w
  = (completion (api w (sent w ++ [summary_request self text mt temp stop])),
     mkWorld (api w) (sent w ++ [summary_request self text mt temp stop]) (log w) (slept w)).
Proof.
  unfold generate_summary, bind, create, lift, summary_request.
  destruct (api w _) as [resp|e]; [rewrite reading_completion|]; reflexivity.
Qed.

Lemma sleep_accepted t w :
  accepted t = true ->
  sleep t w = (Ok tt, mkWorld (api w) (sent w) (log w) (slept w ++ [t])).
Proof.
  unfold accepted, sleep. intros H. apply andb_true_iff in H as [Hf Hp].
  rewrite Hf, Hp. reflexivity.
Qed.

Lemma sleep_refused t w :
  accepted t = false -> exists e, sleep t w = (Raise e, w).
Proof.
  unfold accepted, sleep. intros H.
  destruct (fits_clock t); simpl in *; [rewrite H|]; eexists; reflexivity.
Qed.

Lemma accepted_short t : (0 <= t)%Q -> (t <= longest_sleep)%Q -> accepted t = true.
Proof.
  intros H0 Hs. unfold accepted, fits_clock. apply Qle_bool_iff in H0 as Hb. rewrite Hb.
  rewrite andb_true_r. apply andb_true_iff. split.
  - apply Qle_bool_iff. unfold clock_limit, nanoseconds, longest_sleep in *. lra.
  - destruct (Qle_bool clock_limit (t * nanoseconds)) eqn:E; [|reflexivity].
    apply Qle_bool_iff in E. unfold clock_limit, nanoseconds, longest_sleep in *. lra.
Qed.

Lemma accepted_nonneg t : accepted t = true -> (0 <= t)%Q.
Proof.
  unfold accepted. intros H. apply andb_true_iff in H as [_ H].
  apply Qle_bool_iff. exact H.
Qed.

(** The [try] statement of [claim_title_summarize]. *)
Lemma rephrase_attempt self text mt temp stop w :
  let req := rephrase_request self text mt temp stop in
  exists r w',
    try_except
      (let* response := create req in
       let* summary := lift (first_content_stripped response) in
       emit Log.INFO "Summarization completed successfully." [] ;;
       emit Log.INFO "Generated summary: %s..." [Log.AStr (take_chars 1000 summary)] ;;
       ret (Some summary))
      (fun e => emit Log.ERROR "Error generating summary: %s" [Log.AExn e] ;; ret None) w
    = (Ok r, w')
    /\ sent w' = sent w ++ [req]
    /\ match completion (api w (sent w ++ [req])) with
       | Ok s => r = Some s
       | Raise e =>
           r = None
           /\ last (log w') = Some (Log.mk Log.ERROR "Summarizer"
                                           "Error generating summary: %s" [Log.AExn e])
       end.
Proof.
  intros req.
  destruct (api w (sent w ++ [req])) as [resp|e] eqn:Eapi.
  - rewrite <- reading_completion.
    destruct (first_content_stripped resp) as [s|e] eqn:Es.
    + eexists _, _. split; [|split].
      * apply try_except_ok. erewrite bind_ok by (rewrite create_run, Eapi; reflexivity).
        erewrite bind_ok by (unfold lift; rewrite Es; reflexivity).
        reflexivity.
      * reflexivity.
      * reflexivity.
    + eexists _, _. split; [|split].
      * erewrite try_except_raise.
        2:{ erewrite bind_ok by (rewrite create_run, Eapi; reflexivity).
            erewrite bind_raise by (unfold lift; rewrite Es; reflexivity). reflexivity. }
        reflexivity.
      * reflexivity.
      * split; [reflexivity|]. simpl. rewrite last_snoc. reflexivity.
  - eexists _, _. split; [|split].
    + erewrite try_except_raise.
      2:{ erewrite bind_raise by (rewrite create_run, Eapi; reflexivity). reflexivity. }
      reflexivity.
    + reflexivity.
    + split; [reflexivity|]. simpl. rewrite last_snoc. reflexivity.
Qed.

(** One round of the loop of [summarize_texts], whatever the sleep factor. *)
Lemma summarize_one_paced self total mt temp stop cut st index text acc w :
  let req := summary_request self (slice_to cut text) mt temp stop in
  let o := completion (api w (sent w ++ [req])) in
  exists w',
    summarize_one self total mt temp stop cut st index text acc w
    = (Ok (acc ++ paced_entries cut st text o), w')
    /\ api w' = api w /\ sent w' = sent w ++ [req]
    /\ slept w' = slept w ++ paced_pause cut st text o.
Proof.
  intros req o. unfold summarize_one.
  erewrite bind_ok by reflexivity. erewrite bind_ok by reflexivity.
  rewrite generate_summary_run. simpl api. simpl sent. fold req. fold o.
  unfold paced_entries, paced_pause, kept.
  destruct o as [s|e].
  - destruct (truthy s); simpl andb.
    + erewrite bind_ok by reflexivity. erewrite bind_ok by reflexivity.
      fold (pause cut st text).
      destruct (accepted (pause cut st text)) eqn:Hq.
      * rewrite (sleep_accepted _ _ Hq). eexists. split; [reflexivity|]. simpl. auto.
      * match goal with |- context [sleep ?t ?w0] =>
          destruct (sleep_refused t w0 Hq) as [e He]; rewrite He
        end.
        eexists. split; [rewrite <- app_assoc; reflexivity|]. simpl.
        rewrite app_nil_r. auto.
    + eexists. split; [rewrite app_nil_r; reflexivity|]. simpl.
      rewrite app_nil_r. auto.
  - eexists. split; [reflexivity|]. simpl. rewrite app_nil_r. auto.
Qed.

(** The loop, by induction on the texts left. *)
Lemma summarize_loop_paced self total mt temp stop cut st texts :
  forall index acc w,
  let reqs := map (fun t => summary_request self (slice_to cut t) mt temp stop) texts in
  let os := outcomes (api w) (sent w) reqs in
  exists w',
    summarize_loop self total mt temp stop cut st index texts acc w
    = (Ok (acc ++ zip_with_outcomes (paced_entries cut st) texts os), w')
    /\ sent w' = sent w ++ reqs
    /\ slept w' = slept w ++ zip_with_outcomes (paced_pause cut st) texts os.
Proof.
  induction texts as [|text texts IH]; intros index acc w; simpl.
  - exists w. rewrite !app_nil_r. auto.
  - destruct (summarize_one_paced self total mt temp stop cut st index text acc w)
      as (w1 & H1 & Ha & Hs & Hp).
    match type of H1 with _ = (Ok ?acc1, _) =>
      destruct (IH (S index) acc1 w1) as (w' & H' & Hs' & Hp')
    end.
    exists w'. split; [|split].
    + erewrite bind_ok by exact H1. rewrite H'. rewrite Ha, Hs, <- app_assoc. reflexivity.
    + rewrite Hs', Hs, <- app_assoc. reflexivity.
    + rewrite Hp', Hp, Ha, Hs, <- app_assoc. reflexivity.
Qed.

Lemma summarize_texts_paced self texts mt temp stop cut st w :
  let reqs := map (fun t => summary_request self (slice_to cut t) mt temp stop) texts in
  let os := outcomes (api w) (sent w) reqs in
  exists w',
    summarize_texts self texts mt temp stop cut st w
    = (Ok (zip_with_outcomes (paced_entries cut st) texts os), w')
    /\ sent w' = sent w ++ reqs
    /\ slept w' = slept w ++ zip_with_outcomes (paced_pause cut st) texts os.
Proof.
  intros reqs os. unfold summarize_texts. erewrite bind_ok by reflexivity.
  match goal with |- context [bind _ _ ?w0] =>
    destruct (summarize_loop_paced self (length texts) mt temp stop cut st texts 0 [] w0)
      as (w1 & H1 & Hs & Hp)
  end.
  simpl in H1, Hs, Hp. fold reqs in H1, Hs, Hp. fold os in H1, Hp.
  eexists. split; [|split].
  - erewrite bind_ok by exact H1. erewrite bind_ok by reflexivity. reflexivity.
  - simpl. exact Hs.
  - simpl. exact Hp.
Qed.

Lemma flat_map_entries_length os :
  length (flat_map entries os) + length (List.filter blank os) = length os.
Proof.
  induction os as [|o os IH]; simpl; [reflexivity|].
  rewrite length_app. destruct o as [s|e]; simpl.
  - destruct (truthy s); simpl; lia.
  - lia.
Qed.

Lemma outcomes_length api sent reqs : length (outcomes api sent reqs) = length reqs.
Proof. revert sent. induction reqs as [|r reqs IH]; intros sent; simpl; auto. Qed.

Lemma pause_nonneg cut st text : (0 <= st)%Q -> (0 <= pause cut st text)%Q.
Proof.
  intros H. unfold pause. apply Qmult_le_0_compat; [|exact H].
  change 0%Q with (inject_Z 0). rewrite <- Zle_Qle. lia.
Qed.

Lemma pause_le cut st text :
  (0 <= st)%Q -> (0 <= cut)%Z -> (pause cut st text <= inject_Z cut * st)%Q.
Proof.
  intros Hst Hcut. unfold pause. apply Qmult_le_compat_r; [|exact Hst].
  rewrite <- Zle_Qle. unfold slice_to. apply Z.leb_le in Hcut as Hb. rewrite Hb.
  clear Hb. revert text. generalize (Z.to_nat cut) (Z2Nat.id cut Hcut).
  intros n Hn text. rewrite <- Hn. apply inj_le. clear Hn cut Hcut.
  revert text. induction n as [|n IH]; intros [|c text]; simpl; try lia.
  specialize (IH text). lia.
Qed.

(** With pauses that [time.sleep] takes, a text adds what its call comes
    to, and pauses when it adds a summary. *)
Lemma zip_accepted cut st texts :
  (0 <= st)%Q -> short_pauses cut st texts -> forall os,
  length os = length texts ->
  zip_with_outcomes (paced_entries cut st) texts os = flat_map entries os
  /\ length (zip_with_outcomes (paced_pause cut st) texts os)
     = length (List.filter is_summary (flat_map entries os))
  /\ List.Forall (fun q => 0 <= q)%Q (zip_with_outcomes (paced_pause cut st) texts os)
  /\ ((0 <= cut)%Z ->
      List.Forall (fun q => q <= inject_Z cut * st)%Q
                  (zip_with_outcomes (paced_pause cut st) texts os)).
Proof.
  intros Hst Hshort. induction Hshort as [|t texts Ht Hts IH]; intros os Hlen.
  - destruct os; [|discriminate]. simpl.
    split; [reflexivity|]. split; [reflexivity|]. split; [constructor | intros _; constructor].
  - destruct os as [|o os]; [discriminate|]. simpl in Hlen.
    destruct (IH os ltac:(lia)) as (He & Hl & Hpos & Hle).
    pose proof (pause_nonneg cut st t Hst) as Hp.
    pose proof (accepted_short _ Hp Ht) as Hq.
    cbn [zip_with_outcomes flat_map]. rewrite He.
    unfold paced_pause, paced_entries, kept. rewrite Hq, andb_true_r.
    destruct o as [s|e]; cbn [entries]; [destruct (truthy s)|]; cbn [app List.filter is_summary length].
    + split; [reflexivity|]. split; [f_equal; exact Hl|]. split.
      { constructor; assumption. }
      { intros Hcut. constructor; [apply pause_le; assumption | apply Hle, Hcut]. }
    + split; [reflexivity|]. split; [exact Hl|]. split; assumption.
    + split; [reflexivity|]. split; [exact Hl|]. split; assumption.
Qed.

Lemma pause_refused cut st t :
  (st < 0)%Q -> slice_to cut t <> "" -> accepted (pause cut st t) = false.
Proof.
  intros Hst Hne. destruct (accepted (pause cut st t)) eqn:E; [|reflexivity].
  apply accepted_nonneg in E. exfalso. unfold pause in E.
  assert (Hn : (0 < inject_Z (Z.of_nat (String.length (slice_to cut t))))%Q).
  { change 0%Q with (inject_Z 0). rewrite <- Zlt_Qlt.
    destruct (slice_to cut t); [contradiction | simpl; lia]. }
  apply (Qmult_lt_l st 0 _) in Hn. apply Hn in Hst.
  rewrite Qmult_0_r in Hst. apply Qle_not_lt in E. contradiction.
Qed.

Lemma zip_refused cut st texts :
  (st < 0)%Q -> List.Forall (fun t => slice_to cut t <> "") texts -> forall os,
  length os = length texts ->
  zip_with_outcomes (paced_entries cut st) texts os = flat_map refused_entries os
  /\ zip_with_outcomes (paced_pause cut st) texts os = [].
Proof.
  intros Hst Hne. induction Hne as [|t texts Ht Hts IH]; intros os Hlen.
  - destruct os; [|discriminate]. split; reflexivity.
  - destruct os as [|o os]; [discriminate|]. simpl in Hlen.
    destruct (IH os ltac:(lia)) as (He & Hp). simpl.
    rewrite He, Hp. unfold paced_entries, paced_pause, refused_entries.
    rewrite (pause_refused cut st t Hst Ht), andb_false_r.
    split; reflexivity.
Qed.

End SummarizerFacts.

Module SummarizerTheorems.
Import Py Eff Summarizer EffFacts SummarizerSpec PacingSpec SummarizerFacts Samples.

(** C4, as amended: for every list of texts and every cut-off, with a
    sleep factor that is not negative and pauses that [time.sleep] takes (none
    above [longest_sleep], as with the defaults), [summarize_texts] does not
    raise; it sends one request per text, each for the text cut at the
    cut-off, whatever the earlier calls came to; and its list holds, in the
    order of the texts, the stripped content of the first completion for
    each call that gave one that is not empty, [None] for each call that
    raised or whose response had no first completion or no content in it,
    and no entry for a call that gave an empty summary, so that it is
    shorter than the input by the number of such calls. *)
Theorem summarize_texts_entries
    (self : Summarizer) (texts : list string) (max_tokens : Z) (temperature : Q)
    (stop : option string) (token_cut : Z) (sleep_temperature : Q) (w : World) :
  (0 <= sleep_temperature)%Q ->
  short_pauses token_cut sleep_temperature texts ->
  let reqs := map (fun t => summary_request self (slice_to token_cut t)
                                            max_tokens temperature stop) texts in
  let results := outcomes (api w) (sent w) reqs in
  exists summaries w',
    summarize_texts self texts max_tokens temperature stop token_cut sleep_temperature w
    = (Ok summaries, w')
    /\ sent w' = sent w ++ reqs
    /\ summaries = flat_map entries results
    /\ length summaries + length (List.filter blank results) = length texts.
Proof.
  intros Hst Hshort reqs results.
  destruct (summarize_texts_paced self texts max_tokens temperature stop token_cut
              sleep_temperature w) as (w' & Hrun & Hsent & _).
  fold reqs in Hrun, Hsent. fold results in Hrun.
  assert (Hlen : length results = length texts).
  { unfold results, reqs. rewrite outcomes_length, length_map. reflexivity. }
  destruct (zip_accepted token_cut sleep_temperature texts Hst Hshort results Hlen)
    as (He & _).
  rewrite He in Hrun.
  eexists _, w'. split; [exact Hrun|]. split; [exact Hsent|]. split; [reflexivity|].
  rewrite flat_map_entries_length. exact Hlen.
Qed.

(** The example of the spec against a service that is down: [[None]]. *)
Lemma summarize_texts_entries_witness :
  exists summaries w',
    summarize_texts summarizer ["short text"] default_max_tokens default_temperature None
                    default_token_cut default_sleep_temperature dead_service
    = (Ok summaries, w')
    /\ summaries = [None].
Proof.
  destruct (summarize_texts_entries summarizer ["short text"] default_max_tokens
              default_temperature None default_token_cut default_sleep_temperature
              dead_service) as (summaries & w' & H & _ & Hsum & _).
  - discriminate.
  - constructor; [vm_compute; discriminate | constructor].
  - exists summaries, w'. split; [exact H | exact Hsum].
Defined.

(** C4, as the spec states it, fails when a call succeeds with a completion
    of white space only: the list has no entry for that text. *)
Lemma summarize_texts_drops_blank_summary :
  api blank_service [summary_request summarizer "short text" default_max_tokens
                                     default_temperature None]
  = Ok (mkResponse [Some "   "])
  /\ fst (summarize_texts summarizer ["short text"] default_max_tokens default_temperature
                          None default_token_cut default_sleep_temperature blank_service)
     = Ok []
  /\ length (@nil (option string)) <> length ["short text"].
Proof. split; [reflexivity|]. split; [reflexivity | discriminate]. Qed.

(** C5: for every text (and every setting of the keyword arguments),
    [claim_title_summarize] does not raise and sends one request.  When the
    response has a first completion with content, it returns that content
    stripped.  When the call raises, it returns [None] and the last record
    of the log is the error with the exception raised; when the response has
    no first completion, or a first completion without content, it returns
    [None] and the last record of the log is the error with the
    [IndexError], or the [AttributeError], of reading it. *)
Theorem claim_title_summarize_never_raises
    (self : Summarizer) (text : string) (max_tokens : Z) (temperature : Q)
    (stop : option string) (w : World) :
  let req := rephrase_request self text max_tokens temperature stop in
  let failure e := Log.mk Log.ERROR "Summarizer" "Error generating summary: %s" [Log.AExn e] in
  exists r w',
    claim_title_summarize self text max_tokens temperature stop w = (Ok r, w')
    /\ sent w' = sent w ++ [req]
    /\ (forall response content rest,
          api w (sent w ++ [req]) = Ok response ->
          choices response = Some content :: rest ->
          r = Some (strip content))
    /\ (forall e, api w (sent w ++ [req]) = Raise e ->
          r = None /\ last (log w') = Some (failure e))
    /\ (forall response,
          api w (sent w ++ [req]) = Ok response -> choices response = [] ->
          r = None
          /\ exists e, exn_class e = "IndexError" /\ last (log w') = Some (failure e))
    /\ (forall response rest,
          api w (sent w ++ [req]) = Ok response -> choices response = None :: rest ->
          r = None
          /\ exists e, exn_class e = "AttributeError" /\ last (log w') = Some (failure e)).
Proof.
  intros req failure. unfold claim_title_summarize.
  erewrite bind_ok by reflexivity. erewrite bind_ok by reflexivity.
  match goal with |- context [try_except _ _ ?w0] =>
    destruct (rephrase_attempt self text max_tokens temperature stop w0)
      as (r & w' & Hrun & Hsent & Hres)
  end.
  simpl api in Hres. simpl sent in Hres, Hsent. fold req in Hres, Hsent.
  exists r, w'. split; [exact Hrun|]. split; [exact Hsent|].
  split; [|split; [|split]].
  - intros response content rest Hapi Hc. rewrite Hapi in Hres.
    unfold completion in Hres. rewrite Hc in Hres. exact Hres.
  - intros e Hapi. rewrite Hapi in Hres. exact Hres.
  - intros response Hapi Hc. rewrite Hapi in Hres.
    unfold completion in Hres. rewrite Hc in Hres. destruct Hres as [Hr Hlog].
    split; [exact Hr|]. eexists. split; [|exact Hlog]. reflexivity.
  - intros response rest Hapi Hc. rewrite Hapi in Hres.
    unfold completion in Hres. rewrite Hc in Hres. destruct Hres as [Hr Hlog].
    split; [exact Hr|]. eexists. split; [|exact Hlog]. reflexivity.
Qed.

(** C6: for every text, [generate_summary] raises what the remote call
    raises; when the response has no first completion it raises the
    [IndexError] of reading it, and when its first completion has no content
    the [AttributeError]; it returns a string only when the call gave a
    response whose first completion has content, and the string is that
    content stripped.  A failure is never turned into a result. *)
Theorem generate_summary_propagates_failure
    (self : Summarizer) (text : string) (max_tokens : Z) (temperature : Q)
    (stop : option string) (w : World) :
  let req := summary_request self text max_tokens temperature stop in
  let result := fst (generate_summary self text max_tokens temperature stop w) in
  (forall e, api w (sent w ++ [req]) = Raise e -> result = Raise e)
  /\ (forall response,
        api w (sent w ++ [req]) = Ok response -> choices response = [] ->
        exists e, result = Raise e /\ exn_class e = "IndexError")
  /\ (forall response rest,
        api w (sent w ++ [req]) = Ok response -> choices response = None :: rest ->
        exists e, result = Raise e /\ exn_class e = "AttributeError")
  /\ (forall s, result = Ok s ->
        exists response content rest,
          api w (sent w ++ [req]) = Ok response
          /\ choices response = Some content :: rest
          /\ s = strip content).
Proof.
  intros req result. unfold result. rewrite generate_summary_run. fold req. simpl fst.
  split; [|split; [|split]].
  - intros e Hapi. rewrite Hapi. reflexivity.
  - intros response Hapi Hc. rewrite Hapi. unfold completion. rewrite Hc.
    eexists. split; reflexivity.
  - intros response rest Hapi Hc. rewrite Hapi. unfold completion. rewrite Hc.
    eexists. split; reflexivity.
  - intros s Hs. destruct (api w (sent w ++ [req])) as [response|e]; [|discriminate].
    unfold completion in Hs.
    destruct (choices response) as [|[content|] rest] eqn:Hc; try discriminate.
    injection Hs as <-. exists response, content, rest. auto.
Qed.

(** Against a service that is down: the summary raises what the call
    raised. *)
Lemma generate_summary_propagates_failure_witness :
  fst (generate_summary summarizer "short text" default_max_tokens default_temperature None
                        dead_service)
  = Raise (mkExn "APIConnectionError" "Connection error.").
Proof.
  apply (proj1 (generate_summary_propagates_failure summarizer "short text"
                  default_max_tokens default_temperature None dead_service)).
  reflexivity.
Defined.

(** Against the same service the rephrasing returns [None]. *)
Example claim_title_summarize_returns_none :
  fst (claim_title_summarize summarizer "short text" default_max_tokens default_temperature
                             None dead_service)
  = Ok None.
Proof. reflexivity. Qed.

End SummarizerTheorems.

(** ** Loading the graph *)

Module LoadTheorems.
Import Py Eff GraphManager EffFacts Samples.

(** C9, as amended: for every batch, when the bulk query raises,
    [load_data] logs the error, makes no further call to the engine but the
    schema refresh that follows the [try] statement (no rollback), and ends
    as that refresh ends: it returns when the refresh succeeds and raises
    the error of the refresh when it fails. *)
Theorem load_data_after_failed_query (data : list value) (w : World) (e : Exn) :
  engine w (calls w ++ [Query q_load_articles data]) = Raise e ->
  exists w',
    load_data data w
    = (engine w (calls w ++ [Query q_load_articles data; RefreshSchema]), w')
    /\ calls w' = calls w ++ [Query q_load_articles data; RefreshSchema]
    /\ log w'
       = log w ++ [Log.mk Log.INFO "GraphManager"
                     ("Avvio caricamento dati da " +:+ str (VList data) +:+ "...") [];
                   Log.mk Log.ERROR "GraphManager"
                     ("Errore durante il caricamento dati: " +:+ exn_msg e) []].
Proof.
  intros H. unfold load_data. erewrite bind_ok by reflexivity.
  erewrite bind_ok.
  2:{ unfold try_except, bind, call. simpl. rewrite H. reflexivity. }
  unfold call. simpl. rewrite <- !app_assoc. simpl.
  eexists. split; [reflexivity|]. simpl. auto.
Qed.

(** An engine that fails the query and then answers the refresh. *)
Lemma load_data_after_failed_query_witness :
  exists w',
    load_data [article] engine_hiccup = (Ok tt, w')
    /\ calls w' = [Query q_load_articles [article]; RefreshSchema].
Proof.
  destruct (load_data_after_failed_query [article] engine_hiccup unavailable eq_refl)
    as (w' & H & Hc & _).
  exists w'. split; [exact H | exact Hc].
Defined.

(** C9, as the spec states it, fails when the engine is down: the query
    fails, and the error of the schema refresh reaches the caller. *)
Lemma load_data_raises_when_engine_is_down :
  engine engine_down [Query q_load_articles [article]] = Raise unavailable
  /\ fst (load_data [article] engine_down) = Raise unavailable.
Proof. split; reflexivity. Qed.

End LoadTheorems.

(** ** The repulsion pass *)

Module LayoutFacts.
Import Layout LayoutSpec.

Lemma scan_nudged A threshold i js pos pos' :
  scan A threshold i js pos = Some pos' -> nudged A threshold pos pos'.
Proof.
  induction js as [|j js IH]; simpl; [discriminate|].
  destruct (j <=? i)%nat eqn:Hji; [exact IH|].
  destruct (pos !! i) as [p|] eqn:Hp; [|exact IH].
  destruct (pos !! j) as [q|] eqn:Hq; [|exact IH].
  destruct (too_close A threshold p q) eqn:Hc; [|exact IH].
  intros H. injection H as <-. exists i, j, p, q.
  apply Nat.leb_gt in Hji. auto.
Qed.

Lemma avoid_overlap_more_fuel A threshold fuel : forall pos pos' extra,
  avoid_overlap A fuel threshold pos = Some pos' ->
  avoid_overlap A (fuel + extra) threshold pos = Some pos'.
Proof.
  induction fuel as [|fuel IH]; intros pos pos' extra; simpl; [discriminate|].
  destruct (sweep A threshold pos) as [pos1 [|]]; [apply IH | auto].
Qed.

Lemma nudged_length A threshold pos pos' :
  nudged A threshold pos pos' -> length pos' = length pos.
Proof. intros (i & j & p & q & _ & _ & _ & _ & ->). rewrite !length_insert. reflexivity. Qed.

Lemma sweep_from_length A threshold n idxs : forall pos ov,
  length (fst (sweep_from A threshold n idxs pos ov)) = length pos.
Proof.
  induction idxs as [|i idxs IH]; intros pos ov; simpl; [reflexivity|].
  destruct (scan A threshold i (seq 0 n) pos) as [pos1|] eqn:Hscan; [|apply IH].
  rewrite IH. apply (nudged_length A threshold), scan_nudged with (i := i) (js := seq 0 n).
  exact Hscan.
Qed.

Lemma avoid_overlap_length A threshold fuel : forall pos pos',
  avoid_overlap A fuel threshold pos = Some pos' -> length pos' = length pos.
Proof.
  induction fuel as [|fuel IH]; intros pos pos'; simpl; [discriminate|].
  pose proof (sweep_from_length A threshold (length pos) (seq 0 (length pos)) pos false) as Hl.
  fold (sweep A threshold pos) in Hl.
  destruct (sweep A threshold pos) as [pos1 [|]]; simpl in Hl.
  - intros H. rewrite (IH pos1 pos' H). exact Hl.
  - intros H. injection H as <-. exact Hl.
Qed.

(** An inner loop that runs to its end found no node [j > i] too close. *)
Lemma scan_none A threshold i js pos :
  scan A threshold i js pos = None ->
  forall j p q, In j js -> (i < j)%nat -> pos !! i = Some p -> pos !! j = Some q ->
    too_close A threshold p q = false.
Proof.
  induction js as [|j0 js IH]; simpl; intros H j p q Hin Hij Hp Hq; [contradiction|].
  destruct (j0 <=? i)%nat eqn:Hle.
  - destruct Hin as [-> | Hin]; [apply Nat.leb_le in Hle; lia|].
    exact (IH H j p q Hin Hij Hp Hq).
  - destruct Hin as [-> | Hin].
    + rewrite Hp, Hq in H. destruct (too_close A threshold p q); [discriminate | reflexivity].
    + apply (fun H' => IH H' j p q Hin Hij Hp Hq).
      destruct (pos !! i) as [p0|]; [|exact H].
      destruct (pos !! j0) as [q0|]; [|exact H].
      destruct (too_close A threshold p0 q0); [discriminate | exact H].
Qed.

(** A round that leaves the flag down nudged nothing. *)
Lemma sweep_from_quiet A threshold n idxs : forall pos ov pos',
  sweep_from A threshold n idxs pos ov = (pos', false) ->
  pos' = pos /\ forall i, In i idxs -> scan A threshold i (seq 0 n) pos = None.
Proof.
  induction idxs as [|i idxs IH]; intros pos ov pos' H; simpl in H.
  - injection H as <- _. split; [reflexivity | intros i []].
  - destruct (scan A threshold i (seq 0 n) pos) as [pos1|] eqn:Hscan.
    + exfalso. clear IH Hscan. revert pos1 H.
      induction idxs as [|k idxs IHk]; intros pos1 H; simpl in H; [discriminate|].
      destruct (scan A threshold k (seq 0 n) pos1); eauto.
    + destruct (IH pos ov pos' H) as [-> Hall]. split; [reflexivity|].
      intros k [<- | Hk]; auto.
Qed.

Lemma sweep_quiet A threshold pos pos' :
  sweep A threshold pos = (pos', false) -> pos' = pos /\ settled A threshold pos.
Proof.
  unfold sweep. intros H. apply sweep_from_quiet in H as [-> Hall].
  split; [reflexivity|]. intros i j p q Hij Hp Hq.
  apply lookup_lt_Some in Hq as Hj.
  apply (scan_none A threshold i (seq 0 (length pos)) pos (Hall i ltac:(apply in_seq; lia))
           j p q); auto.
  apply in_seq. lia.
Qed.

Lemma avoid_overlap_settled A threshold fuel : forall pos pos',
  avoid_overlap A fuel threshold pos = Some pos' -> settled A threshold pos'.
Proof.
  induction fuel as [|fuel IH]; intros pos pos'; simpl; [discriminate|].
  destruct (sweep A threshold pos) as [pos1 [|]] eqn:Hs; [apply IH|].
  intros H. injection H as <-. apply sweep_quiet in Hs as [-> Hs]. exact Hs.
Qed.

End LayoutFacts.

Module LayoutTheorems.
Import Layout LayoutSpec LayoutFacts Samples.

(** X3: in any arithmetic, that of Python floats included, a layout the
    pass returns has as many nodes as the one it was given, and no two of
    them are too close. *)
Theorem avoid_overlap_result_settled
    (A : Arith) (threshold : num A) (fuel : nat) (pos pos' : list (point A)) :
  avoid_overlap A fuel threshold pos = Some pos' ->
  length pos' = length pos /\ settled A threshold pos'.
Proof.
  intros H. split.
  - eapply avoid_overlap_length. exact H.
  - eapply avoid_overlap_settled. exact H.
Qed.

(** Three nodes on the origin, in Python floats: one nudge, then rest. *)
Lemma avoid_overlap_result_settled_witness :
  exists pos',
    avoid_overlap binary64 2 (tenth binary64) [(0, 0); (0, 0); (0, 0)]%float = Some pos'
    /\ length pos' = 3
    /\ settled binary64 (tenth binary64) pos'.
Proof.
  eexists. split; [vm_compute; reflexivity|].
  apply (avoid_overlap_result_settled binary64 (tenth binary64) 2
           [(0, 0); (0, 0); (0, 0)]%float).
  vm_compute. reflexivity.
Defined.

End LayoutTheorems.

(** ** The plain variant *)

Module PlainFacts.
Import Py Eff Sqldb Store Plain EffFacts StoreSpec StoreFacts SourcesFacts PlainSpec.

Lemma plain_add_one_ok self data w tb :
  tables w !! "sources" = Some tb ->
  columns tb = ct_columns sources_table_sql ->
  pkey tb = "id" ->
  bindable data ->
  existsb (matches "id" (SText (uuid_seed w (uuid_next w)))) (rows tb) = false ->
  exists w' e,
    plain_add_one self data w = (Ok tt, w')
    /\ read_back e = data_entities data
    /\ tables w' = <["sources" := with_rows tb (rows tb ++
                        [plain_row self (uuid_seed w (uuid_next w)) data e])]> (tables w)
    /\ uuid_seed w' = uuid_seed w /\ uuid_next w' = S (uuid_next w).
Proof.
  intros Ht Hc Hp Hb Hfree.
  unfold plain_add_one, bind, uuid4_str, execute_query, insert_source_sql. simpl.
  rewrite Ht, Hc. simpl.
  destruct Hb as [Hb | [e Hb]]; rewrite Hb; simpl;
    unfold pkey_taken; rewrite Hp; simpl;
    change (cell "id" _) with (SText (uuid_seed w (uuid_next w)));
    rewrite Hfree; simpl.
  - exists (mkWorld
              (<["sources" := with_rows tb (rows tb ++
                   [plain_row self (uuid_seed w (uuid_next w)) data SNull])]> (tables w))
              (log w) (exported w) (uuid_seed w) (S (uuid_next w))), SNull.
    simpl. auto.
  - exists (mkWorld
              (<["sources" := with_rows tb (rows tb ++
                   [plain_row self (uuid_seed w (uuid_next w)) data (SText e)])]> (tables w))
              (log w) (exported w) (uuid_seed w) (S (uuid_next w))), (SText e).
    simpl. auto.
Qed.

Lemma plain_add_loop_ok self batch : forall w tb,
  tables w !! "sources" = Some tb ->
  columns tb = ct_columns sources_table_sql ->
  pkey tb = "id" ->
  Forall bindable batch ->
  NoDup (drawn_ids w (length batch)) ->
  Forall (fun u => existsb (matches "id" (SText u)) (rows tb) = false)
         (drawn_ids w (length batch)) ->
  exists w' es,
    for_each batch (plain_add_one self) w = (Ok tt, w')
    /\ Forall2 (fun e d => read_back e = data_entities d) es batch
    /\ tables w' = <["sources" := with_rows tb (rows tb ++
                        zip_with (fun ud e => plain_row self (fst ud) (snd ud) e)
                                 (zip (drawn_ids w (length batch)) batch) es)]>
                   (tables w)
    /\ uuid_seed w' = uuid_seed w.
Proof.
  induction batch as [|data batch IH]; intros w tb Ht Hc Hp Hb Hnd Hfree.
  - exists w, []. split; [reflexivity|]. split; [constructor|]. split; [|reflexivity]. simpl.
    rewrite app_nil_r. symmetry. apply insert_id. rewrite Ht. destruct tb; reflexivity.
  - simpl length in *. rewrite drawn_ids_S in *.
    apply NoDup_cons in Hnd as [Hnotin Hnd]. apply Forall_cons in Hfree as [Hf1 Hfree].
    apply Forall_cons in Hb as [Hb1 Hb].
    destruct (plain_add_one_ok self data w tb Ht Hc Hp Hb1 Hf1)
      as (w1 & e & Hrun & He & Htab & Hseed & Hnext).
    set (u := uuid_seed w (uuid_next w)) in *.
    set (tb1 := with_rows tb (rows tb ++ [plain_row self u data e])) in *.
    assert (Hids : drawn_ids w1 (length batch)
                   = map (fun k => uuid_seed w (S (uuid_next w) + k)) (seq 0 (length batch))).
    { unfold drawn_ids. rewrite Hseed, Hnext. reflexivity. }
    destruct (IH w1 tb1) as (w' & es & Hrun' & Hes & Htab' & Hseed').
    + rewrite Htab. apply lookup_insert_eq.
    + exact Hc.
    + exact Hp.
    + exact Hb.
    + rewrite Hids. exact Hnd.
    + rewrite Hids. apply Forall_forall. intros v Hv. simpl.
      apply existsb_app_false.
      * rewrite Forall_forall in Hfree. apply Hfree. exact Hv.
      * unfold matches. simpl. apply String.eqb_neq. intros ->. apply Hnotin. exact Hv.
    + exists w', (e :: es). split; [|split; [|split]].
      * simpl. erewrite bind_ok by exact Hrun. exact Hrun'.
      * constructor; assumption.
      * rewrite Htab', Htab, insert_insert_eq. f_equal.
        unfold tb1. unfold with_rows. simpl. f_equal. rewrite <- app_assoc. simpl.
        rewrite Hids. reflexivity.
      * congruence.
Qed.

Lemma plain_rows_match self : forall uds es,
  List.filter (matches "claim_id" (SText (id self)))
    (zip_with (fun ud e => plain_row self (fst ud) (snd ud) e) uds es)
  = zip_with (fun ud e => plain_row self (fst ud) (snd ud) e) uds es.
Proof.
  induction uds as [|ud uds IH]; intros [|e es]; simpl; try reflexivity.
  unfold matches at 1. simpl. rewrite String.eqb_refl. f_equal. apply IH.
Qed.

Lemma plain_row_read self u d e w :
  u <> "" -> read_back e = data_entities d ->
  source_of_row (plain_row self u d e) w = (Ok (plain_stored self u d), w).
Proof.
  intros Hu He. unfold plain_stored. rewrite <- He.
  destruct e; destruct u; try congruence; reflexivity.
Qed.

(** Reading the new rows builds the sources supplied, without drawing a
    UUID, the identifiers kept being non-empty. *)
Lemma plain_rows_read self : forall ids batch es w,
  Forall (fun u => u <> "") ids ->
  Forall2 (fun e d => read_back e = data_entities d) es batch ->
  length ids = length batch ->
  sources_of_rows (zip_with (fun ud e => plain_row self (fst ud) (snd ud) e)
                            (zip ids batch) es) w
  = (Ok (zip_with (plain_stored self) ids batch), w).
Proof.
  induction ids as [|u ids IH]; intros [|d batch] es w Hne Hes Hlen; simpl in Hlen; try lia.
  - inversion Hes; subst. reflexivity.
  - inversion Hes as [|e d' es' batch' He Hes']; subst.
    apply Forall_cons in Hne as [Hu Hne].
    cbn [zip zip_with sources_of_rows].
    erewrite bind_ok by (cbn [fst snd]; apply plain_row_read; assumption).
    erewrite bind_ok by (apply IH; [exact Hne | exact Hes' | lia]).
    reflexivity.
Qed.

End PlainFacts.

Module PlainTheorems.
Import Py Eff Sqldb Store Plain EffFacts StoreSpec StoreFacts SourcesFacts PlainSpec PlainFacts.
Import Samples.

(** X4: in the plain variant, on a store whose sources table is absent or
    has the schema of the plain [add_sources], for a claim that has no
    source yet and a batch whose entities are each [None] or a string, the
    UUIDs drawn being distinct, new and not empty: [add_sources] succeeds and
    [get_sources] then returns one [Source] per record, in the order added,
    with the fields supplied and the entities as they were supplied. *)
Theorem plain_add_sources_then_get_sources
    (w : World) (self : Claim) (batch : list SourceData) :
  has_schema sources_table_sql (tables w) ->
  fresh_for "sources" "id" (drawn_ids w (length batch)) (tables w) ->
  Forall (fun u => u <> "") (drawn_ids w (length batch)) ->
  Forall bindable batch ->
  key_free "sources" "claim_id" (id self) (tables w) ->
  exists w1 w2,
    add_sources self batch w = (Ok tt, w1)
    /\ get_sources self w1
       = (Ok (zip_with (plain_stored self) (drawn_ids w (length batch)) batch), w2).
Proof.
  intros Hs [Hnd Hfree] Hne Hb Hnone.
  destruct (db_create_lookup _ _ Hs) as (tb & Htb & Hc & Hp & Hr). simpl in Htb, Hp, Hr.
  set (wa := set_tables (db_create sources_table_sql (tables w))
               (snd (emit Log.INFO "Claim" "Adding sources for claim ID %s."
                          [Log.AStr (id self)] w))).
  destruct (plain_add_loop_ok self batch wa tb) as (wb & es & Hloop & Hes & Htab & _);
    try assumption.
  { rewrite Hr. exact Hfree. }
  set (ids := drawn_ids w (length batch)) in *.
  change (drawn_ids wa (length batch)) with ids in *.
  eexists _, _. split.
  - unfold add_sources. erewrite bind_ok by reflexivity.
    erewrite bind_ok by reflexivity. fold (plain_add_one self).
    change (set_tables _ _) with wa.
    erewrite bind_ok by exact Hloop. erewrite bind_ok by reflexivity. reflexivity.
  - unfold get_sources. erewrite bind_ok by reflexivity.
    unfold fetch_all at 1. unfold bind at 1. simpl tables. rewrite Htab.
    unfold db_fetch. rewrite lookup_insert_eq. simpl columns. rewrite Hc. simpl negb.
    cbv iota. simpl bind_param. cbv iota. simpl rows.
    rewrite List.filter_app, plain_rows_match.
    rewrite filter_none by (rewrite Hr; exact Hnone). simpl app.
    erewrite bind_ok.
    2:{ apply plain_rows_read; [exact Hne | exact Hes |]. apply drawn_ids_length. }
    erewrite bind_ok by reflexivity. reflexivity.
Qed.

(** Entities that are a string come back as they were. *)
Lemma plain_add_sources_then_get_sources_witness :
  exists w1 w2,
    add_sources plain_claim [plain_source] fresh_world = (Ok tt, w1)
    /\ get_sources plain_claim w1
       = (Ok [mkSource (VStr "uuid-0") (VStr "c1") (VStr "Globe") (VStr "http://a")
                       (VStr "a") (VStr "body") (VStr "Earth") (VStr "science")], w2).
Proof.
  apply (plain_add_sources_then_get_sources fresh_world plain_claim [plain_source]).
  - exact I.
  - split; [apply NoDup_singleton | repeat constructor].
  - repeat constructor. discriminate.
  - constructor; [right; eexists; reflexivity | constructor].
  - reflexivity.
Defined.

(** A list of entities is refused by the driver, and the batch fails. *)
Example plain_add_sources_refuses_list :
  fst (add_sources plain_claim
         [mkSourceData "Globe" "http://a" "a" "body" (VList [VStr "Earth"]) "science"]
         fresh_world)
  = Raise (unsupported_type 7 "list").
Proof. reflexivity. Qed.

End PlainTheorems.

(** ** Strings *)

Module StringFacts.
Import Py.

Lemma append_cons c s t : String c s +:+ t = String c (s +:+ t).
Proof. reflexivity. Qed.

Lemma length_append s t : String.length (s +:+ t) = String.length s + String.length t.
Proof. induction s as [|c s IH]; simpl; [reflexivity | rewrite IH; reflexivity]. Qed.

Lemma take_chars_length n s : String.length (take_chars n s) = Nat.min n (String.length s).
Proof.
  revert s. induction n as [|n IH]; intros [|c s]; simpl; try reflexivity.
  rewrite IH. reflexivity.
Qed.

Lemma take_drop_chars n s : take_chars n s +:+ drop_chars n s = s.
Proof.
  revert s. induction n as [|n IH]; intros [|c s]; simpl; try reflexivity.
  rewrite append_cons, IH. reflexivity.
Qed.

Lemma take_chars_all n s : String.length s <= n -> take_chars n s = s.
Proof.
  revert s. induction n as [|n IH]; intros [|c s] H; simpl in *; try reflexivity; try lia.
  rewrite IH by lia. reflexivity.
Qed.

Lemma take_take_chars m n s : m <= n -> take_chars m (take_chars n s) = take_chars m s.
Proof.
  revert n s. induction m as [|m IH]; intros [|n] [|c s] H; simpl; try reflexivity; try lia.
  rewrite IH by lia. reflexivity.
Qed.

Lemma drop_chars_len n s : String.length (drop_chars n s) = String.length s - n.
Proof.
  revert s. induction n as [|n IH]; intros [|c s]; simpl; try reflexivity; try lia.
  apply IH.
Qed.

Lemma slice_to_nonneg k s : (0 <= k)%Z -> slice_to k s = take_chars (Z.to_nat k) s.
Proof. intros H. unfold slice_to. apply Z.leb_le in H. rewrite H. reflexivity. Qed.

Lemma slice_to_neg k s :
  (k < 0)%Z -> slice_to k s = take_chars (String.length s - Z.to_nat (- k)) s.
Proof.
  intros H. unfold slice_to. destruct (0 <=? k)%Z eqn:E; [apply Z.leb_le in E; lia|].
  f_equal. lia.
Qed.

End StringFacts.

(** ** The labels of a picture *)

Module LabelFacts.
Import Py Visualizer LabelSpec StringFacts.

Lemma rfind_char_lt c s k : rfind_char c s = Some k -> k < String.length s.
Proof.
  revert k. induction s as [|d s IH]; intros k; simpl; [discriminate|].
  destruct (rfind_char c s) as [j|].
  - intros H. injection H as <-. specialize (IH j eq_refl). lia.
  - destruct (Ascii.eqb c d); [|discriminate]. intros H. injection H as <-. lia.
Qed.

Lemma split_label_long label max_len :
  (0 < max_len)%Z -> (max_len < len label)%Z ->
  split_label label max_len
  = take_chars (split_point label max_len) label
    +:+ String newline (shown (drop_chars (split_point label max_len) label) max_len)
  /\ (Z.of_nat (split_point label max_len) < max_len)%Z.
Proof.
  intros Hpos Hlong. unfold split_label, len in *.
  destruct (Z.of_nat (String.length label) <=? max_len)%Z eqn:E;
    [apply Z.leb_le in E; lia|].
  rewrite (slice_to_nonneg max_len label) by lia.
  set (n := Z.to_nat max_len) in *.
  assert (Hn : String.length (take_chars n label) = n).
  { rewrite take_chars_length. lia. }
  rewrite Hn. replace (Z.of_nat n =? max_len)%Z with true by (symmetry; apply Z.eqb_eq; lia).
  unfold split_point. fold n. unfold rfind.
  destruct (rfind_char space (take_chars n label)) as [k|] eqn:Hk.
  - apply rfind_char_lt in Hk as Hlt. rewrite Hn in Hlt.
    rewrite slice_to_nonneg by lia. rewrite Nat2Z.id.
    rewrite take_take_chars by lia.
    assert (Hlen : String.length (take_chars k label) = k) by (rewrite take_chars_length; lia).
    rewrite Hlen. split; [|lia]. unfold shown, len.
    destruct (max_len <? _)%Z; [|reflexivity].
    rewrite slice_to_nonneg by lia. reflexivity.
  - rewrite slice_to_neg by lia. rewrite Hn. change (Z.to_nat (- -1)) with 1.
    rewrite take_take_chars by lia.
    assert (Hlen : String.length (take_chars (n - 1) label) = n - 1)
      by (rewrite take_chars_length; lia).
    rewrite Hlen. split; [|lia]. unfold shown, len.
    destruct (max_len <? _)%Z; [|reflexivity].
    rewrite slice_to_nonneg by lia. reflexivity.
Qed.

Lemma rfind_char_none c s : rfind_char c s = None <-> mem_char c s = false.
Proof.
  induction s as [|d s IH]; simpl; [tauto|].
  destruct (rfind_char c s) as [j|].
  - split; [discriminate|]. intros H. apply orb_false_iff in H as [_ H].
    apply IH in H. discriminate.
  - destruct IH as [IH _]. rewrite (IH eq_refl), orb_false_r.
    destruct (Ascii.eqb c d); split; congruence.
Qed.

Lemma rfind_char_last c s k :
  rfind_char c s = Some k ->
  exists rest, drop_chars k s = String c rest /\ mem_char c rest = false.
Proof.
  revert k. induction s as [|d s IH]; intros k; simpl; [discriminate|].
  destruct (rfind_char c s) as [j|] eqn:E.
  - intros H. injection H as <-. simpl. apply IH. reflexivity.
  - destruct (Ascii.eqb c d) eqn:Ec; [|discriminate]. intros H. injection H as <-.
    apply Ascii.eqb_eq in Ec. subst d. exists s. split; [reflexivity|].
    apply rfind_char_none. exact E.
Qed.

Lemma drop_take_chars k n s :
  drop_chars k (take_chars n s) = take_chars (n - k) (drop_chars k s).
Proof.
  revert n s. induction k as [|k IH]; intros n s.
  - simpl. rewrite Nat.sub_0_r. reflexivity.
  - destruct n as [|n]; destruct s as [|c s']; simpl; try reflexivity.
    + destruct (n - k); reflexivity.
    + apply IH.
Qed.

End LabelFacts.

Module LabelTheorems.
Import Py Visualizer LabelSpec StringFacts LabelFacts.

(** X5: [split_label] returns a label of at most [max_len] characters as
    it is.  A longer one becomes two lines: the first is a beginning of the
    label, shorter than [max_len]; the second has at most [max_len + 3]
    characters; when the rest of the label fits in [max_len] characters the
    two lines together are the label, and otherwise the second line is the
    next [max_len] characters followed by three dots. *)
Theorem split_label_lines (label : string) (max_len : Z) :
  (0 < max_len)%Z ->
  ((len label <= max_len)%Z -> split_label label max_len = label)
  /\ ((max_len < len label)%Z ->
      exists first second,
        split_label label max_len = first +:+ String newline second
        /\ (len first < max_len)%Z /\ (len second <= max_len + 3)%Z
        /\ first = take_chars (String.length first) label
        /\ ((len label - len first <= max_len)%Z -> first +:+ second = label)
        /\ ((max_len < len label - len first)%Z ->
            second = take_chars (Z.to_nat max_len) (drop_chars (String.length first) label)
                     +:+ "...")).
Proof.
  intros Hpos. split.
  - intros H. unfold split_label. apply Z.leb_le in H. rewrite H. reflexivity.
  - intros Hlong. destruct (split_label_long label max_len Hpos Hlong) as [Heq Hcut].
    set (cut := split_point label max_len) in *.
    assert (Hfirst : String.length (take_chars cut label) = cut).
    { rewrite take_chars_length. unfold len in Hlong. lia. }
    assert (Hrest : String.length (drop_chars cut label) = String.length label - cut)
      by apply drop_chars_len.
    exists (take_chars cut label), (shown (drop_chars cut label) max_len).
    split; [exact Heq|]. unfold len in *. rewrite Hfirst.
    split; [exact Hcut|]. unfold shown, len. rewrite Hrest.
    destruct (max_len <? Z.of_nat (String.length label - cut))%Z eqn:E.
    + apply Z.ltb_lt in E. split.
      { rewrite length_append, take_chars_length, Hrest. simpl. lia. }
      split; [reflexivity|]. split; [lia | reflexivity].
    + apply Z.ltb_ge in E. split; [lia|]. split; [reflexivity|].
      split; [intros _; apply take_drop_chars | lia].
Qed.

(** A title of nineteen characters on two lines. *)
Lemma split_label_lines_witness :
  (0 < 15)%Z /\ (15 < len "The quick brown fox")%Z
  /\ exists first second,
       split_label "The quick brown fox" 15 = first +:+ String newline second
       /\ (len first < 15)%Z /\ (len second <= 15 + 3)%Z.
Proof.
  split; [lia|]. split; [reflexivity|].
  destruct (split_label_lines "The quick brown fox" 15 ltac:(lia)) as [_ H].
  destruct (H ltac:(reflexivity)) as (first & second & Heq & Hfirst & Hsecond & _).
  exists first, second. split; [exact Heq|]. split; [exact Hfirst | exact Hsecond].
Defined.

(** X6: where [split_label] splits a label longer than [max_len].  When
    the first [max_len] characters hold no space, the first line is the
    first [max_len - 1] characters: a word is cut, one character short of
    the limit.  When they hold a space, the label is split before the last
    such space, which then opens the second line. *)
Theorem split_label_split_point (label : string) (max_len : Z) :
  (0 < max_len)%Z -> (max_len < len label)%Z ->
  (mem_char space (take_chars (Z.to_nat max_len) label) = false ->
   split_label label max_len
   = take_chars (Z.to_nat max_len - 1) label
     +:+ String newline (shown (drop_chars (Z.to_nat max_len - 1) label) max_len))
  /\ (mem_char space (take_chars (Z.to_nat max_len) label) = true ->
      exists k rest,
        k < Z.to_nat max_len
        /\ drop_chars k label = String space rest
        /\ mem_char space (take_chars (Z.to_nat max_len - k - 1) rest) = false
        /\ split_label label max_len
           = take_chars k label +:+ String newline (shown (String space rest) max_len)).
Proof.
  intros Hpos Hlong.
  destruct (split_label_long label max_len Hpos Hlong) as [Heq Hcut].
  unfold split_point in *.
  destruct (rfind_char space (take_chars (Z.to_nat max_len) label)) as [k|] eqn:Hk.
  - split.
    + intros Hno. apply rfind_char_none in Hno. congruence.
    + intros _. destruct (rfind_char_last _ _ _ Hk) as (rest & Hdrop & Hrest).
      rewrite drop_take_chars in Hdrop.
      destruct (drop_chars k label) as [|c rest'] eqn:Hd.
      { destruct (Z.to_nat max_len - k); discriminate. }
      destruct (Z.to_nat max_len - k) as [|m] eqn:Hm; [discriminate|].
      simpl in Hdrop. injection Hdrop as -> <-.
      exists k, rest'. split; [lia|]. split; [exact Hd|].
      replace (Z.to_nat max_len - k - 1) with m by lia.
      split; [exact Hrest | exact Heq].
  - split; [intros _; exact Heq|].
    intros Hyes. apply rfind_char_none in Hk. congruence.
Qed.

(** A word of twenty letters is cut after fourteen. *)
Lemma split_label_split_point_witness :
  (0 < 15)%Z /\ (15 < len "Supercalifragilistic")%Z
  /\ split_label "Supercalifragilistic" 15
     = "Supercalifragi" +:+ String newline "listic".
Proof.
  split; [lia|]. split; [reflexivity|].
  exact (proj1 (split_label_split_point "Supercalifragilistic" 15
                  ltac:(lia) ltac:(reflexivity)) ltac:(reflexivity)).
Defined.

End LabelTheorems.

(** ** The colours of a picture *)

Module PictureFacts.
Import Py Eff Visualizer PictureSpec.

Lemma assoc_dict_set_eq k v d : Sqldb.assoc k (dict_set k v d) = Some v.
Proof.
  induction d as [|[k' v'] d IH]; simpl.
  - rewrite String.eqb_refl. reflexivity.
  - destruct (String.eqb k k') eqn:E; simpl; rewrite E; [reflexivity | exact IH].
Qed.

Lemma assoc_dict_set_ne k x v d :
  x <> k -> Sqldb.assoc x (dict_set k v d) = Sqldb.assoc x d.
Proof.
  intros Hne. induction d as [|[k' v'] d IH]; simpl.
  - destruct (String.eqb x k) eqn:E; [apply String.eqb_eq in E; contradiction | reflexivity].
  - destruct (String.eqb k k') eqn:E; simpl.
    + apply String.eqb_eq in E. subst k'.
      destruct (String.eqb x k) eqn:E'; [apply String.eqb_eq in E'; contradiction | reflexivity].
    + rewrite IH. reflexivity.
Qed.

(** *** [unique] *)

Lemma In_filter_ne x y l :
  In y (List.filter (fun z => negb (String.eqb x z)) l) <-> In y l /\ x <> y.
Proof.
  rewrite filter_In. split; intros [H1 H2]; split; try assumption.
  - intros ->. rewrite String.eqb_refl in H2. discriminate.
  - destruct (String.eqb x y) eqn:E; [apply String.eqb_eq in E; contradiction | reflexivity].
Qed.

Lemma unique_In x l : In x (unique l) <-> In x l.
Proof.
  induction l as [|y l IH]; simpl; [tauto|].
  rewrite In_filter_ne, IH. destruct (String.eqb_spec y x); tauto.
Qed.

Lemma NoDup_filter_list {A} (f : A -> bool) l : List.NoDup l -> List.NoDup (List.filter f l).
Proof.
  induction 1 as [|x l Hx Hl IH]; simpl; [constructor|].
  destruct (f x); [|exact IH]. constructor; [|exact IH].
  rewrite filter_In. tauto.
Qed.

Lemma unique_NoDup l : List.NoDup (unique l).
Proof.
  induction l as [|y l IH]; simpl; constructor.
  - rewrite In_filter_ne. tauto.
  - apply NoDup_filter_list, IH.
Qed.

(** *** The colour map *)

Lemma cycle_color_ok colors i :
  colors <> [] ->
  exists c, cycle_color colors i = Ok c
            /\ nth_error colors (i mod length colors) = Some c.
Proof.
  intros Hne. unfold cycle_color. destruct colors as [|c0 cs]; [contradiction|].
  destruct (nth_error (c0 :: cs) (i mod length (c0 :: cs))) as [c|] eqn:E.
  - exists c. split; reflexivity.
  - apply nth_error_None in E.
    pose proof (Nat.mod_upper_bound i (length (c0 :: cs)) ltac:(simpl; lia)). lia.
Qed.

Lemma fill_color_map_ok colors us : forall i color_map,
  colors <> [] -> List.NoDup us ->
  exists filled,
    fill_color_map colors i us color_map = Ok filled
    /\ (forall x, ~ In x us -> Sqldb.assoc x filled = Sqldb.assoc x color_map)
    /\ (forall k x, nth_error us k = Some x ->
          Sqldb.assoc x filled = nth_error colors ((i + k) mod length colors)).
Proof.
  induction us as [|u us IH]; intros i color_map Hne Hnd.
  - exists color_map. split; [reflexivity|]. split; [reflexivity|].
    intros [|k] x H; discriminate.
  - inversion Hnd as [|? ? Hu Hus]; subst.
    destruct (cycle_color_ok colors i Hne) as (c & Hc & Hnth).
    destruct (IH (S i) (dict_set u c color_map) Hne Hus) as (filled & Hf & Hout & Hin).
    exists filled. simpl. rewrite Hc. split; [exact Hf|]. split.
    + intros x Hx. rewrite Hout by (intros H; apply Hx; right; exact H).
      apply assoc_dict_set_ne. intros ->. apply Hx. left. reflexivity.
    + intros [|k] x Hk; simpl in Hk.
      * injection Hk as ->. rewrite (Hout x Hu), assoc_dict_set_eq, Nat.add_0_r.
        symmetry. exact Hnth.
      * rewrite (Hin k x Hk). f_equal. f_equal. lia.
Qed.

(** *** The edges of the graph *)

Lemma edges_app g h : edges (g ++ h) = edges g ++ edges h.
Proof. unfold edges. apply flat_map_app. Qed.

Lemma edges_add_node u g : edges (add_node u g) = edges g.
Proof.
  unfold add_node. destruct (has_node u g); [reflexivity|].
  rewrite edges_app. simpl. apply app_nil_r.
Qed.

Lemma dict_set_In k v d p :
  In p (dict_set k v d) -> p = (k, v) \/ In p d.
Proof.
  induction d as [|[k' v'] d IH]; simpl.
  - intros [<-|[]]. left. reflexivity.
  - destruct (String.eqb k k') eqn:E; simpl.
    + apply String.eqb_eq in E. subst k'. intros [<-|H]; [left; reflexivity | right; right; exact H].
    + intros [<-|H]; [right; left; reflexivity|]. destruct (IH H); [left | right; right]; assumption.
Qed.

Lemma edges_put_edge u v label g e :
  In e (edges (put_edge u v label g)) -> e = (u, v, label) \/ In e (edges g).
Proof.
  induction g as [|[n succs] g IH]; simpl; [tauto|].
  destruct (String.eqb u n) eqn:E.
  - apply String.eqb_eq in E. subst n. unfold edges. simpl.
    rewrite !in_app_iff, !in_map_iff. intros [(s & <- & Hs)|H].
    + apply dict_set_In in Hs as [->|Hs]; [left; reflexivity|].
      right. left. exists s. split; [reflexivity | exact Hs].
    + right. right. exact H.
  - unfold edges. simpl. fold (edges (put_edge u v label g)). fold (edges g).
    rewrite !in_app_iff. intros [H|H]; [right; left; exact H|].
    destruct (IH H); [left | right; right]; assumption.
Qed.

Lemma edges_build_graph edge_label rows : forall g e,
  In e (edges (build_graph edge_label rows g)) ->
  In e (edges g) \/ (In (fst e) rows /\ snd e = edge_label).
Proof.
  induction rows as [|[a b] rows IH]; intros g e; simpl; [tauto|].
  intros H. apply IH in H as [H|[H1 H2]].
  - unfold add_edge in H. apply edges_put_edge in H as [->|H].
    + right. split; [left; reflexivity | reflexivity].
    + rewrite !edges_add_node in H. left. exact H.
  - right. split; [right; exact H1 | exact H2].
Qed.

Lemma edge_target_in_rows edge_label rows e :
  In e (edges (build_graph edge_label rows [])) -> In (snd (fst e)) (map snd rows).
Proof.
  intros H. apply edges_build_graph in H as [[]|[H _]].
  apply in_map_iff. exists (fst e). split; [reflexivity | exact H].
Qed.

Lemma comprehension_total {A B} (f : A -> result B) (g : A -> B) xs :
  (forall x, In x xs -> f x = Ok (g x)) -> comprehension f xs = Ok (map g xs).
Proof.
  induction xs as [|x xs IH]; intros H; simpl; [reflexivity|].
  rewrite (H x) by (left; reflexivity). rewrite IH; [reflexivity|].
  intros y Hy. apply H. right. exact Hy.
Qed.

Lemma create_and_save_graph_ok colors edge_label rows :
  colors <> [] ->
  exists color_map,
    (forall x, ~ In x (map snd rows) -> Sqldb.assoc x color_map = None)
    /\ (forall k x, nth_error (unique (map snd rows)) k = Some x ->
          exists c, nth_error colors (k mod length colors) = Some c
                    /\ Sqldb.assoc x color_map = Some c)
    /\ create_and_save_graph colors edge_label rows
       = Ok (let g := build_graph edge_label rows [] in
             mkPicture g (map (colour_of color_map) (nodes g))
               (map (fun e => colour_of color_map (snd (fst e))) (edges g))
               (edges g)
               (map (fun node => (node, split_label node max_len)) (nodes g))).
Proof.
  intros Hne.
  destruct (fill_color_map_ok colors (unique (map snd rows)) 0 [] Hne (unique_NoDup _))
    as (cm & Hfill & Hout & Hin).
  assert (Hin' : forall k x, nth_error (unique (map snd rows)) k = Some x ->
            exists c, nth_error colors (k mod length colors) = Some c
                      /\ Sqldb.assoc x cm = Some c).
  { intros k x Hk. rewrite (Hin k x Hk). simpl.
    destruct (nth_error colors (k mod length colors)) as [c|] eqn:E.
    - exists c. split; reflexivity.
    - apply nth_error_None in E.
      assert (length colors <> 0) by (destruct colors; [contradiction | simpl; lia]).
      pose proof (Nat.mod_upper_bound k (length colors) ltac:(assumption)). lia. }
  exists cm. split.
  { intros x Hx. rewrite Hout; [reflexivity|]. rewrite unique_In. exact Hx. }
  split; [exact Hin'|].
  unfold create_and_save_graph. rewrite Hfill.
  rewrite (comprehension_total (edge_color cm) (fun e => colour_of cm (snd (fst e)))).
  - reflexivity.
  - intros e He. apply edge_target_in_rows in He. apply unique_In in He.
    apply In_nth_error in He as [k Hk]. destruct (Hin' k _ Hk) as (c & _ & Hc).
    unfold edge_color, colour_of. rewrite Hc. reflexivity.
Qed.

End PictureFacts.

Module PictureTheorems.
Import Py Eff Visualizer PictureSpec PictureFacts.

(** X7: with a palette that is not empty, preparing a picture from the rows
    of a query never raises: the lookup [color_map[v]] of an edge always
    finds its target.  There is one colour for each node and one for each
    edge, every edge colour is of the palette, and every node colour is of
    the palette or the neutral light blue. *)
Theorem every_node_and_edge_is_coloured
    (colors : list string) (edge_label : string) (rows : list (string * string)) :
  colors <> [] ->
  exists pic,
    create_and_save_graph colors edge_label rows = Ok pic
    /\ length (pic_node_colors pic) = length (nodes (pic_graph pic))
    /\ length (pic_edge_colors pic) = length (edges (pic_graph pic))
    /\ Forall (fun c => In c colors) (pic_edge_colors pic)
    /\ Forall (fun c => In c colors \/ c = blue_light) (pic_node_colors pic).
Proof.
  intros Hne. destruct (create_and_save_graph_ok colors edge_label rows Hne) as (cm & Hout & Hin & Hp).
  eexists. split; [exact Hp|]. cbn [pic_node_colors pic_edge_colors pic_graph].
  assert (Hcol : forall x, In x (map snd rows) -> In (colour_of cm x) colors).
  { intros x Hx. apply unique_In in Hx. apply In_nth_error in Hx as [k Hk].
    destruct (Hin k x Hk) as (c & Hc & Hx). unfold colour_of. rewrite Hx.
    eapply nth_error_In. exact Hc. }
  split; [apply length_map|]. split; [apply length_map|]. split.
  - apply List.Forall_forall. intros c Hc. apply in_map_iff in Hc as (e & <- & He).
    apply Hcol. eapply edge_target_in_rows. exact He.
  - apply List.Forall_forall. intros c Hc. apply in_map_iff in Hc as (x & <- & _).
    destruct (in_dec String.string_dec x (map snd rows)) as [Hx|Hx].
    + left. apply Hcol. exact Hx.
    + right. unfold colour_of. rewrite (Hout x Hx). reflexivity.
Qed.

(** Two articles of one site, under the ten colours of the palette. *)
Lemma every_node_and_edge_is_coloured_witness :
  tableau_colors <> []
  /\ exists pic,
       create_and_save_graph tableau_colors "PUBLISHED_ON" [("a1", "site"); ("a2", "site")] = Ok pic
       /\ length (pic_node_colors pic) = length (nodes (pic_graph pic))
       /\ length (pic_edge_colors pic) = length (edges (pic_graph pic))
       /\ Forall (fun c => In c tableau_colors) (pic_edge_colors pic)
       /\ Forall (fun c => In c tableau_colors \/ c = blue_light) (pic_node_colors pic).
Proof.
  split; [discriminate|].
  apply (every_node_and_edge_is_coloured tableau_colors "PUBLISHED_ON"
           [("a1", "site"); ("a2", "site")]).
  discriminate.
Defined.

(** X8: the colour of a node follows its rank among the targets.  The
    [k]-th distinct value of the second column, counting from zero, has the
    colour [colors[k mod len(colors)]]: wherever it stands among the nodes,
    also when it is the source of an edge, and on every edge that points to
    it.  A node that is the target of no row has the neutral light blue. *)
Theorem colour_follows_target_rank
    (colors : list string) (edge_label : string) (rows : list (string * string))
    (pic : Picture) :
  colors <> [] ->
  create_and_save_graph colors edge_label rows = Ok pic ->
  (forall k v, nth_error (unique (map snd rows)) k = Some v ->
     exists c, nth_error colors (k mod length colors) = Some c
       /\ (forall i, nth_error (nodes (pic_graph pic)) i = Some v ->
                     nth_error (pic_node_colors pic) i = Some c)
       /\ (forall i u l, nth_error (edges (pic_graph pic)) i = Some (u, v, l) ->
                         nth_error (pic_edge_colors pic) i = Some c))
  /\ (forall i node, nth_error (nodes (pic_graph pic)) i = Some node ->
        ~ In node (map snd rows) ->
        nth_error (pic_node_colors pic) i = Some blue_light).
Proof.
  intros Hne Hpic.
  destruct (create_and_save_graph_ok colors edge_label rows Hne) as (cm & Hout & Hin & Hp).
  rewrite Hp in Hpic. injection Hpic as <-.
  cbn [pic_node_colors pic_edge_colors pic_graph]. split.
  - intros k v Hk. destruct (Hin k v Hk) as (c & Hc & Hv).
    exists c. split; [exact Hc|]. split.
    + intros i Hi. rewrite nth_error_map, Hi. simpl. unfold colour_of.
      rewrite Hv. reflexivity.
    + intros i u l Hi. rewrite nth_error_map, Hi. simpl. unfold colour_of.
      rewrite Hv. reflexivity.
  - intros i node Hi Hno. rewrite nth_error_map, Hi. simpl. unfold colour_of.
    rewrite (Hout node Hno). reflexivity.
Qed.

(** Eleven sites under ten colours: the eleventh has the colour of the
    first. *)
Lemma colour_follows_target_rank_witness :
  exists pic,
    create_and_save_graph tableau_colors "PUBLISHED_ON"
      (map (fun s => ("article", s))
           ["s0"; "s1"; "s2"; "s3"; "s4"; "s5"; "s6"; "s7"; "s8"; "s9"; "s10"]) = Ok pic
    /\ nth_error (pic_edge_colors pic) 10 = nth_error (pic_edge_colors pic) 0.
Proof.
  set (rows := map (fun s => ("article", s))
           ["s0"; "s1"; "s2"; "s3"; "s4"; "s5"; "s6"; "s7"; "s8"; "s9"; "s10"]).
  destruct (create_and_save_graph tableau_colors "PUBLISHED_ON" rows) as [pic|e] eqn:Hp;
    [|vm_compute in Hp; discriminate].
  exists pic. split; [reflexivity|].
  destruct (colour_follows_target_rank tableau_colors "PUBLISHED_ON" rows pic
              ltac:(discriminate) Hp) as [Hrank _].
  destruct (Hrank 10 "s10" eq_refl) as (c10 & Hc10 & _ & He10).
  destruct (Hrank 0 "s0" eq_refl) as (c0 & Hc0 & _ & He0).
  vm_compute in Hc10, Hc0. rewrite Hc0 in Hc10. injection Hc10 as <-.
  rewrite (He10 10 "article" "PUBLISHED_ON"), (He0 0 "article" "PUBLISHED_ON").
  - reflexivity.
  - vm_compute in Hp. injection Hp as <-. reflexivity.
  - vm_compute in Hp. injection Hp as <-. reflexivity.
Defined.

End PictureTheorems.

(** ** The graph of a picture *)

Module GraphFacts.
Import Py Eff Visualizer PictureFacts GraphSpec.

Lemma has_node_In u g : has_node u g = true <-> In u (nodes g).
Proof.
  unfold has_node, nodes. rewrite existsb_exists, in_map_iff. split.
  - intros (entry & Hin & He). apply String.eqb_eq in He. exists entry. auto.
  - intros (entry & He & Hin). exists entry. split; [exact Hin|]. apply String.eqb_eq. auto.
Qed.

Lemma nodes_add_node u g x : In x (nodes (add_node u g)) <-> x = u \/ In x (nodes g).
Proof.
  unfold add_node. destruct (has_node u g) eqn:E.
  - apply has_node_In in E. split; [auto|]. intros [->|H]; assumption.
  - unfold nodes. rewrite map_app, in_app_iff. simpl. split; intros H; intuition auto.
Qed.

Lemma NoDup_snoc {A} (l : list A) x : List.NoDup l -> ~ In x l -> List.NoDup (l ++ [x]).
Proof.
  intros Hl Hx. induction Hl as [|y l Hy Hl IH]; simpl.
  - constructor; [intros [] | constructor].
  - constructor.
    + rewrite in_app_iff. simpl. intros [H|[H|[]]]; [contradiction|].
      subst. apply Hx. left. reflexivity.
    + apply IH. intros H. apply Hx. right. exact H.
Qed.

Lemma add_node_tidy label u g : tidy label g -> tidy label (add_node u g).
Proof.
  intros (Hn & Hs & Hl). unfold add_node. destruct (has_node u g) eqn:E.
  - split; [exact Hn|]. split; assumption.
  - split; [|split].
    + unfold nodes. rewrite map_app. simpl. apply NoDup_snoc; [exact Hn|].
      intros H. apply has_node_In in H. congruence.
    + intros entry Hin. apply in_app_iff in Hin as [Hin|[<-|[]]]; [apply Hs, Hin|].
      simpl. constructor.
    + intros e He. rewrite edges_app in He. simpl in He. rewrite app_nil_r in He.
      apply Hl, He.
Qed.

Lemma nodes_put_edge u v label g : nodes (put_edge u v label g) = nodes g.
Proof.
  unfold nodes. induction g as [|[n succs] g IH]; simpl; [reflexivity|].
  destruct (String.eqb u n); simpl; [reflexivity | rewrite IH; reflexivity].
Qed.

Lemma keys_dict_set k v d x :
  In x (map fst (dict_set k v d)) <-> x = k \/ In x (map fst d).
Proof.
  induction d as [|[k' v'] d IH]; simpl.
  - intuition auto.
  - destruct (String.eqb k k') eqn:E; simpl.
    + apply String.eqb_eq in E. subst k'. intuition auto.
    + rewrite IH. intuition auto.
Qed.

Lemma dict_set_NoDup k v d : List.NoDup (map fst d) -> List.NoDup (map fst (dict_set k v d)).
Proof.
  induction d as [|[k' v'] d IH]; simpl; intros Hd.
  - constructor; [intros [] | constructor].
  - inversion Hd as [|? ? Hk' Hd']; subst.
    destruct (String.eqb k k') eqn:E; simpl.
    + constructor; assumption.
    + constructor; [|apply IH, Hd'].
      rewrite keys_dict_set. intros [->|H]; [|contradiction].
      rewrite String.eqb_refl in E. discriminate.
Qed.

Lemma dict_set_In_same k v d :
  (forall p, In p d -> snd p = v) ->
  forall p, In p (dict_set k v d) <-> p = (k, v) \/ In p d.
Proof.
  intros Hall. induction d as [|[k' v'] d IH]; intros p; simpl.
  - intuition auto.
  - assert (Hv : v' = v) by (apply (Hall (k', v')); left; reflexivity).
    assert (Hall' : forall p, In p d -> snd p = v) by (intros q Hq; apply Hall; right; exact Hq).
    destruct (String.eqb k k') eqn:E; simpl.
    + apply String.eqb_eq in E. subst k' v'. intuition auto.
    + rewrite (IH Hall'). intuition auto.
Qed.

Lemma edges_cons n succs g :
  edges ((n, succs) :: g) = map (fun s => (n, fst s, snd s)) succs ++ edges g.
Proof. reflexivity. Qed.

Lemma edge_source_node g e : In e (edges g) -> In (fst (fst e)) (nodes g).
Proof.
  induction g as [|[n succs] g IH]; [simpl; tauto|].
  rewrite edges_cons, in_app_iff, in_map_iff. intros [(s & <- & _)|H].
  - left. reflexivity.
  - right. apply IH, H.
Qed.

Lemma edges_put_edge_iff u v label g :
  tidy label g -> In u (nodes g) ->
  forall e, In e (edges (put_edge u v label g)) <-> e = (u, v, label) \/ In e (edges g).
Proof.
  intros (_ & _ & Hl). induction g as [|[n succs] g IH]; intros Hu e; [simpl in *; tauto|].
  cbn [put_edge]. change (nodes ((n, succs) :: g)) with (n :: nodes g) in Hu.
  assert (Hl' : forall e, In e (edges g) -> snd e = label).
  { intros e' He'. apply Hl. rewrite edges_cons, in_app_iff. right. exact He'. }
  destruct (String.eqb u n) eqn:E.
  - apply String.eqb_eq in E. subst n. rewrite !edges_cons, !in_app_iff, !in_map_iff.
    assert (Hsame : forall p, In p succs -> snd p = label).
    { intros p Hp. apply (Hl (u, fst p, snd p)). rewrite edges_cons, in_app_iff. left.
      apply in_map_iff. exists p. auto. }
    split.
    + intros [(s & <- & Hs)|H]; [|auto].
      apply (dict_set_In_same v label succs Hsame) in Hs as [->|Hs]; [left; reflexivity|].
      right. left. exists s. auto.
    + intros [->|[(s & <- & Hs)|H]]; [| |auto].
      * left. exists (v, label). split; [reflexivity|].
        apply (dict_set_In_same v label succs Hsame). left. reflexivity.
      * left. exists s. split; [reflexivity|].
        apply (dict_set_In_same v label succs Hsame). right. exact Hs.
  - destruct Hu as [Hu|Hu]; [subst; rewrite String.eqb_refl in E; discriminate|].
    rewrite !edges_cons, !in_app_iff. rewrite (IH Hl' Hu). tauto.
Qed.

Lemma put_edge_tidy u v label g : tidy label g -> In u (nodes g) -> tidy label (put_edge u v label g).
Proof.
  intros Ht Hu. pose proof (edges_put_edge_iff u v label g Ht Hu) as Hiff.
  destruct Ht as (Hn & Hs & Hl). split; [|split].
  - rewrite nodes_put_edge. exact Hn.
  - clear Hiff Hl Hn Hu. induction g as [|[n succs] g IH]; simpl; [intros ? []|].
    destruct (String.eqb u n).
    + intros entry [<-|Hin]; simpl.
      * apply dict_set_NoDup. apply (Hs (n, succs)). left. reflexivity.
      * apply Hs. right. exact Hin.
    + intros entry [<-|Hin]; simpl.
      * apply (Hs (n, succs)). left. reflexivity.
      * apply IH; [|exact Hin]. intros e He. apply Hs. right. exact He.
  - intros e He. apply Hiff in He as [->|He]; [reflexivity | apply Hl, He].
Qed.

Lemma add_edge_tidy u v label g :
  tidy label g ->
  tidy label (add_edge u v label g)
  /\ (forall e, In e (edges (add_edge u v label g)) <-> e = (u, v, label) \/ In e (edges g))
  /\ (forall x, In x (nodes (add_edge u v label g)) <-> x = u \/ x = v \/ In x (nodes g)).
Proof.
  intros Ht. unfold add_edge.
  assert (Ht2 : tidy label (add_node v (add_node u g))) by (do 2 apply add_node_tidy; exact Ht).
  assert (Hu : In u (nodes (add_node v (add_node u g)))).
  { apply nodes_add_node. right. apply nodes_add_node. left. reflexivity. }
  split; [apply put_edge_tidy; assumption|]. split.
  - intros e. rewrite (edges_put_edge_iff u v label _ Ht2 Hu), !edges_add_node. reflexivity.
  - intros x. rewrite nodes_put_edge, !nodes_add_node. tauto.
Qed.

Lemma build_graph_tidy label rows : forall g,
  tidy label g ->
  tidy label (build_graph label rows g)
  /\ (forall e, In e (edges (build_graph label rows g))
                <-> In e (edges g) \/ (In (fst e) rows /\ snd e = label))
  /\ (forall x, In x (nodes (build_graph label rows g))
                <-> In x (nodes g) \/ In x (map fst rows) \/ In x (map snd rows)).
Proof.
  induction rows as [|[a b] rows IH]; intros g Ht; simpl.
  - split; [exact Ht|]. split; intros; tauto.
  - destruct (add_edge_tidy a b label g Ht) as (Ht1 & He1 & Hn1).
    destruct (IH _ Ht1) as (Ht2 & He2 & Hn2).
    split; [exact Ht2|]. split.
    + intros e. rewrite He2, He1. split.
      * intros [[->|H]|[H1 H2]]; auto.
      * intros [H|[[H|H] H2]]; auto.
        left. left. destruct e as [[u v] l]. simpl in *. congruence.
    + intros x. rewrite Hn2, Hn1. simpl. intuition (subst; auto).
Qed.

Lemma NoDup_map_inj {A B} (f : A -> B) l :
  (forall x y, In x l -> In y l -> f x = f y -> x = y) -> List.NoDup l -> List.NoDup (map f l).
Proof.
  intros Hinj Hl. induction Hl as [|x l Hx Hl IH]; simpl; constructor.
  - rewrite in_map_iff. intros (y & Hy & Hin).
    assert (y = x) by (apply Hinj; [right; exact Hin | left; reflexivity | exact Hy]).
    subst. contradiction.
  - apply IH. intros a b Ha Hb. apply Hinj; right; assumption.
Qed.

Lemma NoDup_of_keys {A B} (l : list (A * B)) : List.NoDup (map fst l) -> List.NoDup l.
Proof.
  induction l as [|[k v] l IH]; simpl; intros H; [constructor|].
  inversion H as [|? ? Hk Hl]; subst. constructor; [|apply IH, Hl].
  intros Hin. apply Hk. apply in_map_iff. exists (k, v). auto.
Qed.

Lemma NoDup_app_list {A} (l1 l2 : list A) :
  List.NoDup l1 -> List.NoDup l2 -> (forall x, In x l1 -> ~ In x l2) -> List.NoDup (l1 ++ l2).
Proof.
  intros H1 H2 Hd. induction H1 as [|x l Hx Hl IH]; simpl; [exact H2|].
  constructor.
  - rewrite in_app_iff. intros [H|H]; [contradiction|]. apply (Hd x); [left; reflexivity | exact H].
  - apply IH. intros y Hy. apply Hd. right. exact Hy.
Qed.

Lemma tidy_edges_NoDup label g : tidy label g -> List.NoDup (edges g).
Proof.
  intros (Hn & Hs & _). induction g as [|[n succs] g IH]; [constructor|].
  rewrite edges_cons. change (nodes ((n, succs) :: g)) with (n :: nodes g) in Hn.
  inversion Hn as [|? ? Hnot Hn']; subst.
  apply NoDup_app_list.
  - apply NoDup_map_inj.
    + intros [k1 v1] [k2 v2] _ _ H. simpl in H. congruence.
    + apply NoDup_of_keys. apply (Hs (n, succs)). left. reflexivity.
  - apply IH; [exact Hn'|]. intros entry Hin. apply Hs. right. exact Hin.
  - intros e He Hin. apply in_map_iff in He as (s & <- & _).
    apply edge_source_node in Hin. simpl in Hin. contradiction.
Qed.

Lemma tidy_empty label : tidy label [].
Proof.
  split; [constructor|]. split; [intros ? []|intros ? []].
Qed.

End GraphFacts.

Module GraphTheorems.
Import Py Eff Visualizer PictureFacts GraphSpec GraphFacts.

(** X9: the graph the loop over the rows builds.  It has an edge from
    [u] to [v] exactly when some row is [(u, v)], every edge carries the
    label of the relation, and no edge is there twice, rows that repeat
    giving one edge; its nodes are the values of the two columns, each
    once. *)
Theorem build_graph_edges_are_the_rows (edge_label : string) (rows : list (string * string)) :
  let g := build_graph edge_label rows [] in
  (forall u v l, In (u, v, l) (edges g) <-> In (u, v) rows /\ l = edge_label)
  /\ List.NoDup (edges g)
  /\ (forall x, In x (nodes g) <-> In x (map fst rows) \/ In x (map snd rows))
  /\ List.NoDup (nodes g).
Proof.
  intros g. destruct (build_graph_tidy edge_label rows [] (tidy_empty edge_label))
    as (Ht & He & Hn).
  fold g in Ht, He, Hn. split; [|split; [|split]].
  - intros u v l. rewrite He. simpl. tauto.
  - exact (tidy_edges_NoDup edge_label g Ht).
  - intros x. rewrite Hn. simpl. tauto.
  - exact (proj1 Ht).
Qed.

End GraphTheorems.

(** ** The pauses of the summarizer *)

Module PacingTheorems.
Import Py Eff Summarizer EffFacts SummarizerSpec SummarizerFacts PacingSpec.
Import Samples MoreSamples.

(** X10: with a sleep factor that is not negative and pauses that
    [time.sleep] takes (none above [longest_sleep], as with the defaults),
    [summarize_texts] pauses once for each summary it returns, and for no
    text whose call failed or gave an empty summary; no pause is negative,
    and with a cut-off that is not negative none is longer than the cut-off
    times the factor. *)
Theorem summarize_texts_pauses_once_per_summary
    (self : Summarizer) (texts : list string) (max_tokens : Z) (temperature : Q)
    (stop : option string) (token_cut : Z) (sleep_temperature : Q) (w : World) :
  (0 <= sleep_temperature)%Q ->
  short_pauses token_cut sleep_temperature texts ->
  exists summaries pauses w',
    summarize_texts self texts max_tokens temperature stop token_cut sleep_temperature w
    = (Ok summaries, w')
    /\ slept w' = slept w ++ pauses
    /\ length pauses = length (List.filter is_summary summaries)
    /\ List.Forall (fun q => 0 <= q)%Q pauses
    /\ ((0 <= token_cut)%Z ->
        List.Forall (fun q => q <= inject_Z token_cut * sleep_temperature)%Q pauses).
Proof.
  intros Hst Hshort.
  destruct (summarize_texts_paced self texts max_tokens temperature stop token_cut
              sleep_temperature w) as (w' & Hrun & _ & Hslept).
  match type of Hrun with context [outcomes ?a ?b ?c] => set (results := outcomes a b c) in * end.
  assert (Hlen : length results = length texts).
  { unfold results. rewrite outcomes_length, length_map. reflexivity. }
  destruct (zip_accepted token_cut sleep_temperature texts Hst Hshort results Hlen)
    as (He & Hrest).
  eexists _, _, w'. split; [exact Hrun|]. split; [exact Hslept|].
  rewrite He. exact Hrest.
Qed.

(** One text of ten characters against a service that answers: one pause
    of ten times the factor. *)
Lemma summarize_texts_pauses_once_per_summary_witness :
  exists summaries pauses w',
    summarize_texts summarizer ["short text"] default_max_tokens default_temperature None
                    default_token_cut default_sleep_temperature steady_service
    = (Ok summaries, w')
    /\ slept w' = slept steady_service ++ pauses
    /\ length pauses = length (List.filter is_summary summaries).
Proof.
  destruct (summarize_texts_pauses_once_per_summary summarizer ["short text"]
              default_max_tokens default_temperature None default_token_cut
              default_sleep_temperature steady_service)
    as (summaries & pauses & w' & H & Hs & Hl & _).
  - discriminate.
  - constructor; [vm_compute; discriminate | constructor].
  - exists summaries, pauses, w'. split; [exact H|]. split; [exact Hs | exact Hl].
Defined.

(** X11: with a negative sleep factor, and texts that are not empty after
    the cut, [summarize_texts] still does not raise, and never pauses; but
    [time.sleep] refuses the pause after the summary was appended, so every
    text with a summary has two entries in the list, the summary and then
    [None]. *)
Theorem summarize_texts_negative_sleep
    (self : Summarizer) (texts : list string) (max_tokens : Z) (temperature : Q)
    (stop : option string) (token_cut : Z) (sleep_temperature : Q) (w : World) :
  (sleep_temperature < 0)%Q ->
  List.Forall (fun t => slice_to token_cut t <> "") texts ->
  let reqs := map (fun t => summary_request self (slice_to token_cut t)
                                            max_tokens temperature stop) texts in
  exists w',
    summarize_texts self texts max_tokens temperature stop token_cut sleep_temperature w
    = (Ok (flat_map refused_entries (outcomes (api w) (sent w) reqs)), w')
    /\ slept w' = slept w.
Proof.
  intros Hst Hne reqs.
  destruct (summarize_texts_paced self texts max_tokens temperature stop token_cut
              sleep_temperature w) as (w' & Hrun & _ & Hslept).
  fold reqs in Hrun, Hslept.
  destruct (zip_refused token_cut sleep_temperature texts Hst Hne
              (outcomes (api w) (sent w) reqs)) as (He & Hp).
  { unfold reqs. rewrite outcomes_length, length_map. reflexivity. }
  exists w'. rewrite He in Hrun. rewrite Hp, app_nil_r in Hslept.
  split; [exact Hrun | exact Hslept].
Qed.

(** One text, a service that answers, and a factor of minus one: two
    entries. *)
Lemma summarize_texts_negative_sleep_witness :
  exists w',
    summarize_texts summarizer ["short text"] default_max_tokens default_temperature None
                    default_token_cut (-1) steady_service
    = (Ok [Some "A summary."; None], w')
    /\ slept w' = [].
Proof.
  apply (summarize_texts_negative_sleep summarizer ["short text"] default_max_tokens
           default_temperature None default_token_cut (-1) steady_service).
  - reflexivity.
  - constructor; [discriminate | constructor].
Defined.

End PacingTheorems.

(** ** Answers, and the claims that share a store *)

Module AnswerFacts.
Import Py Eff Sqldb Store Titled EffFacts StoreSpec StoreFacts ClaimFacts AnswerSpec.

Lemma choose_id_run given w :
  exists w', choose_id given w = (Ok (chosen_id given w), w')
             /\ tables w' = tables w /\ log w' = log w /\ exported w' = exported w.
Proof.
  unfold choose_id, chosen_id, uuid4_str, ret.
  destruct given as [s|]; [destruct (truthy s)|]; eexists; split; try reflexivity; auto.
Qed.

Lemma answer_save_ok (a : Answer) w :
  has_schema answers_table_sql (tables w) ->
  key_free "answers" "id" (answer_id a) (tables w) ->
  exists w' tb,
    Answer_save_to_db a w = (Ok tt, w')
    /\ tables w' !! "answers" = Some tb
    /\ columns tb = ct_columns answers_table_sql
    /\ rows tb = old_rows "answers" (tables w) ++ [answer_row a].
Proof.
  intros Hs Hk.
  destruct (db_create_lookup _ _ Hs) as (tb & Htb & Hc & Hp & Hr). simpl in Htb, Hc, Hp, Hr.
  assert (Hfree : pkey_taken tb (answer_row a) = false).
  { unfold pkey_taken. rewrite Hp, Hr. exact Hk. }
  unfold Answer_save_to_db, bind, create_table, execute_query. simpl.
  rewrite Htb, Hc. simpl. unfold answer_row in Hfree. rewrite Hfree. simpl.
  eexists _, _. split; [reflexivity|]. simpl. rewrite lookup_insert_eq.
  split; [reflexivity|]. simpl. split; [exact Hc|]. rewrite Hr. reflexivity.
Qed.

Lemma has_answer_run (c : Claim) w tb :
  tables w !! "answers" = Some tb ->
  has_column "claim_id" (columns tb) = true ->
  fst (has_answer c w) = Ok (existsb (matches "claim_id" (SText (id c))) (rows tb)).
Proof.
  intros Ht Hc. unfold has_answer. erewrite bind_ok by reflexivity.
  unfold bind, fetch_one, db_fetch. simpl. rewrite Ht, Hc. simpl.
  induction (rows tb) as [|r rs IH]; simpl; [reflexivity|].
  destruct (matches "claim_id" (SText (id c)) r); simpl; [reflexivity | exact IH].
Qed.

(** Rows of another claim pass a purge. *)
Lemma filter_purge_other c k k' tb :
  k' <> k ->
  List.filter (matches c (SText k')) (rows (purge c k tb))
  = List.filter (matches c (SText k')) (rows tb).
Proof.
  intros Hne. unfold purge. simpl.
  induction (rows tb) as [|r rs IH]; simpl; [reflexivity|].
  destruct (matches c (SText k) r) eqn:E; simpl.
  - rewrite IH. unfold matches, sql_eqb in *.
    destruct (cell c r) as [|x]; [discriminate|].
    apply String.eqb_eq in E. subst x.
    destruct (String.eqb k k') eqn:E'; [apply String.eqb_eq in E'; congruence | reflexivity].
  - rewrite IH. reflexivity.
Qed.

Lemma old_rows_alter_eq f t (ts : Tables) :
  old_rows t (alter f t ts) = match ts !! t with Some tb => rows (f tb) | None => [] end.
Proof. unfold old_rows. rewrite lookup_alter_eq. destruct (ts !! t); reflexivity. Qed.

Lemma old_rows_alter_ne f t t' (ts : Tables) :
  t' <> t -> old_rows t (alter f t' ts) = old_rows t ts.
Proof. intros H. unfold old_rows. rewrite lookup_alter_ne by exact H. reflexivity. Qed.

Lemma rows_of_cleared_other k k' (ts : Tables) :
  k' <> k ->
  rows_of "claims" "id" k' (cleared k ts) = rows_of "claims" "id" k' ts
  /\ rows_of "sources" "claim_id" k' (cleared k ts) = rows_of "sources" "claim_id" k' ts
  /\ rows_of "answers" "claim_id" k' (cleared k ts) = rows_of "answers" "claim_id" k' ts.
Proof.
  intros Hne. unfold rows_of, cleared.
  split; [|split].
  - rewrite !old_rows_alter_ne by discriminate. rewrite old_rows_alter_eq.
    unfold old_rows. destruct (ts !! "claims"); [apply filter_purge_other, Hne | reflexivity].
  - rewrite old_rows_alter_ne by discriminate. rewrite old_rows_alter_eq.
    rewrite lookup_alter_ne by discriminate.
    unfold old_rows. destruct (ts !! "sources"); [apply filter_purge_other, Hne | reflexivity].
  - rewrite old_rows_alter_eq. rewrite !lookup_alter_ne by discriminate.
    unfold old_rows. destruct (ts !! "answers"); [apply filter_purge_other, Hne | reflexivity].
Qed.

End AnswerFacts.

Module AnswerTheorems.
Import Py Eff Sqldb Store Titled EffFacts StoreSpec StoreFacts ClaimFacts ClearFacts.
Import AnswerSpec AnswerFacts Samples MoreSamples.

(** X12: on a store whose answers table is absent or has the schema of
    [Answer.save_to_db] and holds no answer under the identifier chosen,
    constructing an [Answer] for a claim succeeds; afterwards [has_answer]
    is true for that claim, and for every other claim it tells whether the
    claim had an answer before. *)
Theorem answer_init_then_has_answer
    (w : World) (claim_id answer graphs_folder : string) (answer_id : option string) :
  has_schema answers_table_sql (tables w) ->
  key_free "answers" "id" (chosen_id answer_id w) (tables w) ->
  exists a w1,
    Answer_init claim_id answer graphs_folder answer_id w = (Ok a, w1)
    /\ Titled.answer_id a = chosen_id answer_id w
    /\ (forall c : Claim, id c = claim_id -> fst (has_answer c w1) = Ok true)
    /\ (forall c : Claim, id c <> claim_id ->
          fst (has_answer c w1) = Ok (answered (id c) (tables w))).
Proof.
  intros Hs Hk.
  destruct (choose_id_run answer_id w) as (w0 & Hch & Ht & _).
  set (a := mkAnswer (chosen_id answer_id w) claim_id answer graphs_folder).
  destruct (answer_save_ok a w0) as (w1 & tb & Hsave & Htb & Hcols & Hrows).
  { rewrite Ht. exact Hs. }
  { rewrite Ht. exact Hk. }
  rewrite Ht in Hrows.
  exists a, w1. split.
  { unfold Answer_init. erewrite bind_ok by exact Hch. fold a.
    erewrite bind_ok by exact Hsave. reflexivity. }
  split; [reflexivity|].
  assert (Hcol : has_column "claim_id" (columns tb) = true) by (rewrite Hcols; reflexivity).
  split.
  - intros c Hc. rewrite (has_answer_run c w1 tb Htb Hcol), Hrows, existsb_app.
    simpl. unfold matches at 2. simpl. rewrite Hc, String.eqb_refl.
    rewrite orb_true_r. reflexivity.
  - intros c Hc. rewrite (has_answer_run c w1 tb Htb Hcol), Hrows, existsb_app.
    simpl. unfold matches at 2. simpl.
    destruct (String.eqb claim_id (id c)) eqn:E;
      [apply String.eqb_eq in E; congruence|].
    rewrite !orb_false_r. reflexivity.
Qed.

(** An answer to the claim of the example, which has a source and no
    answer yet. *)
Lemma answer_init_then_has_answer_witness :
  exists a w1,
    Answer_init "c1" "True" "graphs/c1" None
      (snd (add_sources round_earth [one_source] claimed_world)) = (Ok a, w1)
    /\ fst (has_answer round_earth w1) = Ok true.
Proof.
  destruct (answer_init_then_has_answer
              (snd (add_sources round_earth [one_source] claimed_world))
              "c1" "True" "graphs/c1" None) as (a & w1 & H & _ & Hyes & _).
  - exact I.
  - reflexivity.
  - exists a, w1. split; [exact H | apply Hyes; reflexivity].
Defined.

(** X13: [clear_database] touches the rows of its own claim only.  On a
    store that has the three tables, the rows every other claim has in the
    claims, sources and answers tables are the same after it as before, and
    so are the sources [get_dict_sources] reads for it. *)
Theorem clear_database_keeps_other_claims (w : World) (self other : Claim) :
  clearable (tables w) -> id other <> id self ->
  exists w1,
    clear_database self w = (Ok tt, w1)
    /\ rows_of "claims" "id" (id other) (tables w1)
       = rows_of "claims" "id" (id other) (tables w)
    /\ rows_of "sources" "claim_id" (id other) (tables w1)
       = rows_of "sources" "claim_id" (id other) (tables w)
    /\ rows_of "answers" "claim_id" (id other) (tables w1)
       = rows_of "answers" "claim_id" (id other) (tables w)
    /\ sources_held other (tables w1) = sources_held other (tables w).
Proof.
  intros Hc Hne.
  destruct (clear_database_ok self w Hc) as (w1 & H1 & T1).
  destruct (rows_of_cleared_other (id self) (id other) (tables w) Hne) as (Ha & Hb & Hd).
  exists w1. rewrite T1. split; [exact H1|].
  split; [exact Ha|]. split; [exact Hb|]. split; [exact Hd|].
  unfold sources_held. unfold rows_of in Hb. rewrite Hb. reflexivity.
Qed.

(** The first claim is cleared from the store it shares with the second. *)
Lemma clear_database_keeps_other_claims_witness :
  exists w1,
    clear_database round_earth shared_world = (Ok tt, w1)
    /\ sources_held flat_earth (tables w1) = sources_held flat_earth (tables shared_world).
Proof.
  destruct (clear_database_keeps_other_claims shared_world round_earth flat_earth)
    as (w1 & H & _ & _ & _ & Hs).
  - repeat split; eexists; split; reflexivity.
  - discriminate.
  - exists w1. split; [exact H | exact Hs].
Defined.

End AnswerTheorems.

(** ** An identifier that is taken *)

Module TakenFacts.
Import Py Eff Sqldb Store EffFacts StoreSpec StoreFacts AnswerSpec.

(** [CREATE TABLE IF NOT EXISTS] leaves a store that has the table as it
    is, and a table that holds a row is there. *)
Lemma db_create_present (c : create_stmt) (ts : Tables) tb :
  ts !! ct_name c = Some tb -> db_create c ts = ts.
Proof. intros H. unfold db_create. rewrite H. reflexivity. Qed.

Lemma old_rows_present t (ts : Tables) r :
  In r (old_rows t ts) -> exists tb, ts !! t = Some tb /\ rows tb = old_rows t ts.
Proof.
  unfold old_rows. destruct (ts !! t) as [tb|]; [|intros []].
  intros _. exists tb. auto.
Qed.

Lemma existsb_present {A} (f : A -> bool) l : existsb f l = true -> exists x, In x l.
Proof. intros H. apply existsb_exists in H as (x & Hx & _). exists x. exact Hx. Qed.

Lemma save_to_db_taken (self : Titled.Claim) w tb :
  tables w !! "claims" = Some tb ->
  columns tb = ct_columns Titled.claims_table_sql -> pkey tb = "id" ->
  existsb (matches "id" (SText (Titled.id self))) (rows tb) = true ->
  exists w',
    Titled.save_to_db self w = (Raise (unique_failed "claims" "id"), w')
    /\ tables w' = tables w
    /\ last (log w') = Some (Log.mk Log.ERROR "Database" "Database error: %s"
                                    [Log.AExn (unique_failed "claims" "id")]).
Proof.
  intros Htb Hc Hp Htaken.
  unfold Titled.save_to_db. erewrite bind_ok by reflexivity.
  erewrite bind_ok by reflexivity.
  unfold execute_query at 1. unfold bind at 1. simpl tables.
  rewrite (db_create_present Titled.claims_table_sql (tables w) tb Htb).
  unfold db_execute. rewrite Htb, Hc. simpl.
  unfold pkey_taken. rewrite Hp. simpl.
  change (cell "id" _) with (SText (Titled.id self)).
  rewrite Htaken. simpl.
  eexists. split; [reflexivity|]. simpl. split; [reflexivity|].
  rewrite last_snoc. reflexivity.
Qed.

End TakenFacts.

Module TakenTheorems.
Import Py Eff Sqldb Store Titled EffFacts StoreSpec StoreFacts ClaimFacts.
Import AnswerSpec AnswerFacts TakenFacts Samples.

(** X14: a claim cannot be created twice under one identifier.  When the
    claims table has the schema of [save_to_db] and already holds a row
    under the identifier supplied, constructing the [Claim] raises the
    driver's error for the primary key, the driver logs it, and the tables
    are left as they were. *)
Theorem claim_init_rejects_taken_id
    (w : World) (text title summary i : string) :
  i <> "" ->
  has_schema claims_table_sql (tables w) ->
  existsb (matches "id" (SText i)) (old_rows "claims" (tables w)) = true ->
  exists w',
    Claim_init text title summary (Some i) w = (Raise (unique_failed "claims" "id"), w')
    /\ tables w' = tables w
    /\ last (log w') = Some (Log.mk Log.ERROR "Database" "Database error: %s"
                                    [Log.AExn (unique_failed "claims" "id")]).
Proof.
  intros Hi Hs Htaken.
  destruct (existsb_present _ _ Htaken) as (r & Hr).
  destruct (old_rows_present _ _ _ Hr) as (tb & Htb & Hrows).
  unfold has_schema in Hs. simpl in Hs. rewrite Htb in Hs. destruct Hs as [Hc Hp].
  set (self := mkClaim i text (drop_chars 2 title) summary).
  set (w2 := snd (emit Log.INFO "Claim" "Creating claim with ID: %s" [Log.AStr i] w)).
  destruct (save_to_db_taken self w2 tb) as (w' & Hrun & Ht & Hlog).
  { exact Htb. } { exact Hc. } { exact Hp. } { rewrite Hrows. exact Htaken. }
  exists w'. split; [|split; [exact Ht | exact Hlog]].
  unfold Claim_init, choose_id. destruct i as [|ch i]; [congruence|]. simpl truthy.
  cbv iota. erewrite bind_ok by reflexivity. erewrite bind_ok by reflexivity.
  erewrite bind_raise by exact Hrun. reflexivity.
Qed.

(** The claim of the example, created a second time. *)
Lemma claim_init_rejects_taken_id_witness :
  exists w',
    Claim_init "The earth is flat" "IDFlat" "..." (Some "c1") claimed_world
    = (Raise (unique_failed "claims" "id"), w')
    /\ tables w' = tables claimed_world.
Proof.
  destruct (claim_init_rejects_taken_id claimed_world "The earth is flat" "IDFlat" "..." "c1")
    as (w' & H & Ht & _).
  - discriminate.
  - split; reflexivity.
  - reflexivity.
  - exists w'. split; [exact H | exact Ht].
Defined.

End TakenTheorems.

(** ** The plain variant: batches and exports *)

Module BatchFacts.
Import Py Eff Sqldb Store Plain EffFacts StoreSpec StoreFacts SourcesFacts PlainSpec PlainFacts.
Import AnswerSpec TakenFacts BatchSpec.

Lemma for_each_app {S A} (l1 l2 : list A) (body : A -> M S unit) w :
  for_each (l1 ++ l2) body w = bind (for_each l1 body) (fun _ => for_each l2 body) w.
Proof.
  revert w. induction l1 as [|x l1 IH]; intros w; simpl; [reflexivity|].
  unfold bind. destruct (body x w) as [[[]|e] w1]; [|reflexivity].
  rewrite IH. reflexivity.
Qed.

Lemma plain_add_one_exported self data w :
  exported (snd (plain_add_one self data w)) = exported w.
Proof.
  unfold plain_add_one, bind, uuid4_str, execute_query. cbv beta iota.
  match goal with |- context [db_execute ?q ?p ?t] => destruct (db_execute q p t) as [[[]|e] ts] end;
    reflexivity.
Qed.

Lemma plain_add_loop_exported self batch : forall w,
  exported (snd (for_each batch (plain_add_one self) w)) = exported w.
Proof.
  induction batch as [|d batch IH]; intros w; simpl; [reflexivity|].
  unfold bind. pose proof (plain_add_one_exported self d w) as H.
  destruct (plain_add_one self d w) as [[[]|e] w1]; simpl in *.
  - rewrite IH. exact H.
  - exact H.
Qed.

(** The driver refuses a record whose entities are a list or a dict, logs
    the error and leaves the tables as they are. *)
Lemma plain_add_one_refused self data w tb :
  tables w !! "sources" = Some tb ->
  columns tb = ct_columns sources_table_sql ->
  refused (data_entities data) = true ->
  exists e w',
    plain_add_one self data w = (Raise e, w')
    /\ tables w' = tables w /\ exported w' = exported w
    /\ last (log w') = Some (Log.mk Log.ERROR "Database" "Database error: %s" [Log.AExn e]).
Proof.
  intros Ht Hc Hr.
  unfold plain_add_one, bind, uuid4_str, execute_query, insert_source_sql. simpl.
  rewrite Ht, Hc. simpl.
  destruct (data_entities data) as [|s|items|entries]; simpl in Hr; try discriminate;
    simpl; eexists _, _; (split; [reflexivity|]); simpl; rewrite last_snoc; auto.
Qed.

Lemma execute_query_refused q params w e ts :
  db_execute q params (tables w) = (Raise e, ts) ->
  execute_query q params w
  = (Raise e, mkWorld ts (log w ++ [Log.mk Log.ERROR "Database" "Database error: %s"
                                           [Log.AExn e]])
                      (exported w) (uuid_seed w) (uuid_next w)).
Proof. intros H. unfold execute_query. rewrite H. reflexivity. Qed.

Lemma plain_insert_claim (c : Claim) (ts : Tables) tb :
  ts !! "claims" = Some tb ->
  columns tb = ct_columns claims_table_sql -> pkey tb = "id" ->
  db_execute (Insert "claims" ["id"; "text"]) [VStr (id c); VStr (text c)] ts
  = if existsb (matches "id" (SText (id c))) (rows tb)
    then (Raise (unique_failed "claims" "id"), ts)
    else (Ok tt, <["claims" := with_rows tb (rows tb ++ [plain_claim_row c])]> ts).
Proof.
  intros Htb Hc Hp. unfold db_execute. rewrite Htb, Hc. simpl.
  unfold pkey_taken. rewrite Hp. simpl.
  change (cell "id" _) with (SText (id c)).
  destruct (existsb (matches "id" (SText (id c))) (rows tb)); reflexivity.
Qed.

Lemma plain_save_to_db_run (c : Claim) w :
  has_schema claims_table_sql (tables w) ->
  (key_free "claims" "id" (id c) (tables w) ->
   exists w',
     save_to_db c w = (Ok tt, w')
     /\ old_rows "claims" (tables w') = old_rows "claims" (tables w) ++ [plain_claim_row c]
     /\ exported w' = exported w ++ ["claims"])
  /\ (existsb (matches "id" (SText (id c))) (old_rows "claims" (tables w)) = true ->
      exists w',
        save_to_db c w = (Raise (unique_failed "claims" "id"), w')
        /\ tables w' = tables w /\ exported w' = exported w).
Proof.
  intros Hs.
  destruct (db_create_lookup _ _ Hs) as (tb & Htb & Hc & Hp & Hr). simpl in Htb, Hc, Hp, Hr.
  pose proof (plain_insert_claim c _ tb Htb Hc Hp) as Hins. rewrite Hr in Hins.
  unfold save_to_db. split.
  - intros Hk. unfold key_free in Hk. rewrite Hk in Hins.
    erewrite bind_ok by reflexivity. erewrite bind_ok by reflexivity.
    erewrite bind_ok by (apply execute_query_ok; exact Hins).
    eexists. split; [reflexivity|]. simpl. split; [|reflexivity].
    unfold old_rows at 1. rewrite lookup_insert_eq. reflexivity.
  - intros Htaken. rewrite Htaken in Hins.
    destruct (existsb_present _ _ Htaken) as (r & Hin).
    destruct (old_rows_present _ _ _ Hin) as (tb0 & Htb0 & _).
    erewrite bind_ok by reflexivity. erewrite bind_ok by reflexivity.
    erewrite bind_raise by (apply execute_query_refused; exact Hins).
    eexists. split; [reflexivity|]. simpl. split; [|reflexivity].
    apply (db_create_present claims_table_sql (tables w) tb0 Htb0).
Qed.

End BatchFacts.

Module BatchTheorems.
Import Py Eff Sqldb Store Plain EffFacts StoreSpec StoreFacts SourcesFacts PlainSpec PlainFacts.
Import AnswerSpec TakenFacts BatchSpec BatchFacts Samples.

(** X15: in the plain variant, a batch is written record by record and
    not as a whole.  When the records before the first one whose entities
    are a list or a dict can all be written, [add_sources] raises the error
    with which the driver refuses that record, and which the driver has
    logged; the rows of the records before it stay in the sources table, one
    each, no record after it is written, and the sources are not exported to
    CSV. *)
Theorem plain_add_sources_partial_batch
    (w : World) (self : Claim) (good rest : list SourceData) (bad : SourceData) :
  has_schema sources_table_sql (tables w) ->
  fresh_for "sources" "id" (drawn_ids w (length good)) (tables w) ->
  Forall bindable good ->
  refused (data_entities bad) = true ->
  exists e w' es,
    add_sources self (good ++ bad :: rest) w = (Raise e, w')
    /\ last (log w') = Some (Log.mk Log.ERROR "Database" "Database error: %s" [Log.AExn e])
    /\ old_rows "sources" (tables w')
       = old_rows "sources" (tables w)
         ++ zip_with (fun ud e => plain_row self (fst ud) (snd ud) e)
                     (zip (drawn_ids w (length good)) good) es
    /\ length es = length good
    /\ exported w' = exported w.
Proof.
  intros Hs [Hnd Hfree] Hb Hbad.
  destruct (db_create_lookup _ _ Hs) as (tb & Htb & Hc & Hp & Hr). simpl in Htb, Hp, Hr.
  set (wa := set_tables (db_create sources_table_sql (tables w))
               (snd (emit Log.INFO "Claim" "Adding sources for claim ID %s."
                          [Log.AStr (id self)] w))).
  destruct (plain_add_loop_ok self good wa tb) as (wb & es & Hloop & Hes & Htab & _);
    try assumption.
  { rewrite Hr. exact Hfree. }
  change (drawn_ids wa (length good)) with (drawn_ids w (length good)) in *.
  pose proof (plain_add_loop_exported self good wa) as Hexp. rewrite Hloop in Hexp.
  simpl in Hexp.
  destruct (plain_add_one_refused self bad wb _
              ltac:(rewrite Htab; apply lookup_insert_eq) Hc Hbad)
    as (e & w' & Hrun & Ht' & Hexp' & Hlog).
  exists e, w', es. split; [|split; [exact Hlog|split; [|split]]].
  - unfold add_sources. erewrite bind_ok by reflexivity.
    erewrite bind_ok by reflexivity. fold (plain_add_one self).
    change (set_tables _ _) with wa.
    erewrite bind_raise; [reflexivity|].
    rewrite for_each_app. erewrite bind_ok by exact Hloop.
    simpl. erewrite bind_raise by exact Hrun. reflexivity.
  - rewrite Ht', Htab. unfold old_rows at 1. rewrite lookup_insert_eq. simpl.
    rewrite Hr. reflexivity.
  - apply Forall2_length in Hes. exact Hes.
  - rewrite Hexp', Hexp. reflexivity.
Qed.

(** A record with a string, then one with a list of entities. *)
Lemma plain_add_sources_partial_batch_witness :
  exists e w',
    add_sources plain_claim
      [plain_source;
       mkSourceData "Globe" "http://a" "a" "body" (VList [VStr "Earth"]) "science"]
      fresh_world
    = (Raise e, w')
    /\ length (old_rows "sources" (tables w')) = 1
    /\ exported w' = [].
Proof.
  destruct (plain_add_sources_partial_batch fresh_world plain_claim [plain_source] []
              (mkSourceData "Globe" "http://a" "a" "body" (VList [VStr "Earth"]) "science"))
    as (e & w' & es & H & _ & Hrows & Hlen & Hexp).
  - exact I.
  - split; [apply NoDup_singleton | repeat constructor].
  - constructor; [right; eexists; reflexivity | constructor].
  - reflexivity.
  - exists e, w'. split; [exact H|]. split; [|exact Hexp].
    rewrite Hrows. destruct es as [|e0 [|e' es]]; try discriminate. reflexivity.
Defined.

(** X16: in the plain variant, constructing a [Claim] on a store whose
    claims table is absent or has the schema of [save_to_db]: when no claim
    is kept under the identifier chosen, the row (id, text) is appended and
    the claims are exported to CSV once; when one is, the constructor raises
    the driver's error for the primary key, and neither the tables nor the
    CSV files change. *)
Theorem plain_claim_init_exports_after_insert
    (w : World) (text : string) (claim_id : option string) :
  has_schema claims_table_sql (tables w) ->
  (key_free "claims" "id" (chosen_id claim_id w) (tables w) ->
   exists c w',
     Claim_init text claim_id w = (Ok c, w')
     /\ c = mkClaim (chosen_id claim_id w) text
     /\ old_rows "claims" (tables w') = old_rows "claims" (tables w) ++ [plain_claim_row c]
     /\ exported w' = exported w ++ ["claims"])
  /\ (existsb (matches "id" (SText (chosen_id claim_id w))) (old_rows "claims" (tables w))
      = true ->
      exists w',
        Claim_init text claim_id w = (Raise (unique_failed "claims" "id"), w')
        /\ tables w' = tables w /\ exported w' = exported w).
Proof.
  intros Hs.
  assert (Hch : exists w0,
            (match claim_id with
             | Some s => if truthy s then ret s else uuid4_str
             | None => uuid4_str
             end) w = (Ok (chosen_id claim_id w), w0)
            /\ tables w0 = tables w /\ exported w0 = exported w).
  { unfold chosen_id, uuid4_str, ret.
    destruct claim_id as [s|]; [destruct (truthy s)|]; eexists; split; try reflexivity; auto. }
  destruct Hch as (w0 & Hch & Ht0 & He0).
  set (i := chosen_id claim_id w) in *.
  set (c := mkClaim i text).
  set (w1 := snd (emit Log.INFO "Claim" "Creating claim with ID: %s" [Log.AStr i] w0)).
  destruct (plain_save_to_db_run c w1) as [Hfree Htaken].
  { simpl. rewrite Ht0. exact Hs. }
  simpl tables in Hfree, Htaken. simpl exported in Hfree, Htaken.
  rewrite Ht0, He0 in *. simpl id in *.
  split.
  - intros Hk. destruct (Hfree Hk) as (w' & Hrun & Hrows & Hexp).
    exists c, w'. split; [|split; [reflexivity | split; assumption]].
    unfold Claim_init. erewrite bind_ok by exact Hch.
    erewrite bind_ok by reflexivity. fold c. fold w1 in Hrun.
    erewrite bind_ok by exact Hrun. reflexivity.
  - intros Hk. destruct (Htaken Hk) as (w' & Hrun & Ht & Hexp).
    exists w'. split; [|split; assumption].
    unfold Claim_init. erewrite bind_ok by exact Hch.
    erewrite bind_ok by reflexivity. fold c. fold w1 in Hrun.
    erewrite bind_raise by exact Hrun. reflexivity.
Qed.

(** A plain claim on the empty database. *)
Lemma plain_claim_init_exports_after_insert_witness :
  exists c w',
    Claim_init "The earth is round" (Some "c1") fresh_world = (Ok c, w')
    /\ exported w' = ["claims"].
Proof.
  destruct (plain_claim_init_exports_after_insert fresh_world "The earth is round" (Some "c1") I)
    as [Hfree _].
  destruct (Hfree eq_refl) as (c & w' & H & _ & _ & He).
  exists c, w'. split; [exact H | exact He].
Defined.

End BatchTheorems.

(** ** The plain variant: reading the sources *)

Module ReadFacts.
Import Py Eff Sqldb Store Plain EffFacts StoreSpec StoreFacts PlainSpec ReadSpec.

Lemma row_get_read c r v : assoc c r = Some v -> row_get c r = Ok (read c r).
Proof.
  intros H. unfold row_get, read, cell. rewrite H. destruct v; reflexivity.
Qed.

Lemma source_of_complete_row r w :
  complete r = true -> source_of_row r w = (Ok (source_of r), w).
Proof.
  unfold complete. cbn [forallb ct_columns sources_table_sql].
  destruct (assoc "id" r) as [vi|] eqn:Ei; [|discriminate].
  destruct (assoc "claim_id" r) as [vc|] eqn:Ec; [|discriminate].
  destruct (assoc "title" r) as [vt|] eqn:Et; [|discriminate].
  destruct (assoc "url" r) as [vu|] eqn:Eu; [|discriminate].
  destruct (assoc "site" r) as [vs|] eqn:Es; [|discriminate].
  destruct (assoc "body" r) as [vb|] eqn:Eb; [|discriminate].
  destruct (assoc "entities" r) as [ve|] eqn:Ee; [|discriminate].
  destruct (assoc "topic" r) as [vp|] eqn:Ep; [|discriminate].
  cbn [andb]. intros Hid.
  unfold source_of_row.
  erewrite bind_ok by (unfold lift; erewrite row_get_read by exact Ec; reflexivity).
  erewrite bind_ok by (unfold lift; erewrite row_get_read by exact Et; reflexivity).
  erewrite bind_ok by (unfold lift; erewrite row_get_read by exact Eu; reflexivity).
  erewrite bind_ok by (unfold lift; erewrite row_get_read by exact Es; reflexivity).
  erewrite bind_ok by (unfold lift; erewrite row_get_read by exact Eb; reflexivity).
  erewrite bind_ok by (unfold lift; erewrite row_get_read by exact Ee; reflexivity).
  erewrite bind_ok by (unfold lift; erewrite row_get_read by exact Ep; reflexivity).
  erewrite bind_ok by (unfold lift; erewrite row_get_read by exact Ei; reflexivity).
  unfold Source_init, source_of, read at 1.
  destruct (cell "id" r) as [|i]; [discriminate|]. simpl read_back.
  simpl value_truthy. rewrite Hid. reflexivity.
Qed.

Lemma sources_of_complete_rows rows w :
  forallb complete rows = true -> sources_of_rows rows w = (Ok (map source_of rows), w).
Proof.
  induction rows as [|r rows IH]; simpl; [reflexivity|].
  intros H. apply andb_true_iff in H as [Hr Hrs].
  erewrite bind_ok by (apply source_of_complete_row; exact Hr).
  erewrite bind_ok by (apply IH; exact Hrs). reflexivity.
Qed.

Lemma belongs_matches k r :
  belongs_to k (source_of r) = matches "claim_id" (SText k) r.
Proof.
  unfold belongs_to, source_of, read, matches. simpl.
  destruct (cell "claim_id" r); reflexivity.
Qed.

Lemma filter_sources k rows :
  map source_of (List.filter (matches "claim_id" (SText k)) rows)
  = List.filter (belongs_to k) (map source_of rows).
Proof.
  induction rows as [|r rows IH]; simpl; [reflexivity|].
  rewrite belongs_matches. destruct (matches "claim_id" (SText k) r); simpl; rewrite IH;
    reflexivity.
Qed.

Lemma forallb_filter {A} (f g : A -> bool) l :
  forallb f l = true -> forallb f (List.filter g l) = true.
Proof.
  induction l as [|x l IH]; simpl; [reflexivity|].
  intros H. apply andb_true_iff in H as [Hx Hl].
  destruct (g x); simpl; [rewrite Hx|]; apply IH, Hl.
Qed.

End ReadFacts.

Module ReadTheorems.
Import Py Eff Sqldb Store Plain EffFacts StoreSpec StoreFacts PlainSpec ReadSpec ReadFacts.
Import Samples.

(** X17: in the plain variant, on a store whose sources table is there
    and whose rows each have the eight columns and an identifier that is
    not empty, [Source.load_all] returns one [Source] per row, in the order
    of the table, and [get_sources] returns those of them whose [claim_id] is
    the identifier of the claim; neither draws a UUID nor changes a
    table. *)
Theorem get_sources_is_load_all_of_the_claim (w : World) (self : Claim) :
  has_table "sources" "claim_id" (tables w) ->
  forallb complete (old_rows "sources" (tables w)) = true ->
  exists w1,
    load_all w = (Ok (map source_of (old_rows "sources" (tables w))), w)
    /\ get_sources self w
       = (Ok (List.filter (belongs_to (id self))
                          (map source_of (old_rows "sources" (tables w)))), w1)
    /\ tables w1 = tables w /\ uuid_next w1 = uuid_next w.
Proof.
  intros (tb & Htb & Hcol) Hrows. unfold old_rows in *. rewrite Htb in *.
  eexists. split; [|split].
  - unfold load_all. erewrite bind_ok.
    2:{ unfold fetch_all, db_fetch. rewrite Htb. reflexivity. }
    apply sources_of_complete_rows. exact Hrows.
  - unfold get_sources. erewrite bind_ok by reflexivity.
    erewrite bind_ok.
    2:{ unfold fetch_all, db_fetch. simpl tables. rewrite Htb, Hcol. reflexivity. }
    erewrite bind_ok.
    2:{ apply sources_of_complete_rows. apply forallb_filter. exact Hrows. }
    erewrite bind_ok by reflexivity. rewrite filter_sources. reflexivity.
  - simpl. auto.
Qed.

(** The store after the plain claim of the example got one source. *)
Lemma get_sources_is_load_all_of_the_claim_witness :
  exists w1,
    get_sources plain_claim (snd (add_sources plain_claim [plain_source] fresh_world))
    = (Ok [mkSource (VStr "uuid-0") (VStr "c1") (VStr "Globe") (VStr "http://a")
                    (VStr "a") (VStr "body") (VStr "Earth") (VStr "science")], w1).
Proof.
  destruct (get_sources_is_load_all_of_the_claim
              (snd (add_sources plain_claim [plain_source] fresh_world)) plain_claim)
    as (w1 & _ & H & _).
  - eexists. split; reflexivity.
  - reflexivity.
  - exists w1. exact H.
Defined.

End ReadTheorems.

(** ** Opening the connection *)

Module ConnectFacts.
Import Py Eff Connect EffFacts ConnectSpec.
Local Open Scope py_scope.

Lemma getenv_ok name v w : environ w !! name = Some v -> getenv name w = (Ok v, w).
Proof. intros H. unfold getenv. rewrite H. reflexivity. Qed.

Lemma getenv_missing name w :
  environ w !! name = None -> getenv name w = (Raise (mkExn "KeyError" (repr_str name)), w).
Proof. intros H. unfold getenv. rewrite H. reflexivity. Qed.

Lemma opening_set env c :
  opening env = Some c ->
  exists uri username password,
    env !! "NEO4J_URI" = Some uri /\ env !! "NEO4J_USERNAME" = Some username
    /\ env !! "NEO4J_PASSWORD" = Some password
    /\ c = Open (replace "http" "bolt" uri) username password.
Proof.
  unfold opening.
  destruct (env !! "NEO4J_URI") as [uri|]; [|discriminate].
  destruct (env !! "NEO4J_USERNAME") as [username|]; [|discriminate].
  destruct (env !! "NEO4J_PASSWORD") as [password|]; [|discriminate].
  intros H. injection H as <-. exists uri, username, password. auto.
Qed.

End ConnectFacts.

Module ConnectTheorems.
Import Py Eff Connect EffFacts ConnectSpec ConnectFacts MoreSamples.
Local Open Scope py_scope.

(** X18: [GraphManager.__init__] needs its three variables.  When the
    environment lacks one of [NEO4J_URI], [NEO4J_USERNAME] and
    [NEO4J_PASSWORD], the constructor raises [KeyError] for the first one
    missing, in that order, before it opens the graph: no call reaches the
    engine and nothing is logged. *)
Theorem init_raises_key_error_for_missing_variable (w : World) (name : string) :
  first_missing (environ w) = Some name ->
  GraphManager_init w = (Raise (mkExn "KeyError" (repr_str name)), w).
Proof.
  unfold first_missing. simpl.
  destruct (environ w !! "NEO4J_URI") as [uri|] eqn:Hu.
  2:{ intros H. injection H as <-. unfold GraphManager_init.
      erewrite bind_raise by (apply getenv_missing; exact Hu). reflexivity. }
  destruct (environ w !! "NEO4J_USERNAME") as [username|] eqn:Hn.
  2:{ intros H. injection H as <-. unfold GraphManager_init.
      erewrite bind_ok by (apply getenv_ok; exact Hu).
      erewrite bind_raise by (apply getenv_missing; exact Hn). reflexivity. }
  destruct (environ w !! "NEO4J_PASSWORD") as [password|] eqn:Hp; [discriminate|].
  intros H. injection H as <-. unfold GraphManager_init.
  erewrite bind_ok by (apply getenv_ok; exact Hu).
  erewrite bind_ok by (apply getenv_ok; exact Hn).
  erewrite bind_raise by (apply getenv_missing; exact Hp). reflexivity.
Qed.

(** An environment without a password. *)
Lemma init_raises_key_error_for_missing_variable_witness :
  GraphManager_init
    (mkWorld (<["NEO4J_URI" := "http://localhost:7687"]> (<["NEO4J_USERNAME" := "neo4j"]> ∅))
             (fun _ => Ok tt) [] [])
  = (Raise (mkExn "KeyError" "'NEO4J_PASSWORD'"),
     mkWorld (<["NEO4J_URI" := "http://localhost:7687"]> (<["NEO4J_USERNAME" := "neo4j"]> ∅))
             (fun _ => Ok tt) [] []).
Proof.
  apply (init_raises_key_error_for_missing_variable
           (mkWorld (<["NEO4J_URI" := "http://localhost:7687"]>
                       (<["NEO4J_USERNAME" := "neo4j"]> ∅))
                    (fun _ => Ok tt) [] []) "NEO4J_PASSWORD").
  reflexivity.
Defined.

(** X19: with the three variables set, [GraphManager.__init__] opens the
    graph at the address in which every [http] is replaced by [bolt], then
    probes it with [RETURN 1].  A failure to open the graph reaches the
    caller as it is, without a log record, the constructor call being
    outside the [try] statement; a failure of the probe is logged and raised
    as a [ConnectionError] that carries its message; and when both succeed
    the manager is returned after one record of success. *)
Theorem init_opens_then_probes (w : World) (c : Call) :
  opening (environ w) = Some c ->
  (forall e, engine w (calls w ++ [c]) = Raise e ->
     exists w', GraphManager_init w = (Raise e, w')
                /\ calls w' = calls w ++ [c] /\ log w' = log w)
  /\ (engine w (calls w ++ [c]) = Ok tt ->
      (forall e, engine w (calls w ++ [c; Probe "RETURN 1"]) = Raise e ->
         exists w', GraphManager_init w
                    = (Raise (mkExn "ConnectionError" (connection_failed e)), w')
                    /\ calls w' = calls w ++ [c; Probe "RETURN 1"]
                    /\ log w' = log w ++ [Log.mk Log.ERROR "GraphManager"
                                                 (connection_failed e) []])
      /\ (engine w (calls w ++ [c; Probe "RETURN 1"]) = Ok tt ->
          exists m w', GraphManager_init w = (Ok m, w')
                       /\ c = Open (neo4j_url m) (neo4j_username m) (neo4j_password m)
                       /\ calls w' = calls w ++ [c; Probe "RETURN 1"]
                       /\ log w' = log w ++ [Log.mk Log.INFO "GraphManager"
                                     "Connessione a Neo4j stabilita con successo." []])).
Proof.
  intros Hc. destruct (opening_set _ _ Hc) as (uri & username & password & Hu & Hn & Hp & ->).
  set (c := Open (replace "http" "bolt" uri) username password).
  assert (Hstart :
            GraphManager_init w
            = bind (call c) (fun _ =>
                bind (try_except
                        (bind (call (Probe "RETURN 1")) (fun _ =>
                           emit Log.INFO "Connessione a Neo4j stabilita con successo." []))
                        (fun e => bind (emit Log.ERROR (connection_failed e) []) (fun _ =>
                           raise (mkExn "ConnectionError" (connection_failed e)))))
                     (fun _ => ret (mkGraphManager (replace "http" "bolt" uri)
                                                   username password))) w).
  { unfold GraphManager_init.
    erewrite bind_ok by (apply getenv_ok; exact Hu).
    erewrite bind_ok by (apply getenv_ok; exact Hn).
    erewrite bind_ok by (apply getenv_ok; exact Hp). reflexivity. }
  rewrite Hstart. clear Hstart.
  split.
  - intros e He. eexists. split.
    + erewrite bind_raise by (unfold call; rewrite He; reflexivity). reflexivity.
    + simpl. auto.
  - intros Hopen. split.
    + intros e He. eexists. split.
      * erewrite bind_ok by (unfold call; rewrite Hopen; reflexivity).
        erewrite bind_raise; [reflexivity|].
        erewrite try_except_raise.
        2:{ erewrite bind_raise; [reflexivity|]. unfold call. simpl calls. simpl engine.
            rewrite <- app_assoc. simpl app. rewrite He. reflexivity. }
        reflexivity.
      * simpl. rewrite <- ?app_assoc. auto.
    + intros He. eexists _, _. split.
      * erewrite bind_ok by (unfold call; rewrite Hopen; reflexivity).
        erewrite bind_ok; [reflexivity|].
        erewrite try_except_ok; [reflexivity|].
        erewrite bind_ok; [reflexivity|]. unfold call. simpl calls. simpl engine.
        rewrite <- app_assoc. simpl app. rewrite He. reflexivity.
      * simpl. rewrite <- ?app_assoc. auto.
Qed.

(** A graph that opens and does not answer the probe. *)
Lemma init_opens_then_probes_witness :
  exists w',
    GraphManager_init mute_engine
    = (Raise (mkExn "ConnectionError" "Errore durante la connessione a Neo4j: no route"), w')
    /\ calls w' = [Open "bolt://localhost:7687" "neo4j" "secret"; Probe "RETURN 1"].
Proof.
  destruct (init_opens_then_probes mute_engine
              (Open "bolt://localhost:7687" "neo4j" "secret") eq_refl) as [_ H].
  destruct (H eq_refl) as [Hprobe _].
  destruct (Hprobe (mkExn "ServiceUnavailable" "no route") eq_refl) as (w' & Hrun & Hc & _).
  exists w'. split; [exact Hrun | exact Hc].
Defined.

End ConnectTheorems.

(** ** The calls of a load *)

Module LoadShapeTheorems.
Import Py Eff GraphManager EffFacts Samples.

(** X20: whatever the bulk query comes to, [load_data] makes two calls to
    the engine, the query with the whole batch and then the schema refresh,
    and ends as the refresh ends; it writes two log records, the second of
    which tells a query that succeeded from one that failed. *)
Theorem load_data_ends_as_the_refresh_ends (data : list value) (w : World) :
  exists w',
    load_data data w
    = (engine w (calls w ++ [Query q_load_articles data; RefreshSchema]), w')
    /\ calls w' = calls w ++ [Query q_load_articles data; RefreshSchema]
    /\ exists second,
         log w' = log w ++ [Log.mk Log.INFO "GraphManager"
                              ("Avvio caricamento dati da " +:+ str (VList data) +:+ "...") [];
                            second]
         /\ Log.lvl second
            = match engine w (calls w ++ [Query q_load_articles data]) with
              | Ok _ => Log.INFO
              | Raise _ => Log.ERROR
              end.
Proof.
  unfold load_data. erewrite bind_ok by reflexivity.
  destruct (engine w (calls w ++ [Query q_load_articles data])) as [[]|e] eqn:H.
  - erewrite bind_ok.
    2:{ unfold try_except, bind, call. simpl. rewrite H. reflexivity. }
    unfold call. simpl. rewrite <- !app_assoc. simpl.
    eexists. split; [reflexivity|]. simpl. split; [reflexivity|].
    eexists. split; reflexivity.
  - erewrite bind_ok.
    2:{ unfold try_except, bind, call. simpl. rewrite H. reflexivity. }
    unfold call. simpl. rewrite <- !app_assoc. simpl.
    eexists. split; [reflexivity|]. simpl. split; [reflexivity|].
    eexists. split; reflexivity.
Qed.

End LoadShapeTheorems.

(** ** The repulsion pass at rest *)

Module RestFacts.
Import Layout LayoutSpec LayoutFacts.

(** On a settled layout the inner loop runs to its end. *)
Lemma scan_settled A threshold i js pos :
  settled A threshold pos -> scan A threshold i js pos = None.
Proof.
  intros Hs. induction js as [|j js IH]; simpl; [reflexivity|].
  destruct (j <=? i)%nat eqn:Hji; [exact IH|].
  destruct (pos !! i) as [p|] eqn:Hp; [|exact IH].
  destruct (pos !! j) as [q|] eqn:Hq; [|exact IH].
  apply Nat.leb_gt in Hji. rewrite (Hs i j p q Hji Hp Hq). exact IH.
Qed.

Lemma sweep_from_settled A threshold n idxs pos ov :
  settled A threshold pos -> sweep_from A threshold n idxs pos ov = (pos, ov).
Proof.
  intros Hs. induction idxs as [|i idxs IH]; simpl; [reflexivity|].
  rewrite (scan_settled A threshold i (seq 0 n) pos Hs). exact IH.
Qed.

Lemma avoid_overlap_rest A threshold fuel pos :
  settled A threshold pos -> avoid_overlap A (S fuel) threshold pos = Some pos.
Proof.
  intros Hs. cbn [avoid_overlap]. unfold sweep.
  rewrite (sweep_from_settled A threshold _ _ pos false Hs). reflexivity.
Qed.

End RestFacts.

Module RestTheorems.
Import Layout LayoutSpec LayoutFacts RestFacts.
Import Samples.

(** X21: in any arithmetic, that of Python floats included, the pass
    leaves a layout in which no two nodes are too close as it is, in one
    round of its [while]; so the layout it returns is one it returns
    again. *)
Theorem avoid_overlap_idempotent
    (A : Arith) (threshold : num A) (fuel : nat) (pos pos' : list (point A)) :
  (settled A threshold pos -> avoid_overlap A 1 threshold pos = Some pos)
  /\ (avoid_overlap A fuel threshold pos = Some pos' ->
      avoid_overlap A 1 threshold pos' = Some pos').
Proof.
  split.
  - apply avoid_overlap_rest.
  - intros H. apply avoid_overlap_rest. eapply avoid_overlap_settled. exact H.
Qed.

(** Three nodes on the origin, in Python floats: the layout after the
    pass is returned again. *)
Lemma avoid_overlap_idempotent_witness :
  exists pos',
    avoid_overlap binary64 2 (tenth binary64) [(0, 0); (0, 0); (0, 0)]%float = Some pos'
    /\ avoid_overlap binary64 1 (tenth binary64) pos' = Some pos'.
Proof.
  eexists. split; [vm_compute; reflexivity|].
  apply (avoid_overlap_idempotent binary64 (tenth binary64) 2
           [(0, 0); (0, 0); (0, 0)]%float).
  vm_compute. reflexivity.
Defined.

End RestTheorems.
